(** * Icon generation scripts: a shallow embedding of
      [generate_proper_icons.py] and the properties of its documentation.

    The script reads the stop colours of the first gradient of an SVG
    document, renders one square icon per entry of a static table of
    sizes (a vertical gradient, three white nodes, two connecting
    lines) and saves each of them as a PNG file.

    The sibling script [generate_icons.py] draws a simplified icon for
    each size of a list, embeds it as base64 text in an HTML page and
    writes a shell script next to it; it is embedded in [Placeholder].

    Python values are modelled as follows: [int] is [Z]; [float] is an
    IEEE-754 binary64 number, a [spec_float] with the operations of
    [SpecFloat] at precision 53; [str] is [string] (code points below
    256); [None] is the [None] of [option]; an exception is a [Raise]
    result.  Pillow and ElementTree are not part of the repository: the
    few entry points the script calls are modelled next to their use. *)

From Stdlib Require Import ZArith List String Ascii Bool Lia.
From Stdlib Require Import DecimalString.
From Stdlib Require Import Floats.SpecFloat.
From Stdlib Require Import Reals Lra.
Import ListNotations.
Local Open Scope string_scope.
Local Open Scope Z_scope.


(** ** Exceptions and results *)

Inductive Exc : Type :=
| AttributeError
| IndexError
| ValueError
| OverflowError
| ZeroDivisionError
| MemoryError
| OSError
| ParseError.

Inductive result (A : Type) : Type :=
| Ok (a : A)
| Raise (e : Exc).
Arguments Ok {A} a.
Arguments Raise {A} e.

Definition rbind {A B : Type} (r : result A) (k : A -> result B) : result B :=
  match r with
  | Ok a => k a
  | Raise e => Raise e
  end.

Declare Scope result_scope.
Delimit Scope result_scope with result.
Notation "x <- r ;; k" := (rbind r (fun x => k))
  (at level 61, r at next level, right associativity) : result_scope.
Notation "' p <- r ;; k" := (rbind r (fun x => let 'p := x in k))
  (at level 61, p pattern, r at next level, right associativity) : result_scope.

(** [for x in xs: ...] over a body that can raise and yields one value. *)
Fixpoint mapM {A B : Type} (f : A -> result B) (xs : list A) : result (list B) :=
  match xs with
  | [] => Ok []
  | x :: xs' =>
      match f x with
      | Ok b => match mapM f xs' with
                | Ok bs => Ok (b :: bs)
                | Raise e => Raise e
                end
      | Raise e => Raise e
      end
  end.

(** [xs[i]] on a Python list, for a non-negative index. *)
Definition getitem {A : Type} (xs : list A) (i : nat) : result A :=
  match nth_error xs i with
  | Some a => Ok a
  | None => Raise IndexError
  end.

(** [range(n)] *)
Definition range (n : Z) : list Z := map Z.of_nat (seq 0 (Z.to_nat n)).

(** ** Python strings and [int(s, 16)] *)

Module PyStr.

Definition code (c : ascii) : Z := Z.of_N (N_of_ascii c).

(** The white space [int] strips, on code points below 256: the six
    ASCII blanks, and the two other blanks of Unicode there, which
    [int] first turns into spaces.  The separators 28 to 31 are white
    space for [str.isspace] but not for [int]. *)
Definition is_space (c : ascii) : bool :=
  let n := code c in
  ((9 <=? n) && (n <=? 13)) || (n =? 32) || (n =? 133) || (n =? 160).

(** The digit table of CPython's [int]: 0-9, then letters of either case. *)
Definition digit_value (c : ascii) : option Z :=
  let n := code c in
  if (48 <=? n) && (n <=? 57) then Some (n - 48)
  else if (97 <=? n) && (n <=? 122) then Some (n - 87)
  else if (65 <=? n) && (n <=? 90) then Some (n - 55)
  else None.

Definition is_underscore (c : ascii) : bool := code c =? 95.

(** [s.lstrip(chars)] for a one-character set. *)
Fixpoint lstrip (ch : ascii) (s : string) : string :=
  match s with
  | String c s' => if Ascii.eqb c ch then lstrip ch s' else s
  | EmptyString => s
  end.

Fixpoint skip_spaces (s : string) : string :=
  match s with
  | String c s' => if is_space c then skip_spaces s' else s
  | EmptyString => s
  end.

(** The digit loop of [PyLong_FromString]: digits below [base] and single
    underscores between them.  [prev_us] says that the previous character
    was an underscore, [seen] that a digit has been read.  Returns the
    value read and the unread rest. *)
Fixpoint scan_digits (base : Z) (prev_us seen : bool) (acc : Z) (s : string)
  : option (Z * string) :=
  let finish := if prev_us || negb seen then None else Some (acc, s) in
  match s with
  | String c s' =>
      if is_underscore c then
        if prev_us || negb seen then None
        else scan_digits base true seen acc s'
      else
        match digit_value c with
        | Some d => if d <? base
                    then scan_digits base false true (acc * base + d) s'
                    else finish
        | None => finish
        end
  | EmptyString => finish
  end.

(** An optional sign: whether it is a minus, and what follows it. *)
Definition strip_sign (s : string) : bool * string :=
  match s with
  | String "+" r => (false, r)
  | String "-" r => (true, r)
  | _ => (false, s)
  end.

(** An optional [0x] or [0X], which one underscore may follow. *)
Definition strip_prefix16 (s : string) : string :=
  match s with
  | String "0" (String "x" r) | String "0" (String "X" r) =>
      match r with
      | String "_" r' => r'
      | _ => r
      end
  | _ => s
  end.

(** [int(s, 16)]: surrounding white space, an optional sign, an optional
    prefix, digits. *)
Definition int16 (s : string) : result Z :=
  let '(neg, s2) := strip_sign (skip_spaces s) in
  match scan_digits 16 false false 0 (strip_prefix16 s2) with
  | Some (v, rest) =>
      match skip_spaces rest with
      | EmptyString => Ok (if neg then - v else v)
      | _ => Raise ValueError
      end
  | None => Raise ValueError
  end.

End PyStr.

(** ** Python floats: IEEE-754 binary64 *)

Module PyFloat.

Definition prec : Z := 53.
Definition emax : Z := 1024.

Definition float : Type := spec_float.

(** [float(n)] for an [int]: the nearest binary64 number, ties to even;
    [OverflowError] when that would be an infinity. *)
Definition of_int (n : Z) : result float :=
  match binary_normalize prec emax n 0 false with
  | S754_infinity _ => Raise OverflowError
  | f => Ok f
  end.

(** [a / b] on two [int]s: the correctly rounded quotient of the exact
    integers (CPython's [long_true_divide]). *)
Definition truediv (a b : Z) : result float :=
  match a, b with
  | _, Z0 => Raise ZeroDivisionError
  | Z0, Zpos _ => Ok (S754_zero false)
  | Z0, Zneg _ => Ok (S754_zero true)
  | _, _ =>
      match SFdiv prec emax
              (S754_finite (a <? 0) (Z.to_pos (Z.abs a)) 0)
              (S754_finite (b <? 0) (Z.to_pos (Z.abs b)) 0) with
      | S754_infinity _ => Raise OverflowError
      | f => Ok f
      end
  end.

Definition mul (x y : float) : float := SFmul prec emax x y.
Definition add (x y : float) : float := SFadd prec emax x y.

(** [n * x] and [n + x] with an [int] on the left: the [int] is converted
    first. *)
Definition int_mul (n : Z) (x : float) : result float :=
  rbind (of_int n) (fun f => Ok (mul f x)).

Definition int_add (n : Z) (x : float) : result float :=
  rbind (of_int n) (fun f => Ok (add f x)).

(** [int(x)]: truncation towards zero. *)
Definition to_int (x : float) : result Z :=
  match x with
  | S754_zero _ => Ok 0
  | S754_infinity _ => Raise OverflowError
  | S754_nan => Raise ValueError
  | S754_finite s m e =>
      let a := if 0 <=? e then Zpos m * 2 ^ e else Zpos m / 2 ^ (- e) in
      Ok (if s then - a else a)
  end.

(** The literals [0.12] and [0.15]: the binary64 numbers nearest to
    12/100 and 15/100. *)
Definition lit_0_12 : float := S754_finite false 8646911284551352 (-56).
Definition lit_0_15 : float := S754_finite false 5404319552844595 (-55).

(** *** Reading a float as a real number

    These definitions are used to state facts about the operations
    above; the script does not compute with them. *)

Definition bpow (e : Z) : R := powerRZ 2 e.

(** The value of a finite float; 0 for the others. *)
Definition B2R (f : float) : R :=
  match f with
  | S754_finite s m e => ((if s then -1 else 1) * (IZR (Zpos m) * bpow e))%R
  | _ => 0%R
  end.

(** A zero, or a finite float with exponent between [lo] and [hi] and
    magnitude below [2 ^ K]. *)
Definition FIN (f : float) (lo hi K : Z) : Prop :=
  match f with
  | S754_zero _ => True
  | S754_finite _ m e => lo <= e <= hi /\ Zdigits2 (Zpos m) + e <= K
  | _ => False
  end.

Definition finite_or_zero (f : float) : Prop :=
  match f with
  | S754_zero _ | S754_finite _ _ _ => True
  | _ => False
  end.

End PyFloat.

(** ** Pillow: images and [ImageDraw] *)

Module Pillow.

(** An RGBA pixel: red, green, blue, alpha. *)
Definition Pixel : Type := (Z * Z * Z * Z)%type.

(** The pixel grid, rows from top to bottom. *)
Definition Image : Type := list (list Pixel).

Definition has_size (img : Image) (w h : Z) : Prop :=
  Z.of_nat (List.length img) = h /\
  Forall (fun row => Z.of_nat (List.length row) = w) img.

Definition getpixel (img : Image) (x y : Z) : option Pixel :=
  if (x <? 0) || (y <? 0) then None
  else match nth_error img (Z.to_nat y) with
       | Some row => nth_error row (Z.to_nat x)
       | None => None
       end.

(** An image without pixels. *)
Definition empty (img : Image) : bool :=
  match img with
  | [] => true
  | [] :: _ => true
  | _ => false
  end.

(** Dimensions are C [int]s, and a line of four bytes per pixel has to
    fit in one: the library refuses a wider image. *)
Definition INT_MAX : Z := 2147483647.
Definition MAX_WIDTH : Z := INT_MAX / 4 - 1.

(** [Image.new('RGBA', (w, h), color)]: the checks the library makes on
    the size, in their order.  Below them the allocation itself can
    still fail where the machine has not the memory; this is not
    modelled, and what is stated of an image is stated under the
    hypothesis that this call returned it. *)
Definition new (w h : Z) (color : Pixel) : result Image :=
  if (w <? 0) || (h <? 0) then Raise ValueError
  else if (INT_MAX <? w) || (INT_MAX <? h) then Raise OverflowError
  else if MAX_WIDTH <? w then Raise MemoryError
  else Ok (repeat (repeat color (Z.to_nat w)) (Z.to_nat h)).

(** Drawing on an RGBA image replaces every covered pixel of the canvas by
    the ink; pixels outside the canvas do not exist. *)
Fixpoint paint_row (cover : Z -> bool) (ink : Pixel) (x : Z) (row : list Pixel)
  : list Pixel :=
  match row with
  | [] => []
  | p :: row' => (if cover x then ink else p) :: paint_row cover ink (x + 1) row'
  end.

Fixpoint paint_from (cover : Z -> Z -> bool) (ink : Pixel) (y : Z) (img : Image)
  : Image :=
  match img with
  | [] => []
  | row :: img' =>
      paint_row (fun x => cover x y) ink 0 row :: paint_from cover ink (y + 1) img'
  end.

Definition paint (cover : Z -> Z -> bool) (ink : Pixel) (img : Image) : Image :=
  paint_from cover ink 0 img.

Definition Point : Type := (Z * Z)%type.

(** A fill colour becomes an ink with every channel clipped to 8 bits. *)
Definition clip8 (v : Z) : Z :=
  if v <=? 0 then 0 else if v <? 256 then v else 255.

Definition getink (fill : Pixel) : Pixel :=
  let '(r, g, b, a) := fill in (clip8 r, clip8 g, clip8 b, clip8 a).

(** The rasterizer of the library: which pixels [(x, y)] a shape covers.
    Only one fact about it is used: a one-pixel horizontal line covers
    the pixels between its end points, and no other. *)
Class Rasterizer : Type := {
  thin_line : Point -> Point -> Z -> Z -> bool;
  wide_line : Point -> Point -> Z -> Z -> Z -> bool;
  ellipse_shape : Point -> Point -> Z -> Z -> bool;
  thin_line_horizontal :
    forall x0 x1 y x y', x0 <= x1 ->
      thin_line (x0, y) (x1, y) x y' = (y' =? y) && (x0 <=? x) && (x <=? x1)
}.

(** The calls made on an [ImageDraw.Draw] object. *)
Inductive DrawOp : Type :=
| Line (p0 p1 : Point) (fill : Pixel) (width : Z)
| Ellipse (p0 p1 : Point) (fill : Pixel).

Section Draw.
Context {R : Rasterizer}.

(** [draw.line([p0, p1], fill, width)]: widths up to 1 take the one-pixel
    routine. *)
Definition line (p0 p1 : Point) (fill : Pixel) (width : Z) (img : Image)
  : Image :=
  if width <=? 1 then paint (thin_line p0 p1) (getink fill) img
  else paint (wide_line p0 p1 width) (getink fill) img.

(** [draw.ellipse([p0, p1], fill)] *)
Definition ellipse (p0 p1 : Point) (fill : Pixel) (img : Image) : Image :=
  paint (ellipse_shape p0 p1) (getink fill) img.

Definition draw (img : Image) (op : DrawOp) : Image :=
  match op with
  | Line p0 p1 fill width => line p0 p1 fill width img
  | Ellipse p0 p1 fill => ellipse p0 p1 fill img
  end.

Definition draw_all (ops : list DrawOp) (img : Image) : Image :=
  fold_left draw ops img.
End Draw.

End Pillow.

(** ** ElementTree *)

Module ET.

#[local] Unset Elimination Schemes.
Inductive Element : Type :=
| Elem (tag : string) (attrib : list (string * string)) (children : list Element).
#[local] Set Elimination Schemes.

Definition tag (e : Element) : string := let 'Elem t _ _ := e in t.
Definition attrib (e : Element) : list (string * string) := let 'Elem _ a _ := e in a.
Definition children (e : Element) : list Element := let 'Elem _ _ c := e in c.

(** [elem.get(key)] *)
Fixpoint lookup (key : string) (a : list (string * string)) : option string :=
  match a with
  | [] => None
  | (k, v) :: a' => if String.eqb k key then Some v else lookup key a'
  end.

Definition get (e : Element) (key : string) : option string :=
  lookup key (attrib e).

(** [elem.findall(t)]: the children with tag [t], in document order. *)
Definition findall (e : Element) (t : string) : list Element :=
  filter (fun c => String.eqb (tag c) t) (children e).

(** [elem.find('.//' + t)]: the first element with tag [t] below [e], in
    document order. *)
Fixpoint find_descendant (t : string) (e : Element) : option Element :=
  match e with
  | Elem _ _ cs =>
      (fix first (l : list Element) : option Element :=
         match l with
         | [] => None
         | c :: l' =>
             if String.eqb (tag c) t then Some c
             else match find_descendant t c with
                  | Some r => Some r
                  | None => first l'
                  end
         end) cs
  end.

End ET.

(** ** Python dictionaries with insertion order *)

Module PyDict.

Fixpoint set {V : Type} (k : Z) (v : V) (d : list (Z * V)) : list (Z * V) :=
  match d with
  | [] => [(k, v)]
  | (k', v') :: d' => if k' =? k then (k, v) :: d' else (k', v') :: set k v d'
  end.

(** A dictionary display [{k1: v1, k2: v2, ...}]: the entries are stored
    from left to right, a repeated key keeps its place and takes the later
    value. *)
Definition display {V : Type} (entries : list (Z * V)) : list (Z * V) :=
  fold_left (fun d kv => set (fst kv) (snd kv) d) entries [].

Definition items {V : Type} (d : list (Z * V)) : list (Z * V) := d.
Definition len {V : Type} (d : list (Z * V)) : Z := Z.of_nat (List.length d).

End PyDict.

(** ** The script [generate_proper_icons.py] *)

Module Script.
Import Pillow.

(** What the script prints, one constructor per [print] call. *)
Inductive Out : Type :=
| WarnParse (e : Exc)
| ErrNotFound (path : string)
| UsingColors (c0 c1 : option string)
| Generating
| Created (path : string) (size : Z)
| Generated (n : Z)
| TestHint
| ErrMessage (e : Exc).

(** The files written so far, in the order of the writes, and the
    standard output. *)
Record World : Type := {
  files : list (string * Image);
  stdout : list Out
}.

(** What the script reads from its host and does not change: which paths
    exist, what [ET.parse] makes of a path, and whether the output
    directory can be made. *)
Class Host : Type := {
  path_exists : string -> bool;
  ET_parse : string -> result ET.Element;
  makedirs : string -> result unit
}.

(** Statements: a world transformer that may raise. *)
Definition M (A : Type) : Type := World -> result A * World.

Definition ret {A : Type} (a : A) : M A := fun w => (Ok a, w).
Definition bind {A B : Type} (m : M A) (k : A -> M B) : M B :=
  fun w => match m w with
           | (Ok a, w') => k a w'
           | (Raise e, w') => (Raise e, w')
           end.
Definition lift {A : Type} (r : result A) : M A := fun w => (r, w).
Definition try_except {A : Type} (m : M A) (handler : Exc -> M A) : M A :=
  fun w => match m w with
           | (Ok a, w') => (Ok a, w')
           | (Raise e, w') => handler e w'
           end.
Definition print (o : Out) : M unit :=
  fun w => (Ok tt, {| files := files w; stdout := stdout w ++ [o] |}).
(** [img.save(path, 'PNG')]: the encoder refuses an image without
    pixels, and no file is left then. *)
Definition save (path : string) (img : Image) : M unit :=
  fun w => if Pillow.empty img then (Raise ValueError, w)
           else (Ok tt, {| files := files w ++ [(path, img)]; stdout := stdout w |}).

Declare Scope script_scope.
Delimit Scope script_scope with script.
Notation "x <- m ;; k" := (bind m (fun x => k))
  (at level 61, m at next level, right associativity) : script_scope.
Notation "m ;; k" := (bind m (fun _ => k))
  (at level 61, right associativity) : script_scope.

(** [for x in xs: body(x)] *)
Fixpoint for_each {A : Type} (xs : list A) (body : A -> M unit) : M unit :=
  match xs with
  | [] => ret tt
  | x :: xs' => bind (body x) (fun _ => for_each xs' body)
  end.

(** A gradient stop colour as the script holds it: the value of a
    [stop-color] attribute, or [None] when the attribute is missing. *)
Definition ColorStr : Type := option string.

(** An RGB triple. *)
Definition Color : Type := (Z * Z * Z)%type.

Definition default_colors : list ColorStr := [Some "#6366f1"; Some "#8b5cf6"].

Definition svg_ns (local : string) : string :=
  "{http://www.w3.org/2000/svg}" ++ local.

(** The gradient [parse_svg_colors] looks at: the first [linearGradient]
    in the SVG namespace, else the first one without a namespace. *)
Definition first_gradient (root : ET.Element) : option ET.Element :=
  match ET.find_descendant (svg_ns "linearGradient") root with
  | Some g => Some g
  | None => ET.find_descendant "linearGradient" root
  end.

(** The [stop-color] of its [stop] children, in the namespace, else without. *)
Definition stop_colors (gradient : ET.Element) : list ColorStr :=
  let stops := map (fun stop => ET.get stop "stop-color")
                   (ET.findall gradient (svg_ns "stop")) in
  match stops with
  | [] => map (fun stop => ET.get stop "stop-color") (ET.findall gradient "stop")
  | _ => stops
  end.

(** The body of the [try] block of [parse_svg_colors], after parsing. *)
Definition stops_of (root : ET.Element) : list ColorStr :=
  let stops :=
    match first_gradient root with
    | Some g => stop_colors g
    | None => []
    end in
  match stops with
  | [] => default_colors
  | _ => stops
  end.

(** [hex_to_rgb] *)
Definition hex_to_rgb (hex_color : ColorStr) : result Color :=
  match hex_color with
  | None => Raise AttributeError
  | Some h =>
      let h := PyStr.lstrip "#" h in
      (r <- PyStr.int16 (substring 0 2 h);;
       g <- PyStr.int16 (substring 2 2 h);;
       b <- PyStr.int16 (substring 4 2 h);;
       Ok (r, g, b))%result
  end.

(** One channel of the gradient at row [y]:
    [int(c1 + (c2 - c1) * ratio)] with [ratio = y / size]. *)
Definition channel (c1 c2 : Z) (ratio : PyFloat.float) : result Z :=
  (p <- PyFloat.int_mul (c2 - c1) ratio;;
   v <- PyFloat.int_add c1 p;;
   PyFloat.to_int v)%result.

(** The colour of row [y]: the body of the gradient loop up to the call of
    [draw.line]. *)
Definition row_fill (size : Z) (color1 color2 : Color) (y : Z) : result Pixel :=
  let '(r1, g1, b1) := color1 in
  let '(r2, g2, b2) := color2 in
  (ratio <- PyFloat.truediv y size;;
   r <- channel r1 r2 ratio;;
   g <- channel g1 g2 ratio;;
   b <- channel b1 b2 ratio;;
   Ok (r, g, b, 255))%result.

Definition row_line (size : Z) (color1 color2 : Color) (y : Z) : result DrawOp :=
  (fill <- row_fill size color1 color2 y;;
   Ok (Line (0, y) (size, y) fill 0))%result.

(** The gradient loop: one line per row. *)
Definition gradient_ops (size : Z) (color1 color2 : Color) : result (list DrawOp) :=
  mapM (row_line size color1 color2) (range size).

(** [int(size * x)] for a float literal [x]. *)
Definition scaled (size : Z) (x : PyFloat.float) : result Z :=
  (f <- PyFloat.int_mul size x;; PyFloat.to_int f)%result.

(** The three nodes: left, top, right. *)
Definition nodes (size : Z) : result (list Point) :=
  let center_x := size / 2 in
  let center_y := size / 2 in
  (dx_left <- scaled size PyFloat.lit_0_12;;
   dy_top <- scaled size PyFloat.lit_0_15;;
   dx_right <- scaled size PyFloat.lit_0_12;;
   Ok [(center_x - dx_left, center_y);
       (center_x, center_y - dy_top);
       (center_x + dx_right, center_y)])%result.

Definition node_radius (size : Z) : Z := Z.max 4 (size / 15).
Definition line_width (size : Z) : Z := Z.max 2 (size / 60).

Definition node_op (size : Z) (node : Point) : DrawOp :=
  let '(x, y) := node in
  let r := node_radius size in
  Ellipse (x - r, y - r) (x + r, y + r) (255, 255, 255, 240).

(** The two connecting lines: top to left, top to right. *)
Definition connecting_ops (size : Z) (ns : list Point) : result (list DrawOp) :=
  (left <- getitem ns 0;;
   top <- getitem ns 1;;
   right <- getitem ns 2;;
   Ok [Line top left (255, 255, 255, 180) (line_width size);
       Line top right (255, 255, 255, 180) (line_width size)])%result.

Section Program.
Context {R : Rasterizer} {H : Host}.

(** [create_icon], lines 41 to 81: the image that is then saved. *)
Definition render (size : Z) (colors : list ColorStr) : result Image :=
  (img <- Pillow.new size size (0, 0, 0, 0);;
   c0 <- getitem colors 0;;
   color1 <- hex_to_rgb c0;;
   c1 <- getitem colors 1;;
   color2 <- hex_to_rgb c1;;
   background <- gradient_ops size color1 color2;;
   let img := draw_all background img in
   ns <- nodes size;;
   let img := draw_all (map (node_op size) ns) img in
   lines <- connecting_ops size ns;;
   Ok (draw_all lines img))%result.

Definition create_icon (size : Z) (colors : list ColorStr) (output_path : string)
  : M unit :=
  (img <- lift (render size colors);;
   save output_path img;;
   print (Created output_path size))%script.

Definition parse_svg_colors (svg_path : string) : M (list ColorStr) :=
  try_except
    (root <- lift (ET_parse svg_path);;
     ret (stops_of root))%script
    (fun e => print (WarnParse e);; ret default_colors)%script.

(** The table of [main], as written. *)
Definition sizes_display : list (Z * string) :=
  [ (72, "icon-72x72.png");
    (96, "icon-96x96.png");
    (128, "icon-128x128.png");
    (144, "icon-144x144.png");
    (152, "icon-152x152.png");
    (192, "icon-192x192.png");
    (384, "icon-384x384.png");
    (512, "icon-512x512.png");
    (76, "apple-touch-icon-76.png");
    (120, "apple-touch-icon-120.png");
    (152, "apple-touch-icon-152.png");
    (167, "apple-touch-icon-167.png");
    (180, "apple-touch-icon.png");
    (640, "splash-screen.png") ].

Definition sizes : list (Z * string) := PyDict.display sizes_display.

Definition main : M unit :=
  let svg_path := "public/images/favicon.svg" in
  if negb (path_exists svg_path) then print (ErrNotFound svg_path)
  else
    (colors <- parse_svg_colors svg_path;;
     c0 <- lift (getitem colors 0);;
     c1 <- lift (getitem colors 1);;
     print (UsingColors c0 c1);;
     lift (makedirs "public/icons");;
     print Generating;;
     for_each (PyDict.items sizes)
       (fun '(size, filename) =>
          create_icon size colors ("public/icons/" ++ filename));;
     print (Generated (PyDict.len sizes));;
     print TestHint)%script.

(** The guarded call at the end of the file: any exception of [main] is
    reported and the script ends normally. *)
Definition run : World -> World :=
  fun w => match main w with
           | (Ok _, w') => w'
           | (Raise e, w') => snd (print (ErrMessage e) w')
           end.
End Program.

End Script.

(** ** Auxiliary definitions: checkers and sample inputs *)

Module Checks.
Import Script.

(** The channel of the last row of a [s]-row gradient from [c1] to [c2]
    is within 1 of [c2]. *)
Definition last_row_near (s c1 c2 : Z) : bool :=
  match PyFloat.truediv (s - 1) s with
  | Ok q =>
      match channel c1 c2 q with
      | Ok z => (c2 - 1 <=? z) && (z <=? c2 + 1)
      | Raise _ => false
      end
  | Raise _ => false
  end.

(** What [hex_to_rgb] can return: channels of at most two hexadecimal
    digits, with a sign at worst. *)
Definition in_channel_range (c : Color) : Prop :=
  let '(r, g, b) := c in Z.abs r <= 255 /\ Z.abs g <= 255 /\ Z.abs b <= 255.

(** A [Color] of the data model: three 8-bit channels. *)
Definition is_color (c : Color) : Prop :=
  let '(r, g, b) := c in 0 <= r <= 255 /\ 0 <= g <= 255 /\ 0 <= b <= 255.

Definition between (c1 c2 z : Z) : Prop := Z.min c1 c2 <= z <= Z.max c1 c2.

(** The colour of row [y], or a transparent pixel where [row_fill]
    raises. *)
Definition fill_or_blank (size : Z) (color1 color2 : Color) (y : Z) : Pillow.Pixel :=
  match row_fill size color1 color2 y with
  | Ok p => p
  | Raise _ => (0, 0, 0, 0)
  end.

(** The overlay of an icon: three nodes, then two lines. *)
Definition overlay_ops (size dx dy : Z) : list Pillow.DrawOp :=
  let cx := size / 2 in
  let cy := size / 2 in
  let r := Z.max 4 (size / 15) in
  let w := Z.max 2 (size / 60) in
  [ Pillow.Ellipse (cx - dx - r, cy - r) (cx - dx + r, cy + r) (255, 255, 255, 240);
    Pillow.Ellipse (cx - r, cy - dy - r) (cx + r, cy - dy + r) (255, 255, 255, 240);
    Pillow.Ellipse (cx + dx - r, cy - r) (cx + dx + r, cy + r) (255, 255, 255, 240);
    Pillow.Line (cx, cy - dy) (cx - dx, cy) (255, 255, 255, 180) w;
    Pillow.Line (cx, cy - dy) (cx + dx, cy) (255, 255, 255, 180) w ].

(** The fill of a drawing call. *)
Definition ink (op : Pillow.DrawOp) : Pillow.Pixel :=
  match op with
  | Pillow.Line _ _ fill _ => fill
  | Pillow.Ellipse _ _ fill => fill
  end.

(** A rasterizer that fills bounding boxes; it has the one property
    [Rasterizer] asks for. *)
Definition in_box (p0 p1 : Pillow.Point) (x y : Z) : bool :=
  (Z.min (fst p0) (fst p1) <=? x) && (x <=? Z.max (fst p0) (fst p1))
  && (Z.min (snd p0) (snd p1) <=? y) && (y <=? Z.max (snd p0) (snd p1)).

Definition box_rasterizer : Pillow.Rasterizer.
Proof.
  refine {| Pillow.thin_line := in_box;
            Pillow.wide_line := fun p0 p1 _ => in_box p0 p1;
            Pillow.ellipse_shape := in_box |}.
  intros x0 x1 y x y' Hle. unfold in_box. simpl.
  rewrite Z.min_id, Z.max_id, Z.min_l, Z.max_r by lia.
  destruct (Z.eqb_spec y' y) as [->|Hne].
  - rewrite !Z.leb_refl.
    destruct (x0 <=? x), (x <=? x1); reflexivity.
  - destruct (x0 <=? x), (x <=? x1); simpl; try reflexivity;
      destruct (Z.leb_spec y y'), (Z.leb_spec y' y); simpl; try reflexivity; lia.
Defined.

(** A host on which the SVG file exists but cannot be parsed. *)
Definition unreadable_host : Host :=
  {| path_exists := fun _ => true;
     ET_parse := fun _ => Raise ParseError;
     makedirs := fun _ => Ok tt |}.

(** An SVG document with a two-stop gradient, and a host that serves it. *)
Definition two_stop_gradient : ET.Element :=
  ET.Elem (svg_ns "linearGradient") [("id", "grad")]
    [ ET.Elem (svg_ns "stop") [("offset", "0%"); ("stop-color", "#112233")] [];
      ET.Elem (svg_ns "stop") [("offset", "100%"); ("stop-color", "#445566")] [] ].

Definition two_stop_document : ET.Element :=
  ET.Elem (svg_ns "svg") [("viewBox", "0 0 64 64")]
    [ ET.Elem (svg_ns "defs") [] [two_stop_gradient];
      ET.Elem (svg_ns "circle") [("r", "30"); ("fill", "url(#grad)")] [] ].

Definition two_stop_host : Host :=
  {| path_exists := fun _ => true;
     ET_parse := fun _ => Ok two_stop_document;
     makedirs := fun _ => Ok tt |}.

(** The same with a single stop. *)
Definition one_stop_gradient : ET.Element :=
  ET.Elem (svg_ns "linearGradient") [("id", "grad")]
    [ ET.Elem (svg_ns "stop") [("offset", "0%"); ("stop-color", "#6366f1")] [] ].

Definition one_stop_document : ET.Element :=
  ET.Elem (svg_ns "svg") [] [ET.Elem (svg_ns "defs") [] [one_stop_gradient]].

Definition one_stop_host : Host :=
  {| path_exists := fun _ => true;
     ET_parse := fun _ => Ok one_stop_document;
     makedirs := fun _ => Ok tt |}.

Definition empty_world : World := {| files := []; stdout := [] |}.

(** The image [render] returns, or an empty one where it raises. *)
Definition rendered {R : Pillow.Rasterizer} (size : Z) (colors : list ColorStr)
  : Pillow.Image :=
  match render size colors with
  | Ok img => img
  | Raise _ => []
  end.

(** The colours [parse_svg_colors] returns for a path, and what it prints. *)
Definition colors_at {H : Host} (svg_path : string) : list ColorStr :=
  match ET_parse svg_path with
  | Ok root => stops_of root
  | Raise _ => default_colors
  end.

Definition warning_at {H : Host} (svg_path : string) : list Out :=
  match ET_parse svg_path with
  | Ok _ => []
  | Raise e => [WarnParse e]
  end.

(** The canvas after the gradient loop. *)
Definition background {R : Pillow.Rasterizer} (size : Z) (color1 color2 : Color)
  : Pillow.Image :=
  Pillow.draw_all
    (map (fun y => Pillow.Line (0, y) (size, y) (fill_or_blank size color1 color2 y) 0)
         (range size))
    (repeat (repeat (0, 0, 0, 0) (Z.to_nat size)) (Z.to_nat size)).

Definition icon_path (filename : string) : string := "public/icons/" ++ filename.

(** The files of one run of [main], in the order of their writing. *)
Definition icon_files : list string :=
  map icon_path
    [ "icon-72x72.png"; "icon-96x96.png"; "icon-128x128.png"; "icon-144x144.png";
      "apple-touch-icon-152.png"; "icon-192x192.png"; "icon-384x384.png";
      "icon-512x512.png"; "apple-touch-icon-76.png"; "apple-touch-icon-120.png";
      "apple-touch-icon-167.png"; "apple-touch-icon.png"; "splash-screen.png" ].

End Checks.

(** ** Reference notions for the statements *)

Module Reference.
Import Script.

(** Linear interpolation in exact arithmetic, rounded down:
    [c1 + (c2 - c1) * y / s], the division being the last operation. *)
Definition interp (c1 c2 y s : Z) : Z := c1 + (c2 - c1) * y / s.

(** When the exact interpolation is an integer. *)
Definition on_grid (c1 c2 y s : Z) : Prop := ((c2 - c1) * y) mod s = 0.

(** A channel computed by the script agrees with the exact one: it is
    the exact value rounded down, or one less where the exact value is an
    integer. *)
Definition agrees (z c1 c2 y s : Z) : Prop :=
  interp c1 c2 y s - 1 <= z <= interp c1 c2 y s /\
  (~ on_grid c1 c2 y s -> z = interp c1 c2 y s).

(** From [c1] towards [c2]: not further from [c1] in the second value
    than in the first. *)
Definition towards (c1 c2 za zb : Z) : Prop :=
  (c1 <= c2 -> za <= zb) /\ (c2 <= c1 -> zb <= za).

(** The square drawn around a node, and whether it lies on the canvas. *)
Definition node_box (size : Z) (node : Pillow.Point) : Pillow.Point * Pillow.Point :=
  let '(x, y) := node in
  ((x - node_radius size, y - node_radius size),
   (x + node_radius size, y + node_radius size)).

Definition on_canvas (size : Z) (box : Pillow.Point * Pillow.Point) : Prop :=
  let '((x0, y0), (x1, y1)) := box in
  0 <= x0 /\ x0 <= x1 /\ x1 <= size - 1 /\ 0 <= y0 /\ y0 <= y1 /\ y1 <= size - 1.

(** The hexadecimal notation of a channel and of a colour, as
    ['%02x'] and ['%02X'] print them. *)
Definition hex_digit (upper : bool) (n : Z) : ascii :=
  if n <? 10 then ascii_of_N (Z.to_N (48 + n))
  else ascii_of_N (Z.to_N ((if upper then 55 else 87) + n)).

Definition hex2 (upper : bool) (n : Z) : string :=
  String (hex_digit upper (n / 16)) (String (hex_digit upper (n mod 16)) "").

Definition hex_color (upper : bool) (c : Color) : string :=
  let '(r, g, b) := c in "#" ++ hex2 upper r ++ hex2 upper g ++ hex2 upper b.

(** All characters, and what [int(s, 16)] may return on a string of at
    most two of them. *)
Definition all_ascii : list ascii := map ascii_of_nat (seq 0 256).

Definition small_channel (s : string) : bool :=
  match PyStr.int16 s with
  | Ok z => (-15 <=? z) && (z <=? 255)
  | Raise _ => true
  end.

End Reference.

(** ** More sample inputs *)

Module Samples.
Import Script.

(** A host without the SVG file. *)
Definition missing_host : Host :=
  {| path_exists := fun _ => false;
     ET_parse := fun _ => Raise OSError;
     makedirs := fun _ => Ok tt |}.

(** A gradient of three stops, and one whose first stop has no
    [stop-color]. *)
Definition three_stop_gradient : ET.Element :=
  ET.Elem (svg_ns "linearGradient") [("id", "grad")]
    [ ET.Elem (svg_ns "stop") [("offset", "0%"); ("stop-color", "#112233")] [];
      ET.Elem (svg_ns "stop") [("offset", "50%"); ("stop-color", "#445566")] [];
      ET.Elem (svg_ns "stop") [("offset", "100%"); ("stop-color", "#778899")] [] ].

Definition three_stop_host : Host :=
  {| path_exists := fun _ => true;
     ET_parse := fun _ => Ok (ET.Elem (svg_ns "svg") [] [three_stop_gradient]);
     makedirs := fun _ => Ok tt |}.

Definition bare_stop_gradient : ET.Element :=
  ET.Elem (svg_ns "linearGradient") [("id", "grad")]
    [ ET.Elem (svg_ns "stop") [("offset", "0%")] [];
      ET.Elem (svg_ns "stop") [("offset", "100%"); ("stop-color", "#445566")] [] ].

Definition bare_stop_document : ET.Element :=
  ET.Elem (svg_ns "svg") [] [bare_stop_gradient].

Definition bare_stop_host : Host :=
  {| path_exists := fun _ => true;
     ET_parse := fun _ => Ok bare_stop_document;
     makedirs := fun _ => Ok tt |}.

(** A gradient whose only stop has a colour name. *)
Definition named_stop_gradient : ET.Element :=
  ET.Elem (svg_ns "linearGradient") [("id", "grad")]
    [ ET.Elem (svg_ns "stop") [("offset", "0%"); ("stop-color", "red")] [] ].

Definition named_stop_document : ET.Element :=
  ET.Elem (svg_ns "svg") [] [named_stop_gradient].

Definition named_stop_host : Host :=
  {| path_exists := fun _ => true;
     ET_parse := fun _ => Ok named_stop_document;
     makedirs := fun _ => Ok tt |}.

End Samples.

(** ** The bits a shifted mantissa keeps *)

Module Rounding.

(** What the round and sticky bits say about the bits shifted out. *)
Definition bits_agree (m j : Z) (a : shr_record) : Prop :=
  shr_m a = m / 2 ^ j /\
  match shr_r a, shr_s a with
  | false, false => m mod 2 ^ j = 0
  | false, true => 0 < 2 * (m mod 2 ^ j) < 2 ^ j
  | true, false => 2 * (m mod 2 ^ j) = 2 ^ j
  | true, true => 2 ^ j < 2 * (m mod 2 ^ j)
  end.

End Rounding.

(** ** The script [generate_icons.py]

    The second generator draws a simplified icon with Pillow, when the
    library can be imported, and embeds it as base64 in an HTML page; it
    also writes a shell script that calls ImageMagick.  The PNG encoder
    of the library is a function of the host. *)

Module Placeholder.
Import Pillow.

(** [base64.b64encode] on a byte string: three bytes give four
    characters of the standard alphabet, the last group is padded. *)
Definition b64_alphabet : string :=
  "ABCDEFGHIJKLMNOPQRSTUVWXYZabcdefghijklmnopqrstuvwxyz0123456789+/".

Definition b64_char (n : Z) : ascii :=
  match String.get (Z.to_nat n) b64_alphabet with
  | Some c => c
  | None => "="%char
  end.

Definition byte_value (b : Byte.byte) : Z := Z.of_N (Byte.to_N b).

Fixpoint b64encode (data : list Byte.byte) : string :=
  match data with
  | [] => ""
  | [a] =>
      let n := Z.shiftl (byte_value a) 16 in
      String (b64_char (Z.shiftr n 18))
        (String (b64_char (Z.land (Z.shiftr n 12) 63)) "==")
  | [a; b] =>
      let n := Z.lor (Z.shiftl (byte_value a) 16) (Z.shiftl (byte_value b) 8) in
      String (b64_char (Z.shiftr n 18))
        (String (b64_char (Z.land (Z.shiftr n 12) 63))
           (String (b64_char (Z.land (Z.shiftr n 6) 63)) "="))
  | a :: b :: c :: rest =>
      let n := Z.lor (Z.lor (Z.shiftl (byte_value a) 16) (Z.shiftl (byte_value b) 8))
                     (byte_value c) in
      String (b64_char (Z.shiftr n 18))
        (String (b64_char (Z.land (Z.shiftr n 12) 63))
           (String (b64_char (Z.land (Z.shiftr n 6) 63))
              (String (b64_char (Z.land n 63)) (b64encode rest))))
  end.

(** [str(n)] for an [int]. *)
Definition str (n : Z) : string := NilZero.string_of_int (Z.to_int n).

(** The double quote. *)
Definition dq : string := String "034"%char EmptyString.

(** What the script prints, one constructor per [print] call. *)
Inductive Out : Type :=
| PilMissing
| GeneratingIcons
| IconGenerated (size : Z)
| IconMissing (size : Z)
| IconError (size : Z) (e : Exc)
| HtmlWritten
| ScriptWritten
| ChmodFailed (e : Exc)
| AltHeader
| AltIntro
| AltUpload
| AltSizes
| AltSaveAs.

(** The text files written so far, in the order of the writes, the
    modes set with [os.chmod], and the standard output. *)
Record World : Type := {
  files : list (string * string);
  modes : list (string * Z);
  stdout : list Out
}.

(** What the script asks of its host: whether Pillow can be imported,
    the text of a file, the PNG encoding of an image (what [img.save]
    leaves in the buffer, or the exception it raises: the library
    refuses an image without pixels), and whether a text file can be
    written and its mode changed. *)
Class Host : Type := {
  pil_available : bool;
  read_text : string -> result string;
  png_bytes : Image -> result (list Byte.byte);
  write_text : string -> string -> result unit;
  chmod : string -> Z -> result unit
}.

Definition M (A : Type) : Type := World -> result A * World.

Definition ret {A : Type} (a : A) : M A := fun w => (Ok a, w).
Definition bind {A B : Type} (m : M A) (k : A -> M B) : M B :=
  fun w => match m w with
           | (Ok a, w') => k a w'
           | (Raise e, w') => (Raise e, w')
           end.
Definition lift {A : Type} (r : result A) : M A := fun w => (r, w).
Definition try_except {A : Type} (m : M A) (handler : Exc -> M A) : M A :=
  fun w => match m w with
           | (Ok a, w') => (Ok a, w')
           | (Raise e, w') => handler e w'
           end.
Definition print (o : Out) : M unit :=
  fun w => (Ok tt, {| files := files w; modes := modes w; stdout := stdout w ++ [o] |}).

Declare Scope placeholder_scope.
Delimit Scope placeholder_scope with placeholder.
Notation "x <- m ;; k" := (bind m (fun x => k))
  (at level 61, m at next level, right associativity) : placeholder_scope.
Notation "m ;; k" := (bind m (fun _ => k))
  (at level 61, right associativity) : placeholder_scope.

(** The float literals of the script: the binary64 numbers nearest to
    45/100, 1/10 and 8/100. *)
Definition lit_0_45 : PyFloat.float := S754_finite false 8106479329266893 (-54).
Definition lit_0_1 : PyFloat.float := S754_finite false 7205759403792794 (-56).
Definition lit_0_08 : PyFloat.float := S754_finite false 5764607523034235 (-56).

(** One row of the gradient: the three channels divide [y] by [size]
    anew. *)
Definition gradient_row (size y : Z) : result DrawOp :=
  (t <- PyFloat.truediv y size;;
   r <- Script.channel 99 139 t;;
   t <- PyFloat.truediv y size;;
   g <- Script.channel 102 92 t;;
   t <- PyFloat.truediv y size;;
   b <- Script.channel 241 246 t;;
   Ok (Line (0, y) (size, y) (r, g, b, 255) 0))%result.

(** The page and the shell script, piece by piece. *)
Definition html_head : string :=
  "<!DOCTYPE html>
<html>
<head>
    <title>iOS Icon Generator</title>
</head>
<body>
    <h1>iOS App Icons</h1>
    <p>Use a proper SVG to PNG converter to generate these icons:</p>

    <div style=" ++
  dq ++ "display: flex; flex-wrap: wrap; gap: 20px;" ++ dq ++
  ">
".

Definition img_block (base64_data : string) (size : Z) : string :=
  "
        <div style=" ++
  dq ++ "text-align: center;" ++ dq ++
  ">
            <img src=" ++
  dq ++ "data:image/png;base64," ++ base64_data ++ dq ++ " width=" ++ dq ++ str size ++
  dq ++ " height=" ++ dq ++ str size ++ dq ++ " style=" ++ dq ++
  "border: 1px solid #ccc;" ++ dq ++
  ">
            <p>" ++
  str size ++ "x" ++ str size ++
  "px</p>
        </div>
".

Definition placeholder_block (size : Z) : string :=
  "
        <div style=" ++
  dq ++ "text-align: center;" ++ dq ++
  ">
            <div style=" ++
  dq ++ "width: " ++ str size ++ "px; height: " ++ str size ++
  "px; border: 1px solid #ccc; display: flex; align-items: center; justify-content: center; background: linear-gradient(135deg, rgba(99, 102, 241, 0.15), rgba(139, 92, 246, 0.15));" ++
  dq ++
  ">
                <span style=" ++
  dq ++ "font-size: " ++ str (size / 10) ++ "px;" ++ dq ++ ">" ++ str size ++
  "px</span>
            </div>
            <p>" ++
  str size ++ "x" ++ str size ++
  "px (placeholder)</p>
        </div>
".

Definition html_tail : string :=
  "
    </div>
</body>
</html>
".

Definition shell_script : string :=
  "#!/bin/bash
# Generate iOS icons from favicon.svg using ImageMagick or similar tools
# Install ImageMagick first: brew install imagemagick

# Create icons directory
mkdir -p public/icons

# Generate various sizes
convert public/images/favicon.svg -resize 72x72 public/icons/icon-72x72.png
convert public/images/favicon.svg -resize 96x96 public/icons/icon-96x96.png
convert public/images/favicon.svg -resize 128x128 public/icons/icon-128x128.png
convert public/images/favicon.svg -resize 144x144 public/icons/icon-144x144.png
convert public/images/favicon.svg -resize 152x152 public/icons/icon-152x152.png
convert public/images/favicon.svg -resize 192x192 public/icons/icon-192x192.png
convert public/images/favicon.svg -resize 384x384 public/icons/icon-384x384.png
convert public/images/favicon.svg -resize 512x512 public/icons/icon-512x512.png

# Generate iOS-specific Apple Touch icons
convert public/images/favicon.svg -resize 76x76 public/icons/apple-touch-icon-76.png
convert public/images/favicon.svg -resize 120x120 public/icons/apple-touch-icon-120.png
convert public/images/favicon.svg -resize 152x152 public/icons/apple-touch-icon-152.png
convert public/images/favicon.svg -resize 180x180 public/icons/apple-touch-icon.png

# Additional iOS home screen icon
convert public/images/favicon.svg -resize 167x167 public/icons/apple-touch-icon-167.png

# Splash screen
convert public/images/favicon.svg -background " ++
  dq ++ "#6366f1" ++ dq ++
  " -gravity center -resize 50% -extent 640x1136 public/icons/splash-screen.png

echo " ++
  dq ++ "✓ All iOS icons generated in public/icons/" ++ dq ++
  "
".

Section Program.
Context {R : Rasterizer} {H : Host}.

(** The drawing of [svg_to_base64_png], lines 17 to 55: the image that is
    then encoded. *)
Definition placeholder_image (size : Z) : result Image :=
  (img <- Pillow.new size size (0, 0, 0, 0);;
   background <- mapM (gradient_row size) (range size);;
   let img := draw_all background img in
   let center := size / 2 in
   radius <- Script.scaled size lit_0_45;;
   margin <- Script.scaled size lit_0_1;;
   circle_radius <- Script.scaled size lit_0_08;;
   d0 <- Script.scaled size PyFloat.lit_0_15;;
   d1 <- Script.scaled size PyFloat.lit_0_15;;
   let img := ellipse (center - circle_radius - d0, center - circle_radius)
                      (center + circle_radius - d1, center + circle_radius)
                      (255, 255, 255, 230) img in
   d0 <- Script.scaled size PyFloat.lit_0_15;;
   d1 <- Script.scaled size PyFloat.lit_0_15;;
   let img := ellipse (center - circle_radius + d0, center - circle_radius)
                      (center + circle_radius + d1, center + circle_radius)
                      (255, 255, 255, 230) img in
   d0 <- Script.scaled size PyFloat.lit_0_15;;
   d1 <- Script.scaled size PyFloat.lit_0_15;;
   let img := ellipse (center - circle_radius, center - circle_radius - d0)
                      (center + circle_radius, center + circle_radius - d1)
                      (255, 255, 255, 230) img in
   Ok img)%result.

(** [svg_to_base64_png]: the SVG text is not looked at.  Without Pillow
    the import fails inside the [try] and the function returns [None]. *)
Definition svg_to_base64_png (svg_content : string) (size : Z) : M (option string) :=
  if pil_available then
    (img <- lift (placeholder_image size);;
     data <- lift (png_bytes img);;
     ret (Some (b64encode data)))%placeholder
  else
    (print PilMissing;; ret None)%placeholder.

(** The body of the loop over the sizes; [html] is the page so far.
    [if base64_data:] holds for a string that is not empty. *)
Definition add_icon (svg_content html : string) (size : Z) : M string :=
  try_except
    (base64_data <- svg_to_base64_png svg_content size;;
     match base64_data with
     | Some (String c data) =>
         let html := html ++ img_block (String c data) size in
         print (IconGenerated size);; ret html
     | _ =>
         let html := html ++ placeholder_block size in
         print (IconMissing size);; ret html
     end)%placeholder
    (fun e => print (IconError size e);; ret html)%placeholder.

Fixpoint add_icons (svg_content html : string) (sizes : list Z) : M string :=
  match sizes with
  | [] => ret html
  | size :: sizes' =>
      bind (add_icon svg_content html size)
           (fun html' => add_icons svg_content html' sizes')
  end.

(** [with open(path, 'w') as f: f.write(text)] *)
Definition write (path text : string) : M unit :=
  fun w => match write_text path text with
           | Ok _ => (Ok tt, {| files := files w ++ [(path, text)];
                                modes := modes w; stdout := stdout w |})
           | Raise e => (Raise e, w)
           end.

(** [os.chmod(path, mode)] *)
Definition set_mode (path : string) (mode : Z) : M unit :=
  fun w => match chmod path mode with
           | Ok _ => (Ok tt, {| files := files w; modes := modes w ++ [(path, mode)];
                                stdout := stdout w |})
           | Raise e => (Raise e, w)
           end.

(** Lines 122 to 175 of [generate_html_placeholder]: the two files and
    the closing messages. *)
Definition write_outputs (html : string) : M unit :=
  (write "ios-icons.html" html;;
   print HtmlWritten;;
   write "generate-icons.sh" shell_script;;
   try_except
     (set_mode "generate-icons.sh" 493;; print ScriptWritten)
     (fun e => print (ChmodFailed e));;
   print AltHeader;;
   print AltIntro;;
   print AltUpload;;
   print AltSizes;;
   print AltSaveAs)%placeholder.

Definition generate_html_placeholder (sizes : list Z) : M unit :=
  let svg_path := "public/images/favicon.svg" in
  (svg_content <- lift (read_text svg_path);;
   print GeneratingIcons;;
   html <- add_icons svg_content html_head sizes;;
   let html := html ++ html_tail in
   write_outputs html)%placeholder.

(** The sizes of the last lines of the file, and the call made there. *)
Definition ios_sizes : list Z := [72; 76; 96; 120; 128; 144; 152; 167; 180; 192; 384; 512].

Definition run : M unit := generate_html_placeholder ios_sizes.
End Program.

End Placeholder.

(** ** Reference notions and sample inputs for [generate_icons.py] *)

Module PlaceholderChecks.
Import Pillow Placeholder.

(** The three circles of the simplified icon, in integer arithmetic. *)
Definition placeholder_ops (size : Z) : list DrawOp :=
  let center := size / 2 in
  let r := 2 * size / 25 in
  let d := 3 * size / 20 in
  [ Ellipse (center - r - d, center - r) (center + r - d, center + r)
            (255, 255, 255, 230);
    Ellipse (center - r + d, center - r) (center + r + d, center + r)
            (255, 255, 255, 230);
    Ellipse (center - r, center - r - d) (center + r, center + r - d)
            (255, 255, 255, 230) ].

(** Whether a box has its corners in order. *)
Definition well_formed (op : DrawOp) : Prop :=
  match op with
  | Ellipse (x0, y0) (x1, y1) _ => x0 <= x1 /\ y0 <= y1
  | Line _ _ _ _ => True
  end.

(** A host with a toy encoder: every image that has pixels is encoded
    as the eight bytes of the PNG signature, and one that has none is
    refused. *)
Definition png_signature : list Byte.byte :=
  [Byte.x89; Byte.x50; Byte.x4e; Byte.x47; Byte.x0d; Byte.x0a; Byte.x1a; Byte.x0a].

Definition plain_host (pil : bool) : Host :=
  {| pil_available := pil;
     read_text := fun _ => Ok "<svg/>";
     png_bytes := fun img => if Pillow.empty img then Raise ValueError
                            else Ok png_signature;
     write_text := fun _ _ => Ok tt;
     chmod := fun _ _ => Ok tt |}.

(** A host whose disk is read-only. *)
Definition readonly_host : Host :=
  {| pil_available := false;
     read_text := fun _ => Ok "<svg/>";
     png_bytes := fun _ => Raise OSError;
     write_text := fun _ _ => Raise OSError;
     chmod := fun _ _ => Raise OSError |}.

(** A host whose SVG file holds the given text, and is otherwise as
    [H]. *)
Definition with_svg (H : Host) (text : string) : Host :=
  {| pil_available := @pil_available H;
     read_text := fun _ => Ok text;
     png_bytes := @png_bytes H;
     write_text := @write_text H;
     chmod := @chmod H |}.

Definition blank_world : World := {| files := []; modes := []; stdout := [] |}.

End PlaceholderChecks.

(** * Facts about binary64 arithmetic

    [binary_round_aux] rounds faithfully: in the normal range its result
    lies between the two neighbours of the exact value on the grid of
    the result.  What follows from it is an enclosure property for every
    operation the script uses: integer bounds of the exact result are
    bounds of the rounded one. *)

Module FloatFacts.
Import PyFloat.

Section Integers.
Local Open Scope Z_scope.

Lemma digits2_pos_size p : digits2_pos p = Pos.size p.
Proof. induction p; simpl; congruence. Qed.

Lemma Zdigits2_log2 m : 0 < m -> Zdigits2 m = Z.log2 m + 1.
Proof.
  destruct m as [|p|p]; try lia. intros _. simpl.
  rewrite digits2_pos_size. destruct p; simpl; lia.
Qed.

Lemma Zdigits2_bounds m :
  0 < m -> 2 ^ (Zdigits2 m - 1) <= m < 2 ^ Zdigits2 m.
Proof.
  intros Hm. rewrite (Zdigits2_log2 m Hm).
  replace (Z.log2 m + 1 - 1) with (Z.log2 m) by lia.
  apply Z.log2_spec. exact Hm.
Qed.

Lemma Zdigits2_unique m d :
  2 ^ (d - 1) <= m < 2 ^ d -> 0 < d -> Zdigits2 m = d.
Proof.
  intros Hb Hd.
  assert (0 < m) by (pose proof (Z.pow_pos_nonneg 2 (d - 1)); lia).
  rewrite Zdigits2_log2 by assumption.
  rewrite (Z.log2_unique m (d - 1)); try lia.
  replace (Z.succ (d - 1)) with d by lia. exact Hb.
Qed.

Lemma Zdigits2_pos m : 0 < m -> 0 < Zdigits2 m.
Proof. intros Hm. rewrite Zdigits2_log2 by assumption. pose proof (Z.log2_nonneg m). lia. Qed.

Lemma iter_pos_ind (A : Type) (f : A -> A) (P : Z -> A -> Prop) :
  (forall j a, 0 <= j -> P j a -> P (j + 1) (f a)) ->
  forall p j a, 0 <= j -> P j a -> P (j + Zpos p) (SpecFloat.iter_pos f p a).
Proof.
  intros Hstep. induction p as [p IH|p IH|]; intros j a Hj Ha; simpl.
  - replace (j + Zpos p~1) with (j + 1 + Zpos p + Zpos p) by lia.
    apply IH; [lia|]. apply IH; [lia|]. apply Hstep; assumption.
  - replace (j + Zpos p~0) with (j + Zpos p + Zpos p) by lia.
    apply IH; [lia|]. apply IH; assumption.
  - apply Hstep; assumption.
Qed.

Lemma shr_1_spec mrs :
  0 <= shr_m mrs ->
  shr_m (shr_1 mrs) = shr_m mrs / 2 /\
  shr_r (shr_1 mrs) = Z.odd (shr_m mrs) /\
  shr_s (shr_1 mrs) = shr_r mrs || shr_s mrs.
Proof.
  destruct mrs as [m r s]. simpl. intros Hm.
  rewrite <- Z.div2_div.
  destruct m as [|[p|p|]|p]; try lia; simpl; auto.
Qed.

Lemma shr_iter_spec m r s p :
  0 <= m ->
  let mrs := SpecFloat.iter_pos shr_1 p (Build_shr_record m r s) in
  shr_m mrs = m / 2 ^ Zpos p /\
  (r = false -> s = false -> m mod 2 ^ Zpos p = 0 ->
   shr_r mrs = false /\ shr_s mrs = false).
Proof.
  intros Hm.
  pose (P := fun (j : Z) (a : shr_record) =>
    shr_m a = m / 2 ^ j /\
    (r = false -> s = false -> m mod 2 ^ j = 0 ->
     shr_r a = false /\ shr_s a = false)).
  assert (Hstep : forall j a, 0 <= j -> P j a -> P (j + 1) (shr_1 a)).
  { intros j a Hj [Hma Hex].
    assert (Hpos : 0 < 2 ^ j) by (apply Z.pow_pos_nonneg; lia).
    assert (Hma0 : 0 <= shr_m a) by (rewrite Hma; apply Z.div_pos; lia).
    destruct (shr_1_spec a Hma0) as (H1 & H2 & H3).
    split.
    - rewrite H1, Hma, Z.pow_add_r, Z.pow_1_r by lia.
      rewrite Z.div_div by lia. reflexivity.
    - intros Hr Hs Hmod.
      rewrite Z.pow_add_r, Z.pow_1_r in Hmod by lia.
      apply Z.mod_divide in Hmod; [|lia]. destruct Hmod as [c Hc].
      assert (Hmj : m mod 2 ^ j = 0).
      { apply Z.mod_divide; [lia|]. exists (c * 2). lia. }
      destruct (Hex Hr Hs Hmj) as [Hra Hsa].
      rewrite H2, H3, Hra, Hsa. split; [|reflexivity].
      rewrite Hma. replace m with ((c * 2) * 2 ^ j) by lia.
      rewrite Z.div_mul by lia. rewrite Z.mul_comm, Z.odd_mul. reflexivity. }
  assert (H0 : P 0 (Build_shr_record m r s)).
  { split; simpl.
    - rewrite Z.div_1_r. reflexivity.
    - auto. }
  pose proof (iter_pos_ind _ shr_1 P Hstep p 0 (Build_shr_record m r s)) as Hfin.
  simpl in Hfin. apply Hfin; [lia | exact H0].
Qed.

Lemma fexp_normal k : -1021 <= k -> fexp 53 1024 k = k - 53.
Proof. intros Hk. unfold fexp, emin. lia. Qed.

Lemma shr_record_of_loc_m m l : shr_m (shr_record_of_loc m l) = m.
Proof. destruct l as [|[]]; reflexivity. Qed.

Lemma shr_fexp_first mx ex lx :
  0 < mx -> -1021 <= Zdigits2 mx + ex ->
  let N := Z.max 0 (Zdigits2 mx - 53) in
  exists mrs,
    shr_fexp 53 1024 mx ex lx = (mrs, ex + N) /\
    shr_m mrs = mx / 2 ^ N /\
    (lx = loc_Exact -> mx mod 2 ^ N = 0 -> loc_of_shr_record mrs = loc_Exact).
Proof.
  intros Hmx Hk N. unfold shr_fexp. rewrite fexp_normal by assumption.
  replace (Zdigits2 mx + ex - 53 - ex) with (Zdigits2 mx - 53) by lia.
  subst N. destruct (Zdigits2 mx - 53) as [|p|p] eqn:Hn; simpl shr.
  - exists (shr_record_of_loc mx lx). rewrite Z.add_0_r.
    change (Z.max 0 0) with 0.
    rewrite shr_record_of_loc_m, Z.pow_0_r, Z.div_1_r.
    repeat split. intros -> _. reflexivity.
  - replace (Z.max 0 (Zpos p)) with (Zpos p) by lia.
    assert (Hrec : exists r s, shr_record_of_loc mx lx = Build_shr_record mx r s
                               /\ (lx = loc_Exact -> r = false /\ s = false)).
    { destruct lx as [|[]]; simpl; eexists; eexists; split; try reflexivity;
        intros; try discriminate; auto. }
    destruct Hrec as (r & s & Hrec & Hex). rewrite Hrec.
    destruct (shr_iter_spec mx r s p) as [Hm Hx]; [lia|].
    eexists. split; [reflexivity|]. split; [exact Hm|].
    intros Hl Hmod. destruct (Hex Hl) as [-> ->].
    destruct (Hx eq_refl eq_refl Hmod) as [Hr Hs].
    destruct (SpecFloat.iter_pos shr_1 p _) as [m' r' s']. simpl in Hr, Hs. subst.
    reflexivity.
  - replace (Z.max 0 (Zneg p)) with 0 by lia.
    exists (shr_record_of_loc mx lx). rewrite Z.add_0_r.
    rewrite shr_record_of_loc_m, Z.pow_0_r, Z.div_1_r.
    repeat split. intros -> _. reflexivity.
Qed.

Lemma shr_fexp_second m e :
  0 < m <= 2 ^ 53 -> -1021 <= Zdigits2 m + e ->
  exists m' e',
    shr_fexp 53 1024 m e loc_Exact = (Build_shr_record m' false false, e') /\
    0 < m' /\ e <= e' <= e + 1 /\ m' * 2 ^ (e' - e) = m /\
    Zdigits2 m' + e' = Zdigits2 m + e.
Proof.
  intros [Hm0 Hm] Hk. unfold shr_fexp. rewrite fexp_normal by assumption.
  replace (Zdigits2 m + e - 53 - e) with (Zdigits2 m - 53) by lia.
  destruct (Z.eq_dec m (2 ^ 53)) as [->|Hne].
  - exists (2 ^ 52), (e + 1). change (Zdigits2 (2 ^ 53) - 53) with 1.
    simpl shr. split; [reflexivity|].
    replace (e + 1 - e) with 1 by lia.
    change (Zdigits2 (2 ^ 52)) with 53. change (Zdigits2 (2 ^ 53)) with 54.
    repeat split; try lia; reflexivity.
  - assert (Hd : Zdigits2 m <= 53).
    { rewrite Zdigits2_log2 by lia.
      assert (Z.log2 m < 53) by (apply Z.log2_lt_pow2; lia). lia. }
    exists m, e.
    destruct (Zdigits2 m - 53) as [|p|p] eqn:Hn; try lia; simpl shr;
      (split; [reflexivity|]); rewrite Z.sub_diag, Z.pow_0_r; repeat split; lia.
Qed.

Lemma round_nearest_even_bounds m l :
  m <= round_nearest_even m l <= m + 1 /\
  (l = loc_Exact -> round_nearest_even m l = m).
Proof.
  unfold round_nearest_even. destruct l as [|[]]; try destruct (Z.even m);
    split; try lia; intros; try discriminate; reflexivity.
Qed.

(** Faithful rounding of [binary_round_aux] in the normal range. *)
Lemma bra_faithful sx mx ex lx :
  0 < mx -> -1020 <= ex -> Zdigits2 mx + ex <= 970 ->
  let N := Z.max 0 (Zdigits2 mx - 53) in
  exists m e,
    binary_round_aux 53 1024 sx mx ex lx = S754_finite sx m e /\
    ex + N <= e <= ex + N + 1 /\
    mx / 2 ^ N <= Zpos m * 2 ^ (e - (ex + N)) <= mx / 2 ^ N + 1 /\
    (lx = loc_Exact -> mx mod 2 ^ N = 0 ->
     Zpos m * 2 ^ (e - (ex + N)) = mx / 2 ^ N) /\
    Zdigits2 (Zpos m) + e <= Zdigits2 mx + ex + 1.
Proof.
  intros Hmx Hex Hk N.
  pose proof (Zdigits2_pos mx Hmx) as Hdpos.
  pose proof (Zdigits2_bounds mx Hmx) as Hdb.
  destruct (shr_fexp_first mx ex lx Hmx) as (mrs & H1 & Hm1 & Hx1); [lia|].
  fold N in H1, Hm1, Hx1.
  set (m1 := mx / 2 ^ N) in *.
  assert (HN : 0 <= N) by (subst N; lia).
  assert (HpN : 0 < 2 ^ N) by (apply Z.pow_pos_nonneg; lia).
  (* the truncated mantissa has at most 53 digits *)
  assert (Hm1b : 0 < m1 < 2 ^ 53 /\ Zdigits2 m1 + N = Zdigits2 mx).
  { subst m1 N. destruct (Z.max_spec 0 (Zdigits2 mx - 53)) as [[Hc ->]|[Hc ->]].
    - assert (2 ^ 53 * 2 ^ (Zdigits2 mx - 53) = 2 ^ Zdigits2 mx)
        by (rewrite <- Z.pow_add_r by lia; f_equal; lia).
      assert (2 ^ 52 * 2 ^ (Zdigits2 mx - 53) = 2 ^ (Zdigits2 mx - 1))
        by (rewrite <- Z.pow_add_r by lia; f_equal; lia).
      assert (Hp : 0 < 2 ^ (Zdigits2 mx - 53)) by (apply Z.pow_pos_nonneg; lia).
      assert (Hlo : 2 ^ 52 <= mx / 2 ^ (Zdigits2 mx - 53))
        by (apply Z.div_le_lower_bound; lia).
      assert (Hhi : mx / 2 ^ (Zdigits2 mx - 53) < 2 ^ 53)
        by (apply Z.div_lt_upper_bound; lia).
      split; [lia|].
      rewrite (Zdigits2_unique _ 53); [lia| |lia]. simpl (53 - 1). lia.
    - rewrite Z.pow_0_r, Z.div_1_r. split; [|lia]. split; [lia|].
      apply Z.lt_le_trans with (2 ^ Zdigits2 mx); [lia|].
      apply Z.pow_le_mono_r; lia. }
  destruct Hm1b as [Hm1b Hd1].
  pose proof (round_nearest_even_bounds (shr_m mrs) (loc_of_shr_record mrs)) as [Hr Hrx].
  set (m2 := round_nearest_even (shr_m mrs) (loc_of_shr_record mrs)) in *.
  rewrite Hm1 in Hr, Hrx.
  assert (Hd2 : Zdigits2 m1 <= Zdigits2 m2 <= Zdigits2 m1 + 1).
  { rewrite !Zdigits2_log2 by lia.
    assert (Z.log2 m1 <= Z.log2 m2) by (apply Z.log2_le_mono; lia).
    assert (Z.log2 m2 <= Z.log2 (m1 + 1)) by (apply Z.log2_le_mono; lia).
    assert (Z.log2 (m1 + 1) <= Z.log2 m1 + 1).
    { replace (m1 + 1) with (Z.succ m1) by lia.
      pose proof (Z.log2_succ_le m1). lia. }
    lia. }
  destruct (shr_fexp_second m2 (ex + N)) as (m' & e' & H2 & Hm' & He' & Hv & Hd');
    [lia|lia|].
  unfold binary_round_aux. rewrite H1. fold m2. rewrite H2. simpl shr_m.
  destruct m' as [|p|p]; try lia.
  assert (HNdef : N = Z.max 0 (Zdigits2 mx - 53)) by reflexivity.
  assert (He971 : (e' <=? 1024 - 53) = true) by (apply Z.leb_le; lia).
  rewrite He971.
  exists p, e'. split; [reflexivity|]. split; [lia|].
  rewrite Hv. split; [lia|]. split.
  - intros Hl Hmod. apply Hrx. apply Hx1; assumption.
  - lia.
Qed.

(** Integer part of the enclosure argument. *)
Lemma enclose_arith mx N i M2 a b (exact : Prop) :
  0 < mx -> 0 <= N <= i ->
  mx / 2 ^ N <= M2 <= mx / 2 ^ N + 1 ->
  (exact -> mx mod 2 ^ N = 0 -> M2 = mx / 2 ^ N) ->
  a * 2 ^ i <= mx -> mx <= b * 2 ^ i ->
  (~ exact -> mx + 1 <= b * 2 ^ i) ->
  (exact \/ ~ exact) ->
  a * 2 ^ (i - N) <= M2 <= b * 2 ^ (i - N).
Proof.
  intros Hmx HN HM Hex Ha Hb Hb' Hdec.
  assert (HpN : 0 < 2 ^ N) by (apply Z.pow_pos_nonneg; lia).
  assert (Hpj : 0 < 2 ^ (i - N)) by (apply Z.pow_pos_nonneg; lia).
  assert (Hpi : 2 ^ i = 2 ^ (i - N) * 2 ^ N)
    by (rewrite <- Z.pow_add_r by lia; f_equal; lia).
  rewrite Hpi in *.
  pose proof (Z.div_mod mx (2 ^ N) ltac:(lia)) as Hdm.
  pose proof (Z.mod_pos_bound mx (2 ^ N) HpN) as Hmb.
  set (m1 := mx / 2 ^ N) in *. set (rem := mx mod 2 ^ N) in *.
  set (P := 2 ^ N) in *. set (J := 2 ^ (i - N)) in *.
  split.
  - assert (a * J < m1 + 1) by nia. lia.
  - destruct (Z.eq_dec M2 m1) as [->|Hne].
    + nia.
    + assert (HM2 : M2 = m1 + 1) by lia.
      assert (m1 * P < b * J * P).
      { destruct Hdec as [He|He].
        - assert (rem <> 0) by (intros H0; apply Hne, Hex; assumption).
          nia.
        - specialize (Hb' He). nia. }
      assert (m1 < b * J) by nia. lia.
Qed.


Lemma pos_iter_xO m d : Zpos (Pos.iter xO m d) = Zpos m * 2 ^ Zpos d.
Proof.
  induction d as [|d IH] using Pos.peano_ind.
  - simpl. lia.
  - rewrite Pos.iter_succ, Pos2Z.inj_xO, IH, Pos2Z.inj_succ, Z.pow_succ_r by lia. lia.
Qed.

Lemma shl_align_spec mx ex ex' :
  snd (shl_align mx ex ex') = Z.min ex ex' /\
  Zpos (fst (shl_align mx ex ex')) = Zpos mx * 2 ^ (ex - Z.min ex ex').
Proof.
  unfold shl_align. destruct (ex' - ex) as [|d|d] eqn:Hd; cbn [fst snd].
  - replace (Z.min ex ex') with ex by lia. rewrite Z.sub_diag, Z.pow_0_r. lia.
  - replace (Z.min ex ex') with ex by lia. rewrite Z.sub_diag, Z.pow_0_r. lia.
  - replace (Z.min ex ex') with ex' by lia. split; [reflexivity|].
    rewrite pos_iter_xO. f_equal. f_equal. lia.
Qed.

Lemma Zdigits2_mul_pow2 m k :
  0 < m -> 0 <= k -> Zdigits2 (m * 2 ^ k) = Zdigits2 m + k.
Proof.
  intros Hm Hk.
  assert (0 < 2 ^ k) by (apply Z.pow_pos_nonneg; lia).
  rewrite !Zdigits2_log2 by nia. rewrite Z.log2_mul_pow2 by lia. lia.
Qed.

Lemma Zdigits2_le m K : 0 < m -> 0 <= K -> m < 2 ^ K -> Zdigits2 m <= K.
Proof.
  intros Hm HK Hlt. rewrite Zdigits2_log2 by lia.
  assert (Z.log2 m < K) by (apply Z.log2_lt_pow2; lia). lia.
Qed.

Lemma Zdigits2_mul m1 m2 :
  0 < m1 -> 0 < m2 -> Zdigits2 (m1 * m2) <= Zdigits2 m1 + Zdigits2 m2.
Proof.
  intros H1 H2.
  pose proof (Zdigits2_bounds m1 H1). pose proof (Zdigits2_bounds m2 H2).
  pose proof (Zdigits2_pos m1 H1). pose proof (Zdigits2_pos m2 H2).
  apply Zdigits2_le; [nia|lia|].
  rewrite Z.pow_add_r by lia. nia.
Qed.

Lemma new_location_exact n : new_location n 0 = loc_Exact.
Proof. unfold new_location. destruct (Z.even n); reflexivity. Qed.

(** The integer quotient computed by [SFdiv_core_binary] for [y < s]. *)
Lemma div_core_quotient y s :
  0 < y < s ->
  let d1 := Zdigits2 y in
  let d2 := Zdigits2 s in
  let sh := 53 + d2 - d1 in
  let q := y * 2 ^ sh / s in
  2 ^ 52 <= q < 2 ^ 54.
Proof.
  intros Hys d1 d2 sh q.
  pose proof (Zdigits2_bounds y ltac:(lia)) as Hy.
  pose proof (Zdigits2_bounds s ltac:(lia)) as Hs.
  pose proof (Zdigits2_pos y ltac:(lia)) as Hd1.
  pose proof (Zdigits2_pos s ltac:(lia)) as Hd2.
  fold d1 in Hy, Hd1. fold d2 in Hs, Hd2.
  assert (Hle : d1 <= d2).
  { destruct (Z.le_gt_cases d1 d2) as [|Hgt]; [assumption|].
    assert (2 ^ d2 <= 2 ^ (d1 - 1)) by (apply Z.pow_le_mono_r; lia). lia. }
  set (P := 2 ^ (d2 - 1)) in *.
  assert (HP : 0 < P) by (apply Z.pow_pos_nonneg; lia).
  assert (H2P : 2 ^ d2 = 2 * P).
  { subst P. rewrite <- Z.pow_succ_r by lia. f_equal. lia. }
  assert (Hlo : 2 ^ (d1 - 1) * 2 ^ sh = 2 ^ 53 * P).
  { subst P sh. rewrite <- !Z.pow_add_r by lia. f_equal. lia. }
  assert (Hhi : 2 ^ d1 * 2 ^ sh = 2 ^ 54 * P).
  { subst P sh. rewrite <- !Z.pow_add_r by lia. f_equal. lia. }
  assert (Hsh : 0 < 2 ^ sh) by (apply Z.pow_pos_nonneg; lia).
  pose proof (Z.div_mod (y * 2 ^ sh) s ltac:(lia)) as Hdm.
  pose proof (Z.mod_pos_bound (y * 2 ^ sh) s ltac:(lia)) as Hmb.
  fold q in Hdm. set (r := (y * 2 ^ sh) mod s) in *.
  set (m' := y * 2 ^ sh) in *.
  assert (Hm1 : 2 ^ 53 * P <= m') by (subst m'; nia).
  assert (Hm2 : m' < 2 ^ 54 * P) by (subst m'; nia).
  change (2 ^ 53) with 9007199254740992 in *.
  change (2 ^ 54) with 18014398509481984 in *.
  change (2 ^ 52) with 4503599627370496.
  split; nia.
Qed.

End Integers.

Section Reals.
Local Open Scope R_scope.

Lemma bpow_pos e : 0 < bpow e.
Proof. apply powerRZ_lt. lra. Qed.

Lemma bpow_add e1 e2 : bpow (e1 + e2) = bpow e1 * bpow e2.
Proof. apply powerRZ_add. lra. Qed.

Lemma bpow_0 : bpow 0 = 1.
Proof. reflexivity. Qed.

Lemma bpow_IZR e : (0 <= e)%Z -> bpow e = IZR (2 ^ e).
Proof.
  intros He. unfold bpow. rewrite <- (Z2Nat.id e He) at 1.
  rewrite <- pow_powerRZ. rewrite <- (Z2Nat.id e He) at 2.
  rewrite pow_IZR. reflexivity.
Qed.

Lemma bpow_opp_r e : bpow e * bpow (- e) = 1.
Proof. rewrite <- bpow_add, Z.add_opp_diag_r. reflexivity. Qed.



Lemma bra_enclose sx mx ex lx (x : R) (t : Z) :
  (0 < mx)%Z -> (-1020 <= ex)%Z -> (0 <= t)%Z -> (ex <= - t)%Z ->
  (Zdigits2 mx + ex <= 53 - t)%Z ->
  IZR mx * bpow ex <= x < (IZR mx + 1) * bpow ex ->
  (x = IZR mx * bpow ex -> lx = loc_Exact) ->
  exists m e,
    binary_round_aux 53 1024 sx mx ex lx = S754_finite sx m e /\
    (ex <= e <= Z.max ex (Zdigits2 mx + ex - 53) + 1)%Z /\
    (Zdigits2 (Zpos m) + e <= Zdigits2 mx + ex + 1)%Z /\
    forall a b : Z,
      IZR a <= x * bpow t <= IZR b ->
      IZR a <= IZR (Zpos m) * bpow e * bpow t <= IZR b.
Proof.
  intros Hmx Hex Ht Hext Hk Hx Hloc.
  destruct (bra_faithful sx mx ex lx Hmx Hex) as (m & e & Hr & He & HM & HMx & Hd); [lia|].
  set (N := Z.max 0 (Zdigits2 mx - 53)) in *.
  assert (HNdef : N = Z.max 0 (Zdigits2 mx - 53)) by reflexivity.
  exists m, e. split; [exact Hr|]. split; [lia|]. split; [lia|].
  intros a b [Ha Hb].
  set (i := (- t - ex)%Z).
  assert (Hi : (0 <= N <= i)%Z) by (subst i; lia).
  (* the scaled exact value *)
  set (y := x * bpow (- ex)).
  assert (Hy : IZR mx <= y < IZR mx + 1).
  { subst y. pose proof (bpow_pos (- ex)) as Hp.
    pose proof (bpow_opp_r ex) as Hq. destruct Hx as [Hx1 Hx2].
    split.
    - apply Rmult_le_compat_r with (r := bpow (- ex)) in Hx1; [|lra].
      rewrite Rmult_assoc, Hq in Hx1. lra.
    - apply Rmult_lt_compat_r with (r := bpow (- ex)) in Hx2; [|lra].
      rewrite Rmult_assoc, Hq in Hx2. lra. }
  assert (Hyt : x * bpow t * IZR (2 ^ i) = y).
  { subst y. rewrite <- bpow_IZR by lia. rewrite Rmult_assoc, <- bpow_add.
    f_equal. f_equal. subst i. lia. }
  assert (Hpi : 0 < IZR (2 ^ i)) by (rewrite <- bpow_IZR by lia; apply bpow_pos).
  assert (HA : (a * 2 ^ i <= mx)%Z).
  { apply Z.lt_succ_r. apply lt_IZR. unfold Z.succ.
    rewrite mult_IZR, plus_IZR.
    apply Rle_lt_trans with y; [|lra]. rewrite <- Hyt.
    apply Rmult_le_compat_r; lra. }
  assert (HBy : y <= IZR (b * 2 ^ i)).
  { rewrite mult_IZR, <- Hyt. apply Rmult_le_compat_r; lra. }
  assert (HB : (mx <= b * 2 ^ i)%Z) by (apply le_IZR; lra).
  assert (HB' : lx <> loc_Exact -> (mx + 1 <= b * 2 ^ i)%Z).
  { intros Hne.
    assert (Hyne : y <> IZR mx).
    { intros Heq. apply Hne, Hloc. subst y.
      apply (f_equal (fun z => z * bpow ex)) in Heq.
      rewrite Rmult_assoc, (Rmult_comm (bpow (- ex))), bpow_opp_r in Heq. lra. }
    assert (IZR mx < IZR (b * 2 ^ i)) by lra.
    apply lt_IZR in H. lia. }
  assert (Hdec : lx = loc_Exact \/ lx <> loc_Exact)
    by (destruct lx; [left; reflexivity | right; discriminate]).
  pose proof (enclose_arith mx N i (Zpos m * 2 ^ (e - (ex + N))) a b
                (lx = loc_Exact) Hmx Hi HM HMx HA HB HB' Hdec) as [HL HU].
  (* back to the reals *)
  assert (Hval : IZR (Zpos m) * bpow e * bpow t * IZR (2 ^ (i - N))
                 = IZR (Zpos m * 2 ^ (e - (ex + N)))).
  { rewrite mult_IZR, <- !bpow_IZR by lia.
    rewrite !Rmult_assoc. f_equal. rewrite <- !bpow_add.
    f_equal. subst i. lia. }
  assert (Hpj : 0 < IZR (2 ^ (i - N)))
    by (rewrite <- bpow_IZR by lia; apply bpow_pos).
  apply IZR_le in HL, HU. rewrite <- Hval in HL, HU.
  rewrite mult_IZR in HL, HU.
  split.
  - apply Rmult_le_reg_r with (IZR (2 ^ (i - N))); assumption.
  - apply Rmult_le_reg_r with (IZR (2 ^ (i - N))); assumption.
Qed.

Lemma binary_round_enclose sx mx ex :
  (-968 <= ex <= 0)%Z -> (Zdigits2 (Zpos mx) + ex <= 53)%Z ->
  exists m e,
    binary_round 53 1024 sx mx ex = S754_finite sx m e /\
    (ex - 52 <= e <= Zdigits2 (Zpos mx) + ex - 52)%Z /\
    (Zdigits2 (Zpos m) + e <= Zdigits2 (Zpos mx) + ex + 1)%Z /\
    forall a b : Z,
      IZR a <= IZR (Zpos mx) * bpow ex <= IZR b ->
      IZR a <= IZR (Zpos m) * bpow e <= IZR b.
Proof.
  intros Hex Hk. unfold binary_round.
  pose proof (Zdigits2_pos (Zpos mx) ltac:(lia)) as Hd. simpl Zdigits2 in Hd, Hk |- *.
  rewrite fexp_normal by lia.
  destruct (shl_align_spec mx ex (Zpos (digits2_pos mx) + ex - 53)) as [Hez Hmz].
  destruct (shl_align mx ex (Zpos (digits2_pos mx) + ex - 53)) as [mz ez].
  cbn [fst snd] in Hez, Hmz. set (d := Zpos (digits2_pos mx)) in *.
  assert (Hdz : Zdigits2 (Zpos mz) = (d + (ex - ez))%Z).
  { rewrite Hmz. rewrite Zdigits2_mul_pow2 by lia. subst ez. reflexivity. }
  assert (Hval : IZR (Zpos mz) * bpow ez = IZR (Zpos mx) * bpow ex).
  { rewrite Hmz, mult_IZR, <- bpow_IZR by lia. rewrite Rmult_assoc, <- bpow_add.
    f_equal. f_equal. lia. }
  destruct (bra_enclose sx (Zpos mz) ez loc_Exact (IZR (Zpos mx) * bpow ex) 0)
    as (m & e & Hr & He & Hdm & Henc); try lia.
  - pose proof (bpow_pos ez). lra.
  - reflexivity.
  - exists m, e. split; [exact Hr|].
    split; [simpl Zdigits2 in *; lia|]. split; [simpl Zdigits2 in *; lia|].
    intros a b Hab. specialize (Henc a b).
    rewrite bpow_0, !Rmult_1_r in Henc. auto.
Qed.

Lemma B2R_enclose_sign (s : bool) (v x : R) :
  0 <= x ->
  (forall a b : Z, IZR a <= x <= IZR b -> IZR a <= v <= IZR b) ->
  forall a b : Z,
    IZR a <= (if s then -1 else 1) * x <= IZR b ->
    IZR a <= (if s then -1 else 1) * v <= IZR b.
Proof.
  intros Hx Henc a b Hab. destruct s.
  - specialize (Henc (- b)%Z (- a)%Z). rewrite !opp_IZR in Henc. lra.
  - specialize (Henc a b). lra.
Qed.

Lemma mul_spec f1 f2 lo1 hi1 K1 lo2 hi2 K2 :
  FIN f1 lo1 hi1 K1 -> FIN f2 lo2 hi2 K2 ->
  (-1020 <= lo1 + lo2)%Z -> (hi1 + hi2 <= 0)%Z -> (K1 + K2 <= 53)%Z ->
  FIN (SFmul 53 1024 f1 f2) (lo1 + lo2)
      (Z.max (hi1 + hi2) (K1 + K2 - 53) + 1) (K1 + K2 + 1) /\
  forall a b : Z,
    IZR a <= B2R f1 * B2R f2 <= IZR b ->
    IZR a <= B2R (SFmul 53 1024 f1 f2) <= IZR b.
Proof.
  intros H1 H2 Hlo Hhi HK.
  destruct f1 as [s1|s1| |s1 m1 e1]; try contradiction;
    destruct f2 as [s2|s2| |s2 m2 e2]; try contradiction; simpl SFmul;
    try (split; [exact I | simpl B2R; intros a b; rewrite ?Rmult_0_l, ?Rmult_0_r; auto]).
  unfold FIN in H1, H2. destruct H1 as [He1 Hd1], H2 as [He2 Hd2].
  assert (Hdm : (Zdigits2 (Zpos (m1 * m2))
                 <= Zdigits2 (Zpos m1) + Zdigits2 (Zpos m2))%Z)
    by (rewrite Pos2Z.inj_mul; apply Zdigits2_mul; lia).
  destruct (bra_enclose (xorb s1 s2) (Zpos (m1 * m2)) (e1 + e2) loc_Exact
              (IZR (Zpos (m1 * m2)) * bpow (e1 + e2)) 0)
    as (m & e & Hr & He & Hd & Henc); try lia.
  - pose proof (bpow_pos (e1 + e2)). lra.
  - reflexivity.
  - rewrite Hr. split.
    + unfold FIN. lia.
    + simpl B2R.
      assert (Hx : (if s1 then -1 else 1) * (IZR (Zpos m1) * bpow e1) *
                   ((if s2 then -1 else 1) * (IZR (Zpos m2) * bpow e2))
                   = (if xorb s1 s2 then -1 else 1) *
                     (IZR (Zpos (m1 * m2)) * bpow (e1 + e2))).
      { rewrite Pos2Z.inj_mul, mult_IZR, bpow_add.
        destruct s1, s2; simpl; ring. }
      rewrite Hx. apply B2R_enclose_sign.
      * pose proof (bpow_pos (e1 + e2)).
        apply Rmult_le_pos; [apply IZR_le; lia | lra].
      * intros a b Hab. specialize (Henc a b).
        rewrite bpow_0, !Rmult_1_r in Henc. auto.
Qed.

Lemma FIN_finite f lo hi K : FIN f lo hi K -> finite_or_zero f.
Proof. destruct f; simpl; auto. Qed.

Lemma cond_Zopp_IZR s m :
  IZR (cond_Zopp s m) = (if s then -1 else 1) * IZR m.
Proof. destruct s; simpl; [rewrite opp_IZR|]; ring. Qed.

Lemma binary_normalize_enclose S ez :
  (-968 <= ez <= 0)%Z -> (Z.abs S < 2 ^ (53 - ez))%Z ->
  finite_or_zero (binary_normalize 53 1024 S ez false) /\
  forall a b : Z,
    IZR a <= IZR S * bpow ez <= IZR b ->
    IZR a <= B2R (binary_normalize 53 1024 S ez false) <= IZR b.
Proof.
  intros Hez HS.
  assert (Hrnd : forall sx p, (Zpos p < 2 ^ (53 - ez))%Z ->
    finite_or_zero (binary_round 53 1024 sx p ez) /\
    forall a b : Z,
      IZR a <= (if sx then -1 else 1) * (IZR (Zpos p) * bpow ez) <= IZR b ->
      IZR a <= B2R (binary_round 53 1024 sx p ez) <= IZR b).
  { intros sx p Hp.
    assert (Hd : (Zdigits2 (Zpos p) <= 53 - ez)%Z)
      by (apply Zdigits2_le; lia).
    destruct (binary_round_enclose sx p ez Hez) as (m & e & Hr & _ & _ & Henc);
      [lia|].
    rewrite Hr. split; [exact I|]. simpl B2R.
    apply B2R_enclose_sign; [|exact Henc].
    pose proof (bpow_pos ez). apply Rmult_le_pos; [apply IZR_le; lia | lra]. }
  destruct S as [|p|p]; simpl binary_normalize.
  - split; [exact I|]. simpl B2R. intros a b. rewrite Rmult_0_l. auto.
  - destruct (Hrnd false p) as [Hf Henc]; [lia|]. split; [exact Hf|].
    intros a b Hab. apply Henc. lra.
  - destruct (Hrnd true p) as [Hf Henc]; [lia|]. split; [exact Hf|].
    intros a b Hab. apply Henc.
    change (Zneg p) with (- Zpos p)%Z in Hab. rewrite opp_IZR in Hab. lra.
Qed.

Lemma add_spec f1 f2 lo1 hi1 K1 lo2 hi2 K2 :
  FIN f1 lo1 hi1 K1 -> FIN f2 lo2 hi2 K2 ->
  (-968 <= lo1)%Z -> (-968 <= lo2)%Z -> (hi1 <= 0)%Z -> (hi2 <= 0)%Z ->
  (K1 <= 52)%Z -> (K2 <= 52)%Z ->
  finite_or_zero (SFadd 53 1024 f1 f2) /\
  forall a b : Z,
    IZR a <= B2R f1 + B2R f2 <= IZR b ->
    IZR a <= B2R (SFadd 53 1024 f1 f2) <= IZR b.
Proof.
  intros H1 H2 Hlo1 Hlo2 Hhi1 Hhi2 HK1 HK2.
  destruct f1 as [s1|s1| |s1 m1 e1]; try contradiction;
    destruct f2 as [s2|s2| |s2 m2 e2]; try contradiction.
  - simpl SFadd. destruct s1, s2; (split; [exact I|]); simpl B2R;
      intros a b; rewrite Rplus_0_l; auto.
  - simpl SFadd. split; [exact I|]. simpl B2R. intros a b. rewrite Rplus_0_l. auto.
  - simpl SFadd. split; [exact I|]. simpl B2R. intros a b. rewrite Rplus_0_r. auto.
  - unfold FIN in H1, H2. destruct H1 as [He1 Hd1], H2 as [He2 Hd2].
    simpl SFadd. set (ez := Z.min e1 e2).
    destruct (shl_align_spec m1 e1 ez) as [_ Ha1].
    destruct (shl_align_spec m2 e2 ez) as [_ Ha2].
    replace (Z.min e1 ez) with ez in Ha1 by (subst ez; lia).
    replace (Z.min e2 ez) with ez in Ha2 by (subst ez; lia).
    rewrite Ha1, Ha2.
    set (S := (cond_Zopp s1 (Zpos m1 * 2 ^ (e1 - ez)) +
               cond_Zopp s2 (Zpos m2 * 2 ^ (e2 - ez)))%Z).
    assert (Hezdef : ez = Z.min e1 e2) by reflexivity.
    assert (Hb1 : (Zpos m1 * 2 ^ (e1 - ez) < 2 ^ (52 - ez))%Z).
    { pose proof (Zdigits2_bounds (Zpos m1) ltac:(lia)) as [_ Hm].
      pose proof (Zdigits2_pos (Zpos m1) ltac:(lia)).
      assert (0 < 2 ^ (e1 - ez))%Z by (apply Z.pow_pos_nonneg; lia).
      apply Z.lt_le_trans with (2 ^ Zdigits2 (Zpos m1) * 2 ^ (e1 - ez))%Z; [nia|].
      rewrite <- Z.pow_add_r by lia. apply Z.pow_le_mono_r; lia. }
    assert (Hb2 : (Zpos m2 * 2 ^ (e2 - ez) < 2 ^ (52 - ez))%Z).
    { pose proof (Zdigits2_bounds (Zpos m2) ltac:(lia)) as [_ Hm].
      pose proof (Zdigits2_pos (Zpos m2) ltac:(lia)).
      assert (0 < 2 ^ (e2 - ez))%Z by (apply Z.pow_pos_nonneg; lia).
      apply Z.lt_le_trans with (2 ^ Zdigits2 (Zpos m2) * 2 ^ (e2 - ez))%Z; [nia|].
      rewrite <- Z.pow_add_r by lia. apply Z.pow_le_mono_r; lia. }
    assert (HS : (Z.abs S < 2 ^ (53 - ez))%Z).
    { replace (53 - ez)%Z with (Z.succ (52 - ez)) by lia.
      rewrite Z.pow_succ_r by lia.
      assert (0 < Zpos m1 * 2 ^ (e1 - ez))%Z
        by (apply Z.mul_pos_pos; [lia | apply Z.pow_pos_nonneg; lia]).
      assert (0 < Zpos m2 * 2 ^ (e2 - ez))%Z
        by (apply Z.mul_pos_pos; [lia | apply Z.pow_pos_nonneg; lia]).
      subst S. revert Hb1 Hb2 H H0.
      generalize (Zpos m1 * 2 ^ (e1 - ez))%Z (Zpos m2 * 2 ^ (e2 - ez))%Z.
      intros x y. destruct s1, s2; unfold cond_Zopp; lia. }
    destruct (binary_normalize_enclose S ez) as [Hf Henc]; [lia|exact HS|].
    split; [exact Hf|]. intros a b Hab. apply Henc.
    assert (Hx : IZR S * bpow ez = B2R (S754_finite s1 m1 e1) + B2R (S754_finite s2 m2 e2)).
    { subst S. rewrite plus_IZR, !cond_Zopp_IZR, !mult_IZR.
      rewrite <- !bpow_IZR by lia. simpl B2R.
      replace (bpow e1) with (bpow (e1 - ez) * bpow ez)
        by (rewrite <- bpow_add; f_equal; lia).
      replace (bpow e2) with (bpow (e2 - ez) * bpow ez)
        by (rewrite <- bpow_add; f_equal; lia).
      ring. }
    rewrite Hx. exact Hab.
Qed.

Lemma to_int_bounds (s : bool) (m : positive) (e : Z) :
  let A := (if 0 <=? e then Zpos m * 2 ^ e else Zpos m / 2 ^ (- e))%Z in
  forall a b : Z,
    IZR a <= (if s then -1 else 1) * (IZR (Zpos m) * bpow e) <= IZR b ->
    (a <= (if s then - A else A) <= b)%Z.
Proof.
  intros A.
  assert (HA : IZR A <= IZR (Zpos m) * bpow e < IZR A + 1).
  { subst A. destruct (Z.leb_spec 0 e) as [He|He].
    - rewrite mult_IZR, <- bpow_IZR by lia. lra.
    - assert (Hp : (0 < 2 ^ (- e))%Z) by (apply Z.pow_pos_nonneg; lia).
      pose proof (Z.div_mod (Zpos m) (2 ^ (- e)) ltac:(lia)) as Hdm.
      pose proof (Z.mod_pos_bound (Zpos m) (2 ^ (- e)) Hp) as Hmb.
      set (q := (Zpos m / 2 ^ (- e))%Z) in *.
      set (r := (Zpos m mod 2 ^ (- e))%Z) in *.
      assert (Hbp : bpow e * IZR (2 ^ (- e)) = 1)
        by (rewrite <- bpow_IZR by lia; apply bpow_opp_r).
      assert (Hpr : 0 < IZR (2 ^ (- e))) by (apply IZR_lt; lia).
      assert (Hm : IZR (Zpos m) = IZR (2 ^ (- e)) * IZR q + IZR r)
        by (rewrite <- mult_IZR, <- plus_IZR; f_equal; exact Hdm).
      assert (Hr0 : 0 <= IZR r) by (apply IZR_le; lia).
      assert (Hr1 : IZR r < IZR (2 ^ (- e))) by (apply IZR_lt; lia).
      pose proof (bpow_pos e) as Hbe.
      rewrite Hm.
      replace ((IZR (2 ^ (- e)) * IZR q + IZR r) * bpow e)
        with (IZR q * (bpow e * IZR (2 ^ (- e))) + IZR r * bpow e) by ring.
      rewrite Hbp.
      assert (0 <= IZR r * bpow e) by (apply Rmult_le_pos; lra).
      assert (IZR r * bpow e < 1).
      { rewrite <- Hbp. rewrite (Rmult_comm (bpow e)).
        apply Rmult_lt_compat_r; lra. }
      lra. }
  assert (Hfl : forall a b : Z,
            IZR a <= IZR (Zpos m) * bpow e <= IZR b -> (a <= A <= b)%Z).
  { intros a b [Ha Hb]. split.
    - apply Z.lt_succ_r. apply lt_IZR. unfold Z.succ. rewrite plus_IZR. lra.
    - apply le_IZR. lra. }
  intros a b Hab.
  destruct s.
  - specialize (Hfl (- b)%Z (- a)%Z). rewrite !opp_IZR in Hfl.
    assert (- b <= A <= - a)%Z by (apply Hfl; lra). lia.
  - apply Hfl. lra.
Qed.


Lemma of_int_spec n B :
  (0 <= B <= 52)%Z -> (Z.abs n < 2 ^ B)%Z ->
  FIN (binary_normalize 53 1024 n 0 false) (-52) (B - 52) (B + 1) /\
  B2R (binary_normalize 53 1024 n 0 false) = IZR n.
Proof.
  intros HB Hn.
  assert (Hrnd : forall sx p, (Zpos p < 2 ^ B)%Z ->
    FIN (binary_round 53 1024 sx p 0) (-52) (B - 52) (B + 1) /\
    B2R (binary_round 53 1024 sx p 0) = (if sx then -1 else 1) * IZR (Zpos p)).
  { intros sx p Hp.
    assert (Hd : (Zdigits2 (Zpos p) <= B)%Z) by (apply Zdigits2_le; lia).
    destruct (binary_round_enclose sx p 0) as (m & e & Hr & He & Hdm & Henc);
      [lia|lia|].
    rewrite Hr. split; [unfold FIN; lia|]. simpl B2R.
    specialize (Henc (Zpos p) (Zpos p)). rewrite bpow_0, Rmult_1_r in Henc.
    assert (IZR (Zpos m) * bpow e = IZR (Zpos p)) by lra.
    rewrite H. reflexivity. }
  destruct n as [|p|p]; simpl binary_normalize.
  - split; [exact I | reflexivity].
  - destruct (Hrnd false p) as [Hf Hv]; [lia|]. split; [exact Hf|].
    rewrite Hv. ring.
  - destruct (Hrnd true p) as [Hf Hv]; [lia|]. split; [exact Hf|].
    rewrite Hv. change (Zneg p) with (- Zpos p)%Z. rewrite opp_IZR. ring.
Qed.

Lemma SFdiv_int_enclose (py ps : positive) :
  (Zpos py < Zpos ps)%Z -> (Zpos ps < 2 ^ 62)%Z ->
  exists m e,
    SFdiv 53 1024 (S754_finite false py 0) (S754_finite false ps 0)
    = S754_finite false m e /\
    (-115 <= e <= -51)%Z /\ (Zdigits2 (Zpos m) + e <= 2)%Z /\
    forall t a b,
      (0 <= t <= 52)%Z ->
      IZR a <= IZR (Zpos py) / IZR (Zpos ps) * bpow t <= IZR b ->
      IZR a <= IZR (Zpos m) * bpow e * bpow t <= IZR b.
Proof.
  intros Hys Hs62.
  set (y := Zpos py) in *. set (s := Zpos ps) in *.
  pose proof (Zdigits2_bounds y ltac:(lia)) as Hy.
  pose proof (Zdigits2_bounds s ltac:(lia)) as Hs.
  pose proof (Zdigits2_pos y ltac:(lia)) as Hd1.
  pose proof (Zdigits2_pos s ltac:(lia)) as Hd2.
  assert (Hd2le : (Zdigits2 s <= 62)%Z) by (apply Zdigits2_le; lia).
  pose proof (div_core_quotient y s ltac:(lia)) as Hq. cbv zeta in Hq.
  set (d1 := Zdigits2 y) in *. set (d2 := Zdigits2 s) in *.
  assert (Hle : (d1 <= d2)%Z).
  { destruct (Z.le_gt_cases d1 d2) as [|Hgt]; [assumption|].
    assert (2 ^ d2 <= 2 ^ (d1 - 1))%Z by (apply Z.pow_le_mono_r; lia). lia. }
  set (sh := (53 + d2 - d1)%Z) in *.
  set (e' := (- sh)%Z).
  set (q := (y * 2 ^ sh / s)%Z) in *.
  set (r := ((y * 2 ^ sh) mod s)%Z).
  assert (Hcore : SFdiv_core_binary 53 1024 y 0 s 0 = (q, e', new_location s r)).
  { unfold SFdiv_core_binary. fold d1 d2.
    replace (d1 + 0 - (d2 + 0))%Z with (d1 - d2)%Z by lia.
    rewrite fexp_normal by lia.
    replace (Z.min (d1 - d2 - 53) (0 - 0)) with e' by (subst e' sh; lia).
    replace (0 - 0 - e')%Z with sh by (subst e'; lia).
    destruct sh as [|p|p] eqn:Hsh; try lia.
    rewrite Z.shiftl_mul_pow2 by lia.
    unfold q, r, Z.div, Z.modulo.
    destruct (Z.div_eucl (y * 2 ^ Zpos p) s) as [q0 r0]. reflexivity. }
  unfold SFdiv. fold y s. rewrite Hcore. simpl xorb.
  pose proof (Z.div_mod (y * 2 ^ sh) s ltac:(lia)) as Hdm.
  pose proof (Z.mod_pos_bound (y * 2 ^ sh) s ltac:(lia)) as Hmb.
  fold q r in Hdm, Hmb.
  set (x := IZR y / IZR s).
  assert (Hsr : 0 < IZR s) by (apply IZR_lt; lia).
  assert (Hbe : bpow e' * IZR (2 ^ sh) = 1).
  { rewrite <- bpow_IZR by lia. subst e'. rewrite Rmult_comm. apply bpow_opp_r. }
  assert (Hpsh : 0 < IZR (2 ^ sh)).
  { apply IZR_lt. apply Z.pow_pos_nonneg; lia. }
  assert (Hx : x = (IZR q + IZR r / IZR s) * bpow e').
  { assert (Hyr : IZR y * IZR (2 ^ sh) = IZR s * IZR q + IZR r)
      by (rewrite <- !mult_IZR, <- plus_IZR; f_equal; exact Hdm).
    assert (Hb : bpow e' = / IZR (2 ^ sh)).
    { apply Rmult_eq_reg_r with (IZR (2 ^ sh)); [|lra].
      rewrite Hbe. field. lra. }
    subst x. rewrite Hb.
    apply Rmult_eq_reg_r with (IZR (2 ^ sh) * IZR s).
    2:{ apply Rmult_integral_contrapositive_currified; lra. }
    field_simplify; [|lra|lra]. lra. }
  assert (Hrs0 : 0 <= IZR r / IZR s).
  { apply Rmult_le_pos; [apply IZR_le; lia|].
    apply Rlt_le, Rinv_0_lt_compat; assumption. }
  assert (Hrs1 : IZR r / IZR s < 1).
  { apply Rmult_lt_reg_r with (IZR s); [assumption|].
    unfold Rdiv. rewrite Rmult_assoc, Rinv_l, Rmult_1_r, Rmult_1_l by lra.
    apply IZR_lt. lia. }
  pose proof (bpow_pos e') as Hbp.
  assert (Hbr : IZR q * bpow e' <= x < (IZR q + 1) * bpow e').
  { rewrite Hx. split.
    - apply Rmult_le_compat_r; lra.
    - apply Rmult_lt_compat_r; lra. }
  assert (Hloc : x = IZR q * bpow e' -> new_location s r = loc_Exact).
  { intros Heq. rewrite Hx in Heq.
    apply Rmult_eq_reg_r in Heq; [|lra].
    assert (Hr0 : IZR r / IZR s = 0) by lra.
    assert (IZR r = 0).
    { apply Rmult_eq_reg_r with (/ IZR s).
      - rewrite Rmult_0_l. exact Hr0.
      - apply Rinv_neq_0_compat. lra. }
    apply eq_IZR in H. rewrite H. apply new_location_exact. }
  assert (Hdq : (Zdigits2 q <= 54)%Z) by (apply Zdigits2_le; lia).
  assert (He' : (-115 <= e' <= -53)%Z) by (subst e' sh; lia).
  destruct (bra_enclose false q e' (new_location s r) x 0)
    as (m & e & Hr & He & Hdm' & _); try lia; try assumption.
  exists m, e. split; [exact Hr|]. split; [lia|]. split; [lia|].
  intros t a b Ht Hab.
  destruct (bra_enclose false q e' (new_location s r) x t)
    as (m2 & e2 & Hr2 & _ & _ & Henc); try lia; try assumption.
  rewrite Hr in Hr2. injection Hr2 as <- <-.
  apply Henc. exact Hab.
Qed.

End Reals.

End FloatFacts.

(** * The arithmetic of the script *)

Module Arith.
Import PyFloat FloatFacts Script.
Local Open Scope R_scope.

(** [y / size] inside the gradient loop. *)
Lemma ratio_spec (y s : Z) :
  (0 <= y < s)%Z -> (s < 2 ^ 62)%Z ->
  exists q,
    truediv y s = Ok q /\ FIN q (-115) (-51) 2 /\
    forall t a b,
      (0 <= t <= 52)%Z ->
      IZR a <= IZR y / IZR s * bpow t <= IZR b ->
      IZR a <= B2R q * bpow t <= IZR b.
Proof.
  intros Hy Hs.
  destruct s as [|ps|ps]; try lia. destruct y as [|py|py]; try lia.
  - exists (S754_zero false). split; [reflexivity|]. split; [exact I|].
    intros t a b _. simpl B2R. unfold Rdiv. rewrite !Rmult_0_l. auto.
  - destruct (SFdiv_int_enclose py ps) as (m & e & Hr & He & Hd & Henc); try lia.
    exists (S754_finite false m e). unfold truediv.
    change (Z.pos py <? 0)%Z with false. change (Z.pos ps <? 0)%Z with false.
    change (Z.to_pos (Z.abs (Z.pos py))) with py.
    change (Z.to_pos (Z.abs (Z.pos ps))) with ps.
    unfold prec, emax. rewrite Hr. split; [reflexivity|].
    split; [unfold FIN; lia|].
    intros t a b Ht Hab. simpl B2R. rewrite Rmult_1_l. apply Henc; assumption.
Qed.

Lemma of_int_ok (n B : Z) :
  (0 <= B <= 52)%Z -> (Z.abs n < 2 ^ B)%Z ->
  exists f, of_int n = Ok f /\ FIN f (-52) (B - 52) (B + 1) /\ B2R f = IZR n.
Proof.
  intros HB Hn. destruct (of_int_spec n B HB Hn) as [Hf Hv].
  exists (binary_normalize 53 1024 n 0 false). unfold of_int, prec, emax.
  split; [|split; assumption].
  destruct (binary_normalize 53 1024 n 0 false); try reflexivity; contradiction.
Qed.

Lemma to_int_ok (f : float) :
  finite_or_zero f ->
  exists z, to_int f = Ok z /\
            forall a b : Z, IZR a <= B2R f <= IZR b -> (a <= z <= b)%Z.
Proof.
  destruct f as [s|s| |s m e]; try contradiction; intros _.
  - exists 0%Z. split; [reflexivity|]. simpl B2R. intros a b [Ha Hb].
    apply le_IZR in Ha, Hb. lia.
  - eexists. split; [reflexivity|]. intros a b Hab.
    apply (to_int_bounds s m e a b Hab).
Qed.

(** One channel of a row: the result stays within the integer bounds of
    the exact product, shifted by the start colour. *)
Lemma channel_spec (c1 c2 : Z) (q : float) :
  (Z.abs c1 <= 255)%Z -> (Z.abs c2 <= 255)%Z -> FIN q (-115) (-51) 2 ->
  exists z,
    channel c1 c2 q = Ok z /\
    forall a b : Z,
      IZR a <= IZR (c2 - c1) * B2R q <= IZR b -> (c1 + a <= z <= c1 + b)%Z.
Proof.
  intros Hc1 Hc2 Hq.
  destruct (of_int_ok (c2 - c1) 10) as (fd & Hfd & HFd & Hvd); [lia|lia|].
  destruct (of_int_ok c1 9) as (f1 & Hf1 & HF1 & Hv1); [lia|lia|].
  destruct (mul_spec fd q (-52) (10 - 52) (10 + 1) (-115) (-51) 2 HFd Hq)
    as [HFp Hencp]; try lia.
  destruct (add_spec f1 (SFmul 53 1024 fd q) _ _ _ _ _ _ HF1 HFp)
    as [HFv Hencv]; try lia.
  destruct (to_int_ok _ HFv) as (z & Hz & Hencz).
  exists z. unfold channel, int_mul, int_add, rbind, mul, add, prec, emax.
  rewrite Hfd, Hf1. split; [exact Hz|].
  intros a b Hab. apply Hencz. apply Hencv.
  rewrite Hv1. rewrite <- Hvd in Hab. specialize (Hencp a b Hab).
  rewrite !plus_IZR. lra.
Qed.

Lemma ratio_unit (y s : Z) :
  (0 <= y < s)%Z -> (s < 2 ^ 62)%Z ->
  exists q,
    truediv y s = Ok q /\ FIN q (-115) (-51) 2 /\ 0 <= B2R q <= 1 /\
    (y = 0%Z -> B2R q = 0).
Proof.
  intros Hy Hs. destruct (ratio_spec y s Hy Hs) as (q & Hq & HF & Henc).
  exists q. split; [exact Hq|]. split; [exact HF|].
  assert (Hs0 : 0 < IZR s) by (apply IZR_lt; lia).
  assert (Hy0 : 0 <= IZR y) by (apply IZR_le; lia).
  assert (Hys : IZR y < IZR s) by (apply IZR_lt; lia).
  assert (Hx0 : 0 <= IZR y / IZR s).
  { apply Rmult_le_pos; [assumption|]. apply Rlt_le, Rinv_0_lt_compat. assumption. }
  assert (Hx1 : IZR y / IZR s <= 1).
  { apply Rmult_le_reg_r with (IZR s); [assumption|].
    unfold Rdiv. rewrite Rmult_assoc, Rinv_l, Rmult_1_r, Rmult_1_l by lra. lra. }
  split.
  - specialize (Henc 0%Z 0%Z 1%Z ltac:(lia)).
    change (bpow 0) with 1 in Henc. rewrite !Rmult_1_r in Henc. apply Henc. lra.
  - intros ->.
    specialize (Henc 0%Z 0%Z 0%Z ltac:(lia)).
    change (bpow 0) with 1 in Henc. rewrite !Rmult_1_r in Henc.
    unfold Rdiv in Henc. rewrite Rmult_0_l in Henc.
    assert (0 <= B2R q <= 0) by (apply Henc; lra). lra.
Qed.

(** A channel lies between the two colours it interpolates. *)
Lemma channel_between (c1 c2 : Z) (q : float) :
  (Z.abs c1 <= 255)%Z -> (Z.abs c2 <= 255)%Z -> FIN q (-115) (-51) 2 ->
  0 <= B2R q <= 1 ->
  exists z, channel c1 c2 q = Ok z /\ (Z.min c1 c2 <= z <= Z.max c1 c2)%Z.
Proof.
  intros Hc1 Hc2 HF Hq.
  destruct (channel_spec c1 c2 q Hc1 Hc2 HF) as (z & Hz & Henc).
  exists z. split; [exact Hz|].
  destruct (Z.le_gt_cases c1 c2) as [Hle|Hgt].
  - assert (Hd : 0 <= IZR (c2 - c1)) by (apply IZR_le; lia).
    specialize (Henc 0%Z (c2 - c1)%Z). 
    assert (c1 + 0 <= z <= c1 + (c2 - c1))%Z by (apply Henc; nra). lia.
  - assert (Hd : IZR (c2 - c1) <= 0) by (apply IZR_le; lia).
    specialize (Henc (c2 - c1)%Z 0%Z).
    assert (c1 + (c2 - c1) <= z <= c1 + 0)%Z by (apply Henc; nra). lia.
Qed.

(** At ratio 0 a channel is the start colour. *)
Lemma channel_first (c1 c2 : Z) (q : float) :
  (Z.abs c1 <= 255)%Z -> (Z.abs c2 <= 255)%Z -> FIN q (-115) (-51) 2 ->
  B2R q = 0 -> channel c1 c2 q = Ok c1.
Proof.
  intros Hc1 Hc2 HF Hq.
  destruct (channel_spec c1 c2 q Hc1 Hc2 HF) as (z & Hz & Henc).
  specialize (Henc 0%Z 0%Z). rewrite Hq, Rmult_0_r in Henc.
  assert (c1 + 0 <= z <= c1 + 0)%Z by (apply Henc; lra).
  rewrite Hz. f_equal. lia.
Qed.

(** The ratio of the last row, [(s - 1) / s], is close enough to 1 for
    every difference [d] below [s]. *)
Lemma ratio_last (s d : Z) :
  (1 <= d <= 1000)%Z -> (d < s < 2 ^ 62)%Z ->
  exists q,
    truediv (s - 1) s = Ok q /\ FIN q (-115) (-51) 2 /\
    IZR d - 1 <= IZR d * B2R q <= IZR d.
Proof.
  intros Hd Hs.
  destruct (ratio_spec (s - 1) s ltac:(lia) ltac:(lia)) as (q & Hq & HF & Henc).
  exists q. split; [exact Hq|]. split; [exact HF|].
  set (j := (2 ^ 20 * d / (d + 1))%Z).
  assert (Hj1 : (j * (d + 1) <= 2 ^ 20 * d)%Z).
  { subst j. rewrite Z.mul_comm. apply Z.mul_div_le. lia. }
  assert (Hj2 : (2 ^ 20 * d < (j + 1) * (d + 1))%Z).
  { subst j. pose proof (Z.mod_pos_bound (2 ^ 20 * d) (d + 1) ltac:(lia)).
    pose proof (Z.div_mod (2 ^ 20 * d) (d + 1) ltac:(lia)). nia. }
  change (2 ^ 20)%Z with 1048576%Z in *.
  assert (Hjs : (j * s <= 1048576 * (s - 1))%Z) by nia.
  assert (Hjd : (1048576 * (d - 1) <= d * j)%Z) by nia.
  assert (Hb20 : bpow 20 = 1048576).
  { rewrite bpow_IZR by lia. reflexivity. }
  assert (Hs0 : 0 < IZR s) by (apply IZR_lt; lia).
  assert (Hx : IZR j <= IZR (s - 1) / IZR s * bpow 20 <= IZR 1048576).
  { rewrite Hb20. split.
    - apply Rmult_le_reg_r with (IZR s); [assumption|].
      replace (IZR (s - 1) / IZR s * 1048576 * IZR s)
        with (1048576 * IZR (s - 1)) by (field; lra).
      rewrite <- !mult_IZR. apply IZR_le. exact Hjs.
    - apply Rmult_le_reg_r with (IZR s); [assumption|].
      replace (IZR (s - 1) / IZR s * 1048576 * IZR s)
        with (1048576 * IZR (s - 1)) by (field; lra).
      rewrite <- !mult_IZR. apply IZR_le. lia. }
  specialize (Henc 20%Z j 1048576%Z ltac:(lia) Hx). rewrite Hb20 in Henc.
  apply IZR_le in Hjd. rewrite !mult_IZR, minus_IZR in Hjd.
  assert (Hdr : 1 <= IZR d) by (apply IZR_le; lia).
  split; nra.
Qed.

(** [int(size * x)] for a literal [x] between 0 and 1. *)
Lemma scaled_spec (size : Z) (x : float) :
  (0 <= size < 2 ^ 31)%Z -> FIN x (-56) (-55) (-2) -> 0 <= B2R x <= 1 ->
  exists z, scaled size x = Ok z /\ (0 <= z <= size)%Z.
Proof.
  intros Hs HF Hx.
  destruct (of_int_ok size 31) as (f & Hf & HFf & Hv); [lia|lia|].
  destruct (mul_spec f x _ _ _ _ _ _ HFf HF) as [HFp Henc]; try lia.
  destruct (to_int_ok _ (FIN_finite _ _ _ _ HFp)) as (z & Hz & Hencz).
  exists z. unfold scaled, int_mul, rbind, mul, prec, emax. rewrite Hf.
  split; [exact Hz|]. apply Hencz. apply Henc. rewrite Hv.
  assert (0 <= IZR size) by (apply IZR_le; lia).
  change (IZR 0) with 0. nra.
Qed.

Lemma lit_0_12_spec : FIN lit_0_12 (-56) (-55) (-2) /\ 0 <= B2R lit_0_12 <= 1.
Proof.
  split; [unfold FIN, lit_0_12; simpl; lia|].
  unfold lit_0_12, B2R.
  assert (Hb : IZR (2 ^ 56) * bpow (-56) = 1)
    by (rewrite <- bpow_IZR by lia; rewrite <- bpow_add; reflexivity).
  change (2 ^ 56)%Z with 72057594037927936%Z in Hb.
  pose proof (bpow_pos (-56)). lra.
Qed.

Lemma lit_0_15_spec : FIN lit_0_15 (-56) (-55) (-2) /\ 0 <= B2R lit_0_15 <= 1.
Proof.
  split; [unfold FIN, lit_0_15; simpl; lia|].
  unfold lit_0_15, B2R.
  assert (Hb : IZR (2 ^ 55) * bpow (-55) = 1)
    by (rewrite <- bpow_IZR by lia; rewrite <- bpow_add; reflexivity).
  change (2 ^ 55)%Z with 36028797018963968%Z in Hb.
  pose proof (bpow_pos (-55)). lra.
Qed.

Lemma in_range (n x : Z) : In x (range n) <-> (0 <= x < n)%Z.
Proof.
  unfold range. rewrite in_map_iff. split.
  - intros (k & <- & Hk). apply in_seq in Hk. lia.
  - intros Hx. exists (Z.to_nat x). split; [lia|]. apply in_seq. lia.
Qed.

(** All 8-bit channel pairs whose distance is exactly the number of rows,
    by evaluation. *)
Lemma last_row_check_ok :
  forallb
    (fun d =>
       forallb (fun c => Checks.last_row_near d c (c + d)
                         && Checks.last_row_near d (c + d) c)
               (range (256 - d)))
    (map Z.succ (range 255)) = true.
Proof. vm_cast_no_check (eq_refl true). Qed.

Lemma last_row_exact (d c : Z) :
  (1 <= d <= 255)%Z -> (0 <= c <= 255 - d)%Z ->
  Checks.last_row_near d c (c + d) = true /\
  Checks.last_row_near d (c + d) c = true.
Proof.
  intros Hd Hc.
  assert (Hin : In d (map Z.succ (range 255))).
  { apply in_map_iff. exists (d - 1)%Z. split; [lia|]. apply in_range. lia. }
  pose proof (proj1 (forallb_forall _ _) last_row_check_ok d Hin) as H.
  assert (Hc' : In c (range (256 - d))) by (apply in_range; lia).
  pose proof (proj1 (forallb_forall _ _) H c Hc') as H'.
  apply andb_true_iff. exact H'.
Qed.

(** The last row is within 1 of the end colour as soon as there are at
    least as many rows as the two channels are apart. *)
Lemma channel_last (c1 c2 s : Z) :
  (0 <= c1 <= 255)%Z -> (0 <= c2 <= 255)%Z ->
  (Z.abs (c2 - c1) <= s)%Z -> (0 < s < 2 ^ 62)%Z ->
  exists q z,
    truediv (s - 1) s = Ok q /\ channel c1 c2 q = Ok z /\
    (c2 - 1 <= z <= c2 + 1)%Z.
Proof.
  intros Hc1 Hc2 Hd Hs.
  destruct (Z.eq_dec (Z.abs (c2 - c1)) s) as [Heq|Hne].
  - (* as many rows as the distance: by evaluation *)
    assert (Hnear : Checks.last_row_near s c1 c2 = true).
    { destruct (Z.le_gt_cases c1 c2).
      - replace c2 with (c1 + s)%Z by lia. apply last_row_exact; lia.
      - replace c1 with (c2 + s)%Z by lia. apply last_row_exact; lia. }
    unfold Checks.last_row_near in Hnear.
    destruct (truediv (s - 1) s) as [q|] eqn:Hq; [|discriminate].
    destruct (channel c1 c2 q) as [z|] eqn:Hz; [|discriminate].
    apply andb_true_iff in Hnear. destruct Hnear as [Hlo Hhi].
    apply Z.leb_le in Hlo, Hhi.
    exists q, z. repeat split; try assumption; try reflexivity; lia.
  - destruct (Z.eq_dec c1 c2) as [->|Hc].
    + destruct (ratio_unit (s - 1) s) as (q & Hq & HF & Hu & _); [lia|lia|].
      destruct (channel_between c2 c2 q) as (z & Hz & Hb); try lia; try assumption.
      exists q, z. repeat split; try assumption; lia.
    + destruct (ratio_last s (Z.abs (c2 - c1))) as (q & Hq & HF & Hb); [lia|lia|].
      destruct (channel_spec c1 c2 q) as (z & Hz & Henc); try lia; try assumption.
      exists q, z. split; [exact Hq|]. split; [exact Hz|].
      destruct (Z.le_gt_cases c1 c2).
      * rewrite Z.abs_eq in Hb by lia.
        specialize (Henc (c2 - c1 - 1)%Z (c2 - c1)%Z).
        rewrite minus_IZR in Henc at 1.
        assert (c1 + (c2 - c1 - 1) <= z <= c1 + (c2 - c1))%Z
          by (apply Henc; simpl; lra). lia.
      * rewrite Z.abs_neq in Hb by lia. rewrite opp_IZR in Hb.
        specialize (Henc (c2 - c1)%Z (c2 - c1 + 1)%Z).
        rewrite (plus_IZR (c2 - c1) 1) in Henc.
        assert (c1 + (c2 - c1) <= z <= c1 + (c2 - c1 + 1))%Z
          by (apply Henc; simpl; lra). lia.
Qed.

End Arith.

(** * Facts about the hexadecimal reader *)

Module StrFacts.
Import PyStr.

Lemma digit_value_nonneg (c : ascii) (d : Z) : digit_value c = Some d -> 0 <= d.
Proof.
  unfold digit_value. intros H.
  repeat match type of H with
         | (if ?b then _ else _) = _ => destruct b eqn:?
         end; inversion H; subst; clear H;
    repeat match goal with
           | H : (_ && _)%bool = true |- _ => apply andb_true_iff in H; destruct H
           | H : (_ <=? _) = true |- _ => apply Z.leb_le in H
           end; lia.
Qed.

Lemma scan_digits_bound (s : string) :
  forall prev_us seen acc v rest,
    scan_digits 16 prev_us seen acc s = Some (v, rest) -> 0 <= acc ->
    acc <= v < (acc + 1) * 16 ^ Z.of_nat (String.length s).
Proof.
  induction s as [|c s IH]; intros pu seen acc v rest H Hacc.
  - simpl in H. destruct (pu || negb seen)%bool; inversion H; subst. simpl. lia.
  - assert (Hp : 0 < 16 ^ Z.of_nat (String.length s)) by (apply Z.pow_pos_nonneg; lia).
    assert (Hlen : 16 ^ Z.of_nat (String.length (String c s))
                   = 16 * 16 ^ Z.of_nat (String.length s)).
    { simpl String.length. rewrite Nat2Z.inj_succ, Z.pow_succ_r by lia. reflexivity. }
    rewrite Hlen.
    assert (Hfin : (if (pu || negb seen)%bool then None else Some (acc, String c s))
                   = Some (v, rest) -> acc <= v < (acc + 1) * (16 * 16 ^ Z.of_nat (String.length s))).
    { destruct (pu || negb seen)%bool; intros E; inversion E; subst. nia. }
    simpl in H. destruct (is_underscore c).
    + destruct (pu || negb seen)%bool; [discriminate|].
      apply IH in H; [|assumption]. nia.
    + destruct (digit_value c) as [d|] eqn:Hd; [|apply Hfin; exact H].
      destruct (d <? 16) eqn:Hlt; [|apply Hfin; exact H].
      apply Z.ltb_lt in Hlt. apply digit_value_nonneg in Hd.
      apply IH in H; [|lia]. nia.
Qed.

Lemma skip_spaces_length (s : string) :
  (String.length (skip_spaces s) <= String.length s)%nat.
Proof.
  induction s as [|c s IH]; simpl; [lia|].
  destruct (is_space c); simpl; lia.
Qed.

Lemma strip_sign_length (s : string) :
  (String.length (snd (strip_sign s)) <= String.length s)%nat.
Proof.
  destruct s as [|c r]; simpl; [lia|].
  destruct c as [[] [] [] [] [] [] [] []]; simpl; lia.
Qed.

Lemma strip_prefix16_length (s : string) :
  (String.length (strip_prefix16 s) <= String.length s)%nat.
Proof.
  destruct s as [|c r]; simpl; [lia|].
  destruct c as [[] [] [] [] [] [] [] []]; simpl; try lia;
    destruct r as [|c' r']; simpl; try lia;
    destruct c' as [[] [] [] [] [] [] [] []]; simpl; try lia;
    destruct r' as [|c'' r'']; simpl; try lia;
    destruct c'' as [[] [] [] [] [] [] [] []]; simpl; lia.
Qed.

Lemma int16_bound (s : string) (z : Z) :
  int16 s = Ok z -> Z.abs z < 16 ^ Z.of_nat (String.length s).
Proof.
  unfold int16. intros H.
  pose proof (skip_spaces_length s) as H1.
  pose proof (strip_sign_length (skip_spaces s)) as H2.
  destruct (strip_sign (skip_spaces s)) as [neg s2]. simpl snd in H2.
  pose proof (strip_prefix16_length s2) as H3.
  destruct (scan_digits 16 false false 0 (strip_prefix16 s2)) as [[v rest]|] eqn:Hs;
    [|discriminate].
  apply scan_digits_bound in Hs; [|lia].
  destruct (skip_spaces rest); [|discriminate]. inversion H; subst; clear H.
  assert (16 ^ Z.of_nat (String.length (strip_prefix16 s2))
          <= 16 ^ Z.of_nat (String.length s)) by (apply Z.pow_le_mono_r; lia).
  destruct neg; lia.
Qed.

Lemma substring_length (n m : nat) (s : string) :
  (String.length (substring n m s) <= m)%nat.
Proof.
  revert n m. induction s as [|c s IH]; intros n m.
  - destruct n, m; simpl; lia.
  - destruct n.
    + destruct m; simpl; [lia|]. specialize (IH 0%nat m). lia.
    + simpl. apply IH.
Qed.

Lemma int16_slice (n : nat) (s : string) (z : Z) :
  int16 (substring n 2 s) = Ok z -> Z.abs z <= 255.
Proof.
  intros H. apply int16_bound in H.
  pose proof (substring_length n 2 s) as Hl.
  assert (16 ^ Z.of_nat (String.length (substring n 2 s)) <= 16 ^ 2)
    by (apply Z.pow_le_mono_r; lia).
  change (16 ^ 2) with 256 in *. lia.
Qed.

(** Every channel [hex_to_rgb] returns is at most 255 in absolute value. *)
Lemma hex_to_rgb_range (h : Script.ColorStr) (r g b : Z) :
  Script.hex_to_rgb h = Ok (r, g, b) ->
  Z.abs r <= 255 /\ Z.abs g <= 255 /\ Z.abs b <= 255.
Proof.
  unfold Script.hex_to_rgb. destruct h as [h|]; [|discriminate].
  unfold rbind.
  destruct (int16 (substring 0 2 (lstrip "#" h))) as [r'|] eqn:Hr; [|discriminate].
  destruct (int16 (substring 2 2 (lstrip "#" h))) as [g'|] eqn:Hg; [|discriminate].
  destruct (int16 (substring 4 2 (lstrip "#" h))) as [b'|] eqn:Hb; [|discriminate].
  intros H. inversion H; subst.
  apply int16_slice in Hr, Hg, Hb. auto.
Qed.

End StrFacts.

(** * Facts about drawing *)

Module PillowFacts.
Import Pillow.

Lemma clip8_id (v : Z) : 0 <= v <= 255 -> clip8 v = v.
Proof.
  intros Hv. unfold clip8.
  destruct (Z.leb_spec v 0); [lia|]. destruct (Z.ltb_spec v 256); lia.
Qed.

Lemma getink_id (r g b a : Z) :
  0 <= r <= 255 -> 0 <= g <= 255 -> 0 <= b <= 255 -> 0 <= a <= 255 ->
  getink (r, g, b, a) = (r, g, b, a).
Proof.
  intros Hr Hg Hb Ha. unfold getink. rewrite !clip8_id by assumption. reflexivity.
Qed.

Lemma paint_row_length cover ink x row :
  List.length (paint_row cover ink x row) = List.length row.
Proof.
  revert x. induction row as [|p row IH]; intros x; simpl; [reflexivity|].
  rewrite IH. reflexivity.
Qed.

Lemma paint_from_length cover ink y img :
  List.length (paint_from cover ink y img) = List.length img.
Proof.
  revert y. induction img as [|row img IH]; intros y; simpl; [reflexivity|].
  rewrite IH. reflexivity.
Qed.

Lemma paint_from_rows cover ink y img (w : Z) :
  Forall (fun row => Z.of_nat (List.length row) = w) img ->
  Forall (fun row => Z.of_nat (List.length row) = w) (paint_from cover ink y img).
Proof.
  revert y. induction img as [|row img IH]; intros y Hw; simpl; [constructor|].
  inversion Hw as [|? ? Hrow Hrest]; subst.
  constructor; [|apply IH; exact Hrest]. rewrite paint_row_length. reflexivity.
Qed.

Lemma paint_from_has_size cover ink y img w h :
  has_size img w h -> has_size (paint_from cover ink y img) w h.
Proof.
  unfold has_size. intros [Hh Hw]. split.
  - rewrite paint_from_length. exact Hh.
  - apply paint_from_rows. exact Hw.
Qed.

Lemma MAX_WIDTH_eq : MAX_WIDTH = 536870910.
Proof. reflexivity. Qed.

(** Bounds on a size, with the constants of the library written out. *)
Ltac size_lia := rewrite ?MAX_WIDTH_eq in *; unfold INT_MAX in *; lia.

(** What a successful [Image.new] says of its arguments and its result. *)
Lemma new_inv w h color img :
  new w h color = Ok img ->
  0 <= w <= MAX_WIDTH /\ 0 <= h <= INT_MAX /\
  img = repeat (repeat color (Z.to_nat w)) (Z.to_nat h).
Proof.
  unfold new. destruct ((w <? 0) || (h <? 0))%bool eqn:Hneg; [discriminate|].
  destruct ((INT_MAX <? w) || (INT_MAX <? h))%bool eqn:Hbig; [discriminate|].
  destruct (MAX_WIDTH <? w) eqn:Hwide; [discriminate|].
  intros H. inversion H; subst.
  apply orb_false_iff in Hneg. destruct Hneg as [Hw Hh].
  apply orb_false_iff in Hbig. destruct Hbig as [Hw' Hh'].
  apply Z.ltb_ge in Hw, Hh, Hw', Hh', Hwide. repeat split; lia.
Qed.

Lemma new_has_size w h color img :
  new w h color = Ok img -> has_size img w h.
Proof.
  intros H. destruct (new_inv w h color img H) as (Hw & Hh & ->). split.
  - rewrite repeat_length. lia.
  - apply Forall_forall. intros row Hin. apply repeat_spec in Hin. subst.
    rewrite repeat_length. lia.
Qed.

Lemma new_ok size color :
  0 <= size <= MAX_WIDTH ->
  new size size color = Ok (repeat (repeat color (Z.to_nat size)) (Z.to_nat size)).
Proof.
  intros Hs. unfold new.
  rewrite (proj2 (Z.ltb_ge size 0)) by lia.
  rewrite (proj2 (Z.ltb_ge INT_MAX size)) by size_lia.
  rewrite (proj2 (Z.ltb_ge MAX_WIDTH size)) by lia. reflexivity.
Qed.

(** An image of positive width and height has pixels. *)
Lemma has_size_not_empty img w h :
  0 < w -> 0 < h -> has_size img w h -> empty img = false.
Proof.
  intros Hw Hh [Hlen Hrows]. destruct img as [|row img]; [simpl in Hlen; lia|].
  inversion Hrows as [|? ? Hrow _]; subst.
  destruct row; [simpl in Hw; lia | reflexivity].
Qed.

Section WithRasterizer.
Context {R : Rasterizer}.

Lemma draw_has_size img op w h : has_size img w h -> has_size (draw img op) w h.
Proof.
  intros Hs. destruct op as [p0 p1 fill width|p0 p1 fill]; simpl.
  - unfold line. destruct (width <=? 1); apply paint_from_has_size; exact Hs.
  - apply paint_from_has_size; exact Hs.
Qed.

Lemma draw_all_has_size ops img w h :
  has_size img w h -> has_size (draw_all ops img) w h.
Proof.
  unfold draw_all. revert img.
  induction ops as [|op ops IH]; intros img Hs; simpl; [exact Hs|].
  apply IH. apply draw_has_size. exact Hs.
Qed.
End WithRasterizer.

Lemma nth_error_paint_row cover ink x0 row n :
  nth_error (paint_row cover ink x0 row) n
  = option_map (fun p => if cover (x0 + Z.of_nat n) then ink else p)
               (nth_error row n).
Proof.
  revert x0 n. induction row as [|p row IH]; intros x0 n.
  - destruct n; reflexivity.
  - destruct n as [|n]; simpl.
    + rewrite Z.add_0_r. reflexivity.
    + rewrite IH. replace (x0 + 1 + Z.of_nat n) with (x0 + Z.pos (Pos.of_succ_nat n)) by lia.
      reflexivity.
Qed.

Lemma nth_error_paint_from cover ink y0 img n :
  nth_error (paint_from cover ink y0 img) n
  = option_map (paint_row (fun x => cover x (y0 + Z.of_nat n)) ink 0)
               (nth_error img n).
Proof.
  revert y0 n. induction img as [|row img IH]; intros y0 n.
  - destruct n; reflexivity.
  - destruct n as [|n]; simpl.
    + rewrite Z.add_0_r. reflexivity.
    + rewrite IH. replace (y0 + 1 + Z.of_nat n) with (y0 + Z.pos (Pos.of_succ_nat n)) by lia.
      reflexivity.
Qed.

(** Painting changes exactly the covered pixels of the canvas. *)
Lemma getpixel_paint cover ink img x y :
  getpixel (paint cover ink img) x y
  = option_map (fun p => if cover x y then ink else p) (getpixel img x y).
Proof.
  unfold getpixel, paint.
  destruct ((x <? 0) || (y <? 0))%bool eqn:Hneg; [reflexivity|].
  apply orb_false_iff in Hneg. destruct Hneg as [Hx Hy].
  apply Z.ltb_ge in Hx, Hy.
  rewrite nth_error_paint_from. rewrite Z.add_0_l, Z2Nat.id by lia.
  destruct (nth_error img (Z.to_nat y)) as [row|]; simpl; [|reflexivity].
  rewrite nth_error_paint_row. rewrite Z.add_0_l, Z2Nat.id by lia. reflexivity.
Qed.

Lemma getpixel_blank size color x y :
  0 <= x < size -> 0 <= y < size ->
  getpixel (repeat (repeat color (Z.to_nat size)) (Z.to_nat size)) x y = Some color.
Proof.
  intros Hx Hy. unfold getpixel.
  rewrite (proj2 (Z.ltb_ge x 0)), (proj2 (Z.ltb_ge y 0)) by lia. simpl.
  rewrite nth_error_repeat by lia. rewrite nth_error_repeat by lia. reflexivity.
Qed.

End PillowFacts.

(** * Facts about the script *)

Module ScriptFacts.
Import Pillow PillowFacts Script Checks.

Lemma mapM_map {A B : Type} (f : A -> result B) (g : A -> B) (xs : list A) :
  (forall x, In x xs -> f x = Ok (g x)) -> mapM f xs = Ok (map g xs).
Proof.
  induction xs as [|x xs IH]; intros Hf; simpl; [reflexivity|].
  rewrite (Hf x) by (left; reflexivity).
  rewrite IH by (intros y Hy; apply Hf; right; exact Hy). reflexivity.
Qed.

(** Every row of the gradient has a colour, each channel of which lies
    between the channels of the two ends. *)
Lemma row_fill_ok (size : Z) (color1 color2 : Color) (y : Z) :
  0 <= y < size -> size < 2 ^ 62 ->
  in_channel_range color1 -> in_channel_range color2 ->
  exists t r g b,
    PyFloat.truediv y size = Ok t /\
    channel (fst (fst color1)) (fst (fst color2)) t = Ok r /\
    channel (snd (fst color1)) (snd (fst color2)) t = Ok g /\
    channel (snd color1) (snd color2) t = Ok b /\
    row_fill size color1 color2 y = Ok (r, g, b, 255) /\
    between (fst (fst color1)) (fst (fst color2)) r /\
    between (snd (fst color1)) (snd (fst color2)) g /\
    between (snd color1) (snd color2) b.
Proof.
  intros Hy Hs H1 H2.
  destruct color1 as [[r1 g1] b1], color2 as [[r2 g2] b2].
  simpl in H1, H2. destruct H1 as (Hr1 & Hg1 & Hb1), H2 as (Hr2 & Hg2 & Hb2).
  destruct (Arith.ratio_unit y size Hy Hs) as (t & Ht & HF & Hu & _).
  destruct (Arith.channel_between r1 r2 t Hr1 Hr2 HF Hu) as (r & Hr & Hrb).
  destruct (Arith.channel_between g1 g2 t Hg1 Hg2 HF Hu) as (g & Hg & Hgb).
  destruct (Arith.channel_between b1 b2 t Hb1 Hb2 HF Hu) as (b & Hb & Hbb).
  exists t, r, g, b. simpl fst; simpl snd.
  unfold row_fill, rbind. rewrite Ht, Hr, Hg, Hb.
  unfold between. repeat split; try assumption; lia.
Qed.

Lemma gradient_ops_ok (size : Z) (color1 color2 : Color) :
  size < 2 ^ 62 -> in_channel_range color1 -> in_channel_range color2 ->
  gradient_ops size color1 color2
  = Ok (map (fun y => Line (0, y) (size, y) (fill_or_blank size color1 color2 y) 0)
            (range size)).
Proof.
  intros Hs H1 H2. unfold gradient_ops. apply mapM_map.
  intros y Hy. apply Arith.in_range in Hy.
  destruct (row_fill_ok size color1 color2 y Hy Hs H1 H2)
    as (t & r & g & b & _ & _ & _ & _ & Hfill & _).
  unfold row_line, fill_or_blank, rbind. rewrite Hfill. reflexivity.
Qed.

Section WithRasterizer.
Context {R : Rasterizer}.

Lemma getpixel_draw_all_cons op ops img x y :
  getpixel (draw_all (op :: ops) img) x y = getpixel (draw_all ops (draw img op)) x y.
Proof. reflexivity. Qed.

(** A one-pixel line along row [k] fills that row of the canvas. *)
Lemma getpixel_row_line size k fill img x y :
  0 <= x < size ->
  getpixel (draw img (Line (0, k) (size, k) fill 0)) x y
  = option_map (fun p => if y =? k then getink fill else p) (getpixel img x y).
Proof.
  intros Hx. unfold draw, line. change (0 <=? 1) with true. cbv iota.
  rewrite getpixel_paint. rewrite thin_line_horizontal by lia.
  rewrite (proj2 (Z.leb_le 0 x)), (proj2 (Z.leb_le x size)) by lia.
  rewrite !andb_true_r. reflexivity.
Qed.

(** After the lines of rows [a .. a + n - 1], these rows have their
    colours and the others are as before. *)
Lemma getpixel_rows size (fill : Z -> Pixel) n : forall a img x y,
  0 <= x < size ->
  getpixel
    (draw_all (map (fun k => Line (0, k) (size, k) (fill k) 0)
                   (map Z.of_nat (seq a n))) img) x y
  = option_map
      (fun p => if (Z.of_nat a <=? y) && (y <? Z.of_nat (a + n))
                then getink (fill y) else p)
      (getpixel img x y).
Proof.
  induction n as [|n IH]; intros a img x y Hx.
  - cbn [seq map]. change (draw_all [] img) with img.
    destruct (getpixel img x y) as [p|]; unfold option_map; [|reflexivity].
    replace (Z.of_nat (a + 0)) with (Z.of_nat a) by lia.
    destruct (Z.leb_spec (Z.of_nat a) y), (Z.ltb_spec y (Z.of_nat a));
      cbn [andb]; try reflexivity; lia.
  - cbn [seq map]. rewrite getpixel_draw_all_cons.
    rewrite IH by assumption. rewrite getpixel_row_line by assumption.
    destruct (getpixel img x y) as [p|]; unfold option_map; [|reflexivity].
    f_equal.
    replace (Z.of_nat (S a)) with (Z.of_nat a + 1) by lia.
    replace (Z.of_nat (S a + n)) with (Z.of_nat a + 1 + Z.of_nat n) by lia.
    replace (Z.of_nat (a + S n)) with (Z.of_nat a + 1 + Z.of_nat n) by lia.
    generalize (Z.of_nat a) (Z.of_nat n) (Nat2Z.is_nonneg n). intros A N HN.
    destruct (Z.eqb_spec y A) as [->|Hne].
    + destruct (Z.leb_spec (A + 1) A), (Z.leb_spec A A), (Z.ltb_spec A (A + 1 + N));
        cbn [andb]; try reflexivity; lia.
    + destruct (Z.leb_spec (A + 1) y), (Z.leb_spec A y), (Z.ltb_spec y (A + 1 + N));
        cbn [andb]; try reflexivity; lia.
Qed.

(** The canvas after the gradient loop. *)
Lemma getpixel_background size (fill : Z -> Pixel) x y :
  0 <= x < size -> 0 <= y < size ->
  getpixel
    (draw_all (map (fun k => Line (0, k) (size, k) (fill k) 0) (range size))
              (repeat (repeat (0, 0, 0, 0) (Z.to_nat size)) (Z.to_nat size))) x y
  = Some (getink (fill y)).
Proof.
  intros Hx Hy. unfold range. rewrite getpixel_rows by assumption.
  rewrite getpixel_blank by assumption. unfold option_map.
  rewrite (proj2 (Z.leb_le (Z.of_nat 0) y)) by lia.
  rewrite (proj2 (Z.ltb_lt y (Z.of_nat (0 + Z.to_nat size)))) by lia.
  reflexivity.
Qed.

(** A drawing call leaves a pixel as it is or sets it to its ink. *)
Lemma getpixel_draw img op x y p :
  getpixel img x y = Some p ->
  getpixel (draw img op) x y = Some p \/
  getpixel (draw img op) x y = Some (getink (ink op)).
Proof.
  intros Hp. destruct op as [p0 p1 fill width|p0 p1 fill]; unfold draw.
  - unfold line. destruct (width <=? 1); rewrite getpixel_paint, Hp;
      unfold option_map;
      match goal with |- context [if ?c then _ else _] => destruct c end; auto.
  - unfold ellipse. rewrite getpixel_paint, Hp. unfold option_map.
    match goal with |- context [if ?c then _ else _] => destruct c end; auto.
Qed.

(** After a sequence of drawing calls a pixel is as before or has the
    ink of one of them. *)
Lemma getpixel_draw_all ops : forall img x y p,
  getpixel img x y = Some p ->
  exists q, getpixel (draw_all ops img) x y = Some q /\
            (q = p \/ In q (map (fun op => getink (ink op)) ops)).
Proof.
  induction ops as [|op ops IH]; intros img x y p Hp.
  - exists p. split; [exact Hp | left; reflexivity].
  - rewrite getpixel_draw_all_cons.
    destruct (getpixel_draw img op x y p Hp) as [Hk|Hi].
    + destruct (IH _ x y p Hk) as (q & Hq & [->|Hin]).
      * exists p. split; [exact Hq | left; reflexivity].
      * exists q. split; [exact Hq | right; right; exact Hin].
    + destruct (IH _ x y (getink (ink op)) Hi) as (q & Hq & [->|Hin]).
      * exists (getink (ink op)). split; [exact Hq | right; left; reflexivity].
      * exists q. split; [exact Hq | right; right; exact Hin].
Qed.
End WithRasterizer.

Lemma nodes_ok (size : Z) :
  0 <= size < 2 ^ 31 ->
  exists dx dy,
    scaled size PyFloat.lit_0_12 = Ok dx /\ scaled size PyFloat.lit_0_15 = Ok dy /\
    0 <= dx <= size /\ 0 <= dy <= size /\
    nodes size = Ok [ (size / 2 - dx, size / 2);
                      (size / 2, size / 2 - dy);
                      (size / 2 + dx, size / 2) ].
Proof.
  intros Hs.
  destruct Arith.lit_0_12_spec as [HF12 Hv12].
  destruct Arith.lit_0_15_spec as [HF15 Hv15].
  destruct (Arith.scaled_spec size _ Hs HF12 Hv12) as (dx & Hdx & Hbx).
  destruct (Arith.scaled_spec size _ Hs HF15 Hv15) as (dy & Hdy & Hby).
  exists dx, dy. unfold nodes, rbind. rewrite Hdx, Hdy. auto.
Qed.

Section Rendering.
Context {R : Rasterizer}.

(** [render] succeeds on every size the library accepts and every pair
    of colours [hex_to_rgb] accepts; the image is the gradient with the
    overlay drawn on it. *)
Lemma render_ok size h1 h2 rest color1 color2 :
  0 <= size <= MAX_WIDTH ->
  hex_to_rgb h1 = Ok color1 -> hex_to_rgb h2 = Ok color2 ->
  exists dx dy,
    scaled size PyFloat.lit_0_12 = Ok dx /\ scaled size PyFloat.lit_0_15 = Ok dy /\
    0 <= dx <= size /\ 0 <= dy <= size /\
    render size (h1 :: h2 :: rest)
    = Ok (draw_all (overlay_ops size dx dy) (background size color1 color2)).
Proof.
  intros Hs H1 H2.
  assert (Hs31 : 0 <= size <= 2147483647) by size_lia.
  assert (Hr1 : in_channel_range color1).
  { destruct color1 as [[r g] b]. apply (StrFacts.hex_to_rgb_range h1). exact H1. }
  assert (Hr2 : in_channel_range color2).
  { destruct color2 as [[r g] b]. apply (StrFacts.hex_to_rgb_range h2). exact H2. }
  destruct (nodes_ok size) as (dx & dy & Hdx & Hdy & Hbx & Hby & Hn); [lia|].
  exists dx, dy. repeat (split; [assumption|]).
  unfold render. rewrite new_ok by exact Hs.
  cbn [rbind getitem nth_error]. rewrite H1, H2. cbn [rbind].
  rewrite gradient_ops_ok by (try assumption; lia). cbn [rbind].
  rewrite Hn. cbn [rbind]. reflexivity.
Qed.

Lemma render_has_size size h1 h2 rest color1 color2 :
  0 <= size <= MAX_WIDTH ->
  hex_to_rgb h1 = Ok color1 -> hex_to_rgb h2 = Ok color2 ->
  exists img, render size (h1 :: h2 :: rest) = Ok img /\ has_size img size size.
Proof.
  intros Hs H1 H2.
  destruct (render_ok size h1 h2 rest color1 color2 Hs H1 H2)
    as (dx & dy & _ & _ & _ & _ & Hr).
  eexists. split; [exact Hr|].
  apply draw_all_has_size. unfold background. apply draw_all_has_size.
  apply (new_has_size size size (0, 0, 0, 0)). apply new_ok. exact Hs.
Qed.

Lemma rendered_has_size size h1 h2 rest color1 color2 :
  0 <= size <= MAX_WIDTH ->
  hex_to_rgb h1 = Ok color1 -> hex_to_rgb h2 = Ok color2 ->
  render size (h1 :: h2 :: rest) = Ok (rendered size (h1 :: h2 :: rest)) /\
  has_size (rendered size (h1 :: h2 :: rest)) size size.
Proof.
  intros Hs H1 H2.
  destruct (render_has_size size h1 h2 rest color1 color2 Hs H1 H2) as (img & Hr & Hsz).
  unfold rendered. rewrite Hr. split; [reflexivity | exact Hsz].
Qed.

Context {H : Host}.

Lemma create_icon_ok size colors output_path img w :
  render size colors = Ok img -> empty img = false ->
  create_icon size colors output_path w
  = (Ok tt, {| files := files w ++ [(output_path, img)];
               stdout := stdout w ++ [Created output_path size] |}).
Proof.
  intros Hr He. unfold create_icon, bind, lift, save, print. rewrite Hr, He.
  reflexivity.
Qed.

(** An image that has no pixels is built, and refused when it is saved. *)
Lemma create_icon_empty size colors output_path img w :
  render size colors = Ok img -> empty img = true ->
  create_icon size colors output_path w = (Raise ValueError, w).
Proof.
  intros Hr He. unfold create_icon, bind, lift, save. rewrite Hr, He. reflexivity.
Qed.

Lemma create_icon_raises size colors output_path e w :
  render size colors = Raise e ->
  create_icon size colors output_path w = (Raise e, w).
Proof.
  intros Hr. unfold create_icon, bind, lift. rewrite Hr. reflexivity.
Qed.

(** The loop of [main] over a table whose sizes all render. *)
Lemma for_each_create_icon colors (table : list (Z * string)) : forall w,
  (forall size filename, In (size, filename) table ->
     render size colors = Ok (rendered size colors) /\
     empty (rendered size colors) = false) ->
  for_each table
    (fun '(size, filename) => create_icon size colors (icon_path filename)) w
  = (Ok tt,
     {| files := files w ++
                 map (fun '(size, filename) =>
                        (icon_path filename, rendered size colors)) table;
        stdout := stdout w ++
                  map (fun '(size, filename) =>
                         Created (icon_path filename) size) table |}).
Proof.
  induction table as [|[size filename] table IH]; intros w Hok.
  - simpl. rewrite !app_nil_r. destruct w; reflexivity.
  - cbn [for_each]. unfold bind at 1.
    rewrite (create_icon_ok size colors (icon_path filename) (rendered size colors))
      by (apply (Hok size filename); left; reflexivity).
    rewrite IH by (intros s f Hin; apply (Hok s f); right; exact Hin).
    cbn [files stdout map]. rewrite <- !app_assoc. reflexivity.
Qed.

Lemma parse_svg_colors_spec svg_path w :
  parse_svg_colors svg_path w
  = (Ok (colors_at svg_path),
     {| files := files w; stdout := stdout w ++ warning_at svg_path |}).
Proof.
  unfold parse_svg_colors, try_except, bind, lift, ret, print, colors_at, warning_at.
  destruct (ET_parse svg_path) as [root|e].
  - rewrite app_nil_r. destruct w; reflexivity.
  - reflexivity.
Qed.
End Rendering.

Lemma sizes_eq :
  sizes = [ (72, "icon-72x72.png"); (96, "icon-96x96.png");
            (128, "icon-128x128.png"); (144, "icon-144x144.png");
            (152, "apple-touch-icon-152.png"); (192, "icon-192x192.png");
            (384, "icon-384x384.png"); (512, "icon-512x512.png");
            (76, "apple-touch-icon-76.png"); (120, "apple-touch-icon-120.png");
            (167, "apple-touch-icon-167.png"); (180, "apple-touch-icon.png");
            (640, "splash-screen.png") ].
Proof. reflexivity. Qed.

Lemma sizes_in_range size filename :
  In (size, filename) sizes -> 0 < size <= MAX_WIDTH.
Proof.
  rewrite sizes_eq, MAX_WIDTH_eq. simpl.
  intros Hin. repeat (destruct Hin as [Hin|Hin]; [inversion Hin; subst; lia|]).
  contradiction.
Qed.

Section Running.
Context {R : Rasterizer} {H : Host}.

(** A run of [main] on an existing SVG file whose first two colours are
    hexadecimal: every entry of the table is rendered and saved. *)
Lemma main_run w h1 h2 rest color1 color2 :
  path_exists "public/images/favicon.svg" = true ->
  makedirs "public/icons" = Ok tt ->
  colors_at "public/images/favicon.svg" = h1 :: h2 :: rest ->
  hex_to_rgb h1 = Ok color1 -> hex_to_rgb h2 = Ok color2 ->
  main w
  = (Ok tt,
     {| files := files w ++
                 map (fun '(size, filename) =>
                        (icon_path filename, rendered size (h1 :: h2 :: rest)))
                     sizes;
        stdout := stdout w ++ warning_at "public/images/favicon.svg"
                  ++ [UsingColors h1 h2; Generating]
                  ++ map (fun '(size, filename) =>
                            Created (icon_path filename) size) sizes
                  ++ [Generated 13; TestHint] |}).
Proof.
  intros Hex Hmk Hcol H1 H2. unfold main. rewrite Hex. cbn [negb].
  unfold bind at 1. rewrite parse_svg_colors_spec, Hcol.
  unfold bind at 1. cbn [lift getitem nth_error].
  unfold bind at 1. cbn [lift getitem nth_error].
  unfold bind at 1. cbn [print files stdout].
  unfold bind at 1. rewrite Hmk. cbn [lift].
  unfold bind at 1. cbn [print files stdout].
  unfold bind at 1. unfold PyDict.items.
  change (fun '(size, filename) =>
            create_icon size (h1 :: h2 :: rest) ("public/icons/" ++ filename))
    with (fun '(size, filename) =>
            create_icon size (h1 :: h2 :: rest) (icon_path filename)).
  rewrite for_each_create_icon.
  2:{ intros size filename Hin. apply sizes_in_range in Hin.
      destruct (rendered_has_size size h1 h2 rest color1 color2) as [Hr Hsz];
        [lia|assumption..|].
      split; [exact Hr|]. apply (has_size_not_empty _ size size); [lia|lia|exact Hsz]. }
  unfold bind at 1. cbn [print files stdout].
  change (PyDict.len sizes) with 13. unfold print. cbn [files stdout].
  rewrite <- !app_assoc. reflexivity.
Qed.
End Running.

End ScriptFacts.

Module Grid.
Import PyFloat FloatFacts Script.
Local Open Scope R_scope.

(** A value enclosed on the grid of step [2 ^ (- t)] is within one step
    of the exact one. *)
Lemma grid_error (x v : R) (t : Z) :
  (forall a b : Z, IZR a <= x * bpow t <= IZR b -> IZR a <= v * bpow t <= IZR b) ->
  x - bpow (- t) <= v <= x + bpow (- t).
Proof.
  intros Henc.
  destruct (archimed (x * bpow t)) as [Hup1 Hup2].
  specialize (Henc (up (x * bpow t) - 1)%Z (up (x * bpow t))).
  rewrite minus_IZR in Henc.
  assert (Hv : IZR (up (x * bpow t)) - 1 <= v * bpow t <= IZR (up (x * bpow t)))
    by (apply Henc; lra).
  pose proof (bpow_pos t) as Hp. pose proof (bpow_pos (- t)) as Hq.
  pose proof (bpow_opp_r t) as Hpq.
  assert (Hx : x = x * bpow t * bpow (- t)) by (rewrite Rmult_assoc, Hpq; ring).
  assert (Hv' : v = v * bpow t * bpow (- t)) by (rewrite Rmult_assoc, Hpq; ring).
  rewrite Hx at 1 2. rewrite Hv' at 1 2.
  split.
  - replace (x * bpow t * bpow (- t) - bpow (- t))
      with ((x * bpow t - 1) * bpow (- t)) by ring.
    apply Rmult_le_compat_r; lra.
  - replace (x * bpow t * bpow (- t) + bpow (- t))
      with ((x * bpow t + 1) * bpow (- t)) by ring.
    apply Rmult_le_compat_r; lra.
Qed.

Lemma enclose_sign_grid (s : bool) (v x g : R) :
  0 <= x -> 0 < g ->
  (forall a b : Z, IZR a <= x * g <= IZR b -> IZR a <= v * g <= IZR b) ->
  forall a b : Z,
    IZR a <= (if s then -1 else 1) * x * g <= IZR b ->
    IZR a <= (if s then -1 else 1) * v * g <= IZR b.
Proof.
  intros Hx Hg Henc a b Hab. destruct s.
  - specialize (Henc (- b)%Z (- a)%Z). rewrite !opp_IZR in Henc. lra.
  - specialize (Henc a b). lra.
Qed.

(** The product of two floats, on a grid. *)
Lemma mul_grid f1 f2 lo1 hi1 K1 lo2 hi2 K2 t :
  FIN f1 lo1 hi1 K1 -> FIN f2 lo2 hi2 K2 ->
  (-1020 <= lo1 + lo2)%Z -> (0 <= t)%Z -> (hi1 + hi2 <= - t)%Z ->
  (K1 + K2 <= 53 - t)%Z ->
  forall a b : Z,
    IZR a <= B2R f1 * B2R f2 * bpow t <= IZR b ->
    IZR a <= B2R (SFmul 53 1024 f1 f2) * bpow t <= IZR b.
Proof.
  intros H1 H2 Hlo Ht Hhi HK.
  destruct f1 as [s1|s1| |s1 m1 e1]; try contradiction;
    destruct f2 as [s2|s2| |s2 m2 e2]; try contradiction; simpl SFmul;
    try solve [simpl B2R; intros a b; rewrite ?Rmult_0_l, ?Rmult_0_r, ?Rmult_0_l; auto].
  unfold FIN in H1, H2. destruct H1 as [He1 Hd1], H2 as [He2 Hd2].
  assert (Hdm : (Zdigits2 (Zpos (m1 * m2))
                 <= Zdigits2 (Zpos m1) + Zdigits2 (Zpos m2))%Z)
    by (rewrite Pos2Z.inj_mul; apply Zdigits2_mul; lia).
  destruct (bra_enclose (xorb s1 s2) (Zpos (m1 * m2)) (e1 + e2) loc_Exact
              (IZR (Zpos (m1 * m2)) * bpow (e1 + e2)) t)
    as (m & e & Hr & He & Hd & Henc); try lia.
  - pose proof (bpow_pos (e1 + e2)). lra.
  - reflexivity.
  - rewrite Hr. simpl B2R.
    assert (Hx : (if s1 then -1 else 1) * (IZR (Zpos m1) * bpow e1) *
                 ((if s2 then -1 else 1) * (IZR (Zpos m2) * bpow e2))
                 = (if xorb s1 s2 then -1 else 1) *
                   (IZR (Zpos (m1 * m2)) * bpow (e1 + e2))).
    { rewrite Pos2Z.inj_mul, mult_IZR, bpow_add.
      destruct s1, s2; simpl; ring. }
    rewrite Hx. intros a b Hab.
    apply (enclose_sign_grid (xorb s1 s2) _ (IZR (Zpos (m1 * m2)) * bpow (e1 + e2))).
    + pose proof (bpow_pos (e1 + e2)).
      apply Rmult_le_pos; [apply IZR_le; lia | lra].
    + apply bpow_pos.
    + exact Henc.
    + exact Hab.
Qed.

Lemma binary_round_grid sx mx ex t :
  (-968 <= ex)%Z -> (0 <= t)%Z -> (ex <= - t)%Z ->
  (Zdigits2 (Zpos mx) + ex <= 53 - t)%Z ->
  exists m e,
    binary_round 53 1024 sx mx ex = S754_finite sx m e /\
    forall a b : Z,
      IZR a <= IZR (Zpos mx) * bpow ex * bpow t <= IZR b ->
      IZR a <= IZR (Zpos m) * bpow e * bpow t <= IZR b.
Proof.
  intros Hex Ht Hext Hk. unfold binary_round.
  pose proof (Zdigits2_pos (Zpos mx) ltac:(lia)) as Hd. simpl Zdigits2 in Hd, Hk |- *.
  rewrite fexp_normal by lia.
  destruct (shl_align_spec mx ex (Zpos (digits2_pos mx) + ex - 53)) as [Hez Hmz].
  destruct (shl_align mx ex (Zpos (digits2_pos mx) + ex - 53)) as [mz ez].
  cbn [fst snd] in Hez, Hmz. set (d := Zpos (digits2_pos mx)) in *.
  assert (Hdz : Zdigits2 (Zpos mz) = (d + (ex - ez))%Z).
  { rewrite Hmz. rewrite Zdigits2_mul_pow2 by lia. subst ez. reflexivity. }
  assert (Hval : IZR (Zpos mz) * bpow ez = IZR (Zpos mx) * bpow ex).
  { rewrite Hmz, mult_IZR, <- bpow_IZR by lia. rewrite Rmult_assoc, <- bpow_add.
    f_equal. f_equal. lia. }
  destruct (bra_enclose sx (Zpos mz) ez loc_Exact (IZR (Zpos mx) * bpow ex) t)
    as (m & e & Hr & He & Hdm & Henc); try lia.
  - pose proof (bpow_pos ez). lra.
  - reflexivity.
  - exists m, e. split; [exact Hr|]. exact Henc.
Qed.

Lemma binary_normalize_grid S ez t :
  (-968 <= ez)%Z -> (0 <= t)%Z -> (ez <= - t)%Z ->
  (Z.abs S < 2 ^ (53 - t - ez))%Z ->
  forall a b : Z,
    IZR a <= IZR S * bpow ez * bpow t <= IZR b ->
    IZR a <= B2R (binary_normalize 53 1024 S ez false) * bpow t <= IZR b.
Proof.
  intros Hez Ht Hezt HS.
  assert (Hrnd : forall (sx : bool) (p : positive), (Zpos p < 2 ^ (53 - t - ez))%Z ->
    forall a b : Z,
      IZR a <= (if sx then -1 else 1) * (IZR (Zpos p) * bpow ez) * bpow t <= IZR b ->
      IZR a <= B2R (binary_round 53 1024 sx p ez) * bpow t <= IZR b).
  { intros sx p Hp.
    assert (Hd : (Zdigits2 (Zpos p) <= 53 - t - ez)%Z)
      by (apply Zdigits2_le; lia).
    destruct (binary_round_grid sx p ez t Hez Ht Hezt) as (m & e & Hr & Henc);
      [lia|].
    rewrite Hr. simpl B2R.
    apply enclose_sign_grid; [| apply bpow_pos | exact Henc].
    pose proof (bpow_pos ez). apply Rmult_le_pos; [apply IZR_le; lia | lra]. }
  destruct S as [|p|p]; simpl binary_normalize.
  - simpl B2R. intros a b. rewrite !Rmult_0_l. auto.
  - intros a b Hab. apply (Hrnd false p); [lia|]. lra.
  - intros a b Hab. apply (Hrnd true p); [lia|].
    change (Zneg p) with (- Zpos p)%Z in Hab. rewrite opp_IZR in Hab. lra.
Qed.

(** The sum of two floats, on a grid. *)
Lemma add_grid f1 f2 lo1 hi1 K1 lo2 hi2 K2 t :
  FIN f1 lo1 hi1 K1 -> FIN f2 lo2 hi2 K2 ->
  (-968 <= lo1)%Z -> (-968 <= lo2)%Z -> (0 <= t)%Z ->
  (hi1 <= - t)%Z -> (hi2 <= - t)%Z ->
  (K1 <= 52 - t)%Z -> (K2 <= 52 - t)%Z ->
  forall a b : Z,
    IZR a <= (B2R f1 + B2R f2) * bpow t <= IZR b ->
    IZR a <= B2R (SFadd 53 1024 f1 f2) * bpow t <= IZR b.
Proof.
  intros H1 H2 Hlo1 Hlo2 Ht Hhi1 Hhi2 HK1 HK2.
  destruct f1 as [s1|s1| |s1 m1 e1]; try contradiction;
    destruct f2 as [s2|s2| |s2 m2 e2]; try contradiction.
  - simpl SFadd. destruct s1, s2; simpl B2R;
      intros a b; rewrite Rplus_0_l; auto.
  - simpl SFadd. simpl B2R. intros a b. rewrite Rplus_0_l. auto.
  - simpl SFadd. simpl B2R. intros a b. rewrite Rplus_0_r. auto.
  - unfold FIN in H1, H2. destruct H1 as [He1 Hd1], H2 as [He2 Hd2].
    simpl SFadd. set (ez := Z.min e1 e2).
    destruct (shl_align_spec m1 e1 ez) as [_ Ha1].
    destruct (shl_align_spec m2 e2 ez) as [_ Ha2].
    replace (Z.min e1 ez) with ez in Ha1 by (subst ez; lia).
    replace (Z.min e2 ez) with ez in Ha2 by (subst ez; lia).
    rewrite Ha1, Ha2.
    set (S := (cond_Zopp s1 (Zpos m1 * 2 ^ (e1 - ez)) +
               cond_Zopp s2 (Zpos m2 * 2 ^ (e2 - ez)))%Z).
    assert (Hezdef : ez = Z.min e1 e2) by reflexivity.
    assert (Hb1 : (Zpos m1 * 2 ^ (e1 - ez) < 2 ^ (52 - t - ez))%Z).
    { pose proof (Zdigits2_bounds (Zpos m1) ltac:(lia)) as [_ Hm].
      pose proof (Zdigits2_pos (Zpos m1) ltac:(lia)).
      assert (0 < 2 ^ (e1 - ez))%Z by (apply Z.pow_pos_nonneg; lia).
      apply Z.lt_le_trans with (2 ^ Zdigits2 (Zpos m1) * 2 ^ (e1 - ez))%Z; [nia|].
      rewrite <- Z.pow_add_r by lia. apply Z.pow_le_mono_r; lia. }
    assert (Hb2 : (Zpos m2 * 2 ^ (e2 - ez) < 2 ^ (52 - t - ez))%Z).
    { pose proof (Zdigits2_bounds (Zpos m2) ltac:(lia)) as [_ Hm].
      pose proof (Zdigits2_pos (Zpos m2) ltac:(lia)).
      assert (0 < 2 ^ (e2 - ez))%Z by (apply Z.pow_pos_nonneg; lia).
      apply Z.lt_le_trans with (2 ^ Zdigits2 (Zpos m2) * 2 ^ (e2 - ez))%Z; [nia|].
      rewrite <- Z.pow_add_r by lia. apply Z.pow_le_mono_r; lia. }
    assert (HS : (Z.abs S < 2 ^ (53 - t - ez))%Z).
    { replace (53 - t - ez)%Z with (Z.succ (52 - t - ez)) by lia.
      rewrite Z.pow_succ_r by lia.
      assert (0 < Zpos m1 * 2 ^ (e1 - ez))%Z
        by (apply Z.mul_pos_pos; [lia | apply Z.pow_pos_nonneg; lia]).
      assert (0 < Zpos m2 * 2 ^ (e2 - ez))%Z
        by (apply Z.mul_pos_pos; [lia | apply Z.pow_pos_nonneg; lia]).
      subst S. revert Hb1 Hb2 H H0.
      generalize (Zpos m1 * 2 ^ (e1 - ez))%Z (Zpos m2 * 2 ^ (e2 - ez))%Z.
      intros x y. destruct s1, s2; unfold cond_Zopp; lia. }
    intros a b Hab.
    apply (binary_normalize_grid S ez t); [lia|lia|lia|exact HS|].
    assert (Hx : IZR S * bpow ez = B2R (S754_finite s1 m1 e1) + B2R (S754_finite s2 m2 e2)).
    { subst S. rewrite plus_IZR, !cond_Zopp_IZR, !mult_IZR.
      rewrite <- !bpow_IZR by lia. simpl B2R.
      replace (bpow e1) with (bpow (e1 - ez) * bpow ez)
        by (rewrite <- bpow_add; f_equal; lia).
      replace (bpow e2) with (bpow (e2 - ez) * bpow ez)
        by (rewrite <- bpow_add; f_equal; lia).
      ring. }
    rewrite Hx. exact Hab.
Qed.

(** [int(x)] of a non-negative float is its integer part. *)
Lemma to_int_floor (f : float) :
  finite_or_zero f -> 0 <= B2R f ->
  exists z, to_int f = Ok z /\ IZR z <= B2R f < IZR z + 1.
Proof.
  destruct f as [s|s| |s m e]; try contradiction; intros _ Hpos.
  - exists 0%Z. split; [reflexivity|]. simpl B2R. lra.
  - assert (Hs : s = false).
    { destruct s; [|reflexivity]. simpl B2R in Hpos.
      pose proof (bpow_pos e).
      assert (0 < IZR (Zpos m)) by (apply IZR_lt; lia).
      assert (0 < IZR (Zpos m) * bpow e) by (apply Rmult_lt_0_compat; assumption).
      lra. }
    subst s. eexists. split; [reflexivity|]. simpl B2R. rewrite Rmult_1_l.
    destruct (Z.leb_spec 0 e) as [He|He].
    + rewrite mult_IZR, <- bpow_IZR by lia. lra.
    + assert (Hp : (0 < 2 ^ (- e))%Z) by (apply Z.pow_pos_nonneg; lia).
      pose proof (Z.div_mod (Zpos m) (2 ^ (- e)) ltac:(lia)) as Hdm.
      pose proof (Z.mod_pos_bound (Zpos m) (2 ^ (- e)) Hp) as Hmb.
      set (q := (Zpos m / 2 ^ (- e))%Z) in *.
      set (r := (Zpos m mod 2 ^ (- e))%Z) in *.
      assert (Hbp : bpow e * IZR (2 ^ (- e)) = 1)
        by (rewrite <- bpow_IZR by lia; apply bpow_opp_r).
      assert (Hpr : 0 < IZR (2 ^ (- e))) by (apply IZR_lt; lia).
      assert (Hm : IZR (Zpos m) = IZR (2 ^ (- e)) * IZR q + IZR r)
        by (rewrite <- mult_IZR, <- plus_IZR; f_equal; exact Hdm).
      assert (Hr0 : 0 <= IZR r) by (apply IZR_le; lia).
      assert (Hr1 : IZR r < IZR (2 ^ (- e))) by (apply IZR_lt; lia).
      pose proof (bpow_pos e) as Hbe.
      rewrite Hm.
      replace ((IZR (2 ^ (- e)) * IZR q + IZR r) * bpow e)
        with (IZR q * (bpow e * IZR (2 ^ (- e))) + IZR r * bpow e) by ring.
      rewrite Hbp.
      assert (0 <= IZR r * bpow e) by (apply Rmult_le_pos; lra).
      assert (IZR r * bpow e < 1).
      { rewrite <- Hbp. rewrite (Rmult_comm (bpow e)).
        apply Rmult_lt_compat_r; lra. }
      lra.
Qed.

End Grid.

Module Interp.
Import PyFloat FloatFacts Script Grid.
Local Open Scope R_scope.

Lemma bpow_neg_IZR (k : Z) : (0 <= k)%Z -> IZR (2 ^ k) * bpow (- k) = 1.
Proof.
  intros Hk. rewrite <- bpow_IZR by lia. apply bpow_opp_r.
Qed.

Lemma scale_bound (d delta e : R) :
  -255 <= d <= 255 -> - e <= delta <= e -> - (255 * e) <= d * delta <= 255 * e.
Proof. intros Hd He. nra. Qed.

(** The float computed for one channel of row [y] is within [2 ^ (-37)]
    of the exact interpolation. *)
Lemma channel_value (c1 c2 y s : Z) :
  (0 <= c1 <= 255)%Z -> (0 <= c2 <= 255)%Z -> (0 <= y < s)%Z -> (s < 2 ^ 62)%Z ->
  exists q fd f1,
    truediv y s = Ok q /\ of_int (c2 - c1) = Ok fd /\ of_int c1 = Ok f1 /\
    let v := SFadd 53 1024 f1 (SFmul 53 1024 fd q) in
    finite_or_zero v /\ 0 <= B2R v /\
    let X := IZR c1 + IZR (c2 - c1) * (IZR y / IZR s) in
    X - 20735 * bpow (-52) <= B2R v <= X + 20735 * bpow (-52).
Proof.
  intros Hc1 Hc2 Hy Hs.
  destruct (Arith.ratio_spec y s Hy Hs) as (q & Hq & HFq & Hencq).
  destruct (Arith.of_int_ok (c2 - c1) 10) as (fd & Hfd & HFd & Hvd); [lia|lia|].
  destruct (Arith.of_int_ok c1 9) as (f1 & Hf1 & HF1 & Hv1); [lia|lia|].
  exists q, fd, f1. split; [exact Hq|]. split; [exact Hfd|]. split; [exact Hf1|].
  cbv zeta.
  assert (Hs0 : 0 < IZR s) by (apply IZR_lt; lia).
  assert (Hy0 : 0 <= IZR y) by (apply IZR_le; lia).
  assert (Hys : IZR y < IZR s) by (apply IZR_lt; lia).
  set (x := IZR y / IZR s) in *.
  assert (Hx01 : 0 <= x <= 1).
  { subst x. split.
    - apply Rmult_le_pos; [assumption|]. apply Rlt_le, Rinv_0_lt_compat. assumption.
    - apply Rmult_le_reg_r with (IZR s); [assumption|].
      unfold Rdiv. rewrite Rmult_assoc, Rinv_l, Rmult_1_r, Rmult_1_l by lra. lra. }
  (* the ratio *)
  assert (Hq01 : 0 <= B2R q <= 1).
  { specialize (Hencq 0%Z 0%Z 1%Z ltac:(lia)).
    change (bpow 0) with 1 in Hencq. rewrite !Rmult_1_r in Hencq. apply Hencq. lra. }
  pose proof (grid_error x (B2R q) 52 (fun a b => Hencq 52%Z a b ltac:(lia))) as Heq.
  change (- (52))%Z with (-52)%Z in Heq.
  (* the product *)
  destruct (mul_spec fd q (-52) (10 - 52) (10 + 1) (-115) (-51) 2 HFd HFq)
    as [HFp Hencp0]; try lia.
  pose proof (mul_grid fd q (-52) (10 - 52) (10 + 1) (-115) (-51) 2 40 HFd HFq
                ltac:(lia) ltac:(lia) ltac:(lia) ltac:(lia)) as Hencp.
  pose proof (grid_error _ _ 40 Hencp) as Hep.
  change (- (40))%Z with (-40)%Z in Hep.
  set (p := SFmul 53 1024 fd q) in *.
  (* the sum *)
  destruct (add_spec f1 p _ _ _ _ _ _ HF1 HFp) as [HFv Hencv0]; try lia.
  pose proof (add_grid f1 p _ _ _ _ _ _ 38 HF1 HFp
                ltac:(lia) ltac:(lia) ltac:(lia) ltac:(lia) ltac:(lia)
                ltac:(lia) ltac:(lia)) as Hencv.
  pose proof (grid_error _ _ 38 Hencv) as Hev.
  change (- (38))%Z with (-38)%Z in Hev.
  set (v := SFadd 53 1024 f1 p) in *.
  rewrite Hvd in *. rewrite Hv1 in *.
  assert (Hd : -255 <= IZR (c2 - c1) <= 255)
    by (split; apply IZR_le; lia).
  assert (Hc1r : 0 <= IZR c1 <= 255) by (split; apply IZR_le; lia).
  assert (Hc2r : IZR (c2 - c1) = IZR c2 - IZR c1) by apply minus_IZR.
  assert (Hc2b : 0 <= IZR c2 <= 255) by (split; apply IZR_le; lia).
  (* powers of two *)
  pose proof (bpow_pos (-52)) as He52.
  assert (H40 : bpow (-40) = 4096 * bpow (-52)).
  { replace (-40)%Z with (12 + -52)%Z by lia. rewrite bpow_add.
    rewrite (bpow_IZR 12) by lia. reflexivity. }
  assert (H38 : bpow (-38) = 16384 * bpow (-52)).
  { replace (-38)%Z with (14 + -52)%Z by lia. rewrite bpow_add.
    rewrite (bpow_IZR 14) by lia. reflexivity. }
  rewrite H40 in Hep. rewrite H38 in Hev.
  split; [exact HFv|]. split.
  - (* the sum is not negative *)
    assert (Hp0 : IZR (- c1) <= B2R p <= IZR 255).
    { apply Hencp0. rewrite opp_IZR. split; nra. }
    rewrite opp_IZR in Hp0.
    assert (IZR 0 <= B2R v <= IZR 510) by (apply Hencv0; lra).
    lra.
  - pose proof (scale_bound (IZR (c2 - c1)) (B2R q - x) (bpow (-52)) Hd ltac:(lra)) as Hsc.
    lra.
Qed.

(** One channel of row [y] is the exact interpolation rounded down,
    or one less when the exact value is an integer. *)
Lemma channel_floor (c1 c2 y s : Z) :
  (0 <= c1 <= 255)%Z -> (0 <= c2 <= 255)%Z -> (0 <= y < s)%Z -> (s <= 2 ^ 31)%Z ->
  exists q z,
    truediv y s = Ok q /\ channel c1 c2 q = Ok z /\
    (c1 + (c2 - c1) * y / s - 1 <= z <= c1 + (c2 - c1) * y / s)%Z /\
    ((((c2 - c1) * y) mod s)%Z <> 0%Z -> z = (c1 + (c2 - c1) * y / s)%Z).
Proof.
  intros Hc1 Hc2 Hy Hs.
  destruct (channel_value c1 c2 y s Hc1 Hc2 Hy ltac:(lia))
    as (q & fd & f1 & Hq & Hfd & Hf1 & HFv & Hv0 & Hv).
  cbv zeta in Hv.
  destruct (to_int_floor _ HFv Hv0) as (z & Hz & Hzv).
  exists q, z. split; [exact Hq|]. split.
  { unfold channel, int_mul, int_add, rbind, mul, add, prec, emax.
    rewrite Hfd, Hf1. exact Hz. }
  set (d := (c2 - c1)%Z) in *.
  pose proof (Z.div_mod (d * y) s ltac:(lia)) as Hdm.
  pose proof (Z.mod_pos_bound (d * y) s ltac:(lia)) as Hmb.
  set (F := (d * y / s)%Z) in *. set (r := ((d * y) mod s)%Z) in *.
  assert (Hs0 : 0 < IZR s) by (apply IZR_lt; lia).
  set (u := / IZR s).
  assert (Hu : IZR s * u = 1) by (subst u; apply Rinv_r; lra).
  assert (Hu0 : 0 < u) by (subst u; apply Rinv_0_lt_compat; lra).
  assert (HX : IZR d * (IZR y / IZR s) = IZR F + IZR r * u).
  { unfold Rdiv. fold u. rewrite <- Rmult_assoc, <- mult_IZR, Hdm.
    rewrite plus_IZR, mult_IZR. 
    replace ((IZR s * IZR F + IZR r) * u) with (IZR F * (IZR s * u) + IZR r * u) by ring.
    rewrite Hu. ring. }
  rewrite HX in Hv.
  pose proof (bpow_pos (-52)) as He52.
  (* one row is worth more than the rounding errors *)
  assert (Hgap : 20735 * bpow (-52) < u).
  { assert (H52 : IZR (2 ^ 52) * bpow (-52) = 1) by (apply (bpow_neg_IZR 52); lia).
    assert (Hs31 : IZR s <= IZR (2 ^ 31)) by (apply IZR_le; lia).
    change (2 ^ 52)%Z with 4503599627370496%Z in H52.
    change (2 ^ 31)%Z with 2147483648%Z in Hs31.
    apply Rmult_lt_reg_l with (IZR s); [assumption|]. rewrite Hu.
    apply Rle_lt_trans with (2147483648 * (20735 * bpow (-52))).
    - apply Rmult_le_compat_r; lra.
    - lra. }
  assert (Hr0 : 0 <= IZR r) by (apply IZR_le; lia).
  assert (Hr1 : IZR r <= IZR s - 1).
  { rewrite <- minus_IZR. apply IZR_le. lia. }
  assert (Hru : 0 <= IZR r * u <= 1 - u).
  { split; [apply Rmult_le_pos; lra|].
    replace (1 - u) with ((IZR s - 1) * u) by (rewrite Rmult_minus_distr_r, Hu; ring).
    apply Rmult_le_compat_r; lra. }
  assert (Hu1 : u <= 1).
  { assert (1 <= IZR s) by (apply IZR_le; lia).
    apply Rmult_le_reg_l with (IZR s); [assumption|]. rewrite Hu. nra. }
  assert (Hup : (z <= c1 + F)%Z).
  { apply Z.lt_succ_r. apply lt_IZR. unfold Z.succ. rewrite !plus_IZR. lra. }
  assert (Hlo : (c1 + F - 1 <= z)%Z).
  { apply Z.lt_succ_r. apply lt_IZR. unfold Z.succ.
    rewrite !plus_IZR, minus_IZR, plus_IZR. lra. }
  split; [lia|].
  intros Hr.
  assert (Hr2 : 1 <= IZR r) by (apply IZR_le; lia).
  assert (Hru2 : u <= IZR r * u) by nra.
  assert ((c1 + F <= z)%Z).
  { apply Z.lt_succ_r. apply lt_IZR. unfold Z.succ. rewrite !plus_IZR. lra. }
  lia.
Qed.

End Interp.

Module Nearest.
Import PyFloat FloatFacts Rounding.

Lemma bits_agree_step (m j : Z) (a : shr_record) :
  0 <= m -> 0 <= j -> bits_agree m j a -> bits_agree m (j + 1) (shr_1 a).
Proof.
  intros Hm Hj [Hma Hrs].
  assert (Hpos : 0 < 2 ^ j) by (apply Z.pow_pos_nonneg; lia).
  assert (Hma0 : 0 <= shr_m a) by (rewrite Hma; apply Z.div_pos; lia).
  destruct (shr_1_spec a Hma0) as (H1 & H2 & H3).
  assert (Hp1 : 2 ^ (j + 1) = 2 ^ j * 2) by (rewrite Z.pow_add_r, Z.pow_1_r by lia; lia).
  assert (Hrem : m mod 2 ^ (j + 1) = m mod 2 ^ j + 2 ^ j * ((m / 2 ^ j) mod 2)).
  { rewrite Hp1. apply Z.rem_mul_r; lia. }
  pose proof (Z.mod_pos_bound m (2 ^ j) Hpos) as Hb.
  pose proof (Z.mod_pos_bound (m / 2 ^ j) 2 ltac:(lia)) as Hb2.
  assert (Hodd : Z.odd (m / 2 ^ j) = ((m / 2 ^ j) mod 2 =? 1)).
  { rewrite Zmod_odd. destruct (Z.odd (m / 2 ^ j)); reflexivity. }
  split.
  - rewrite H1, Hma, Hp1. rewrite Z.div_div by lia. reflexivity.
  - rewrite H2, H3, Hma, Hodd, Hrem, Hp1.
    set (b := (m / 2 ^ j) mod 2) in *. set (rem := m mod 2 ^ j) in *.
    set (P := 2 ^ j) in *.
    destruct (shr_r a), (shr_s a); cbn [orb];
      destruct (Z.eqb_spec b 1) as [Hb1|Hb1];
      try (assert (b = 0) by lia); subst b; nia.
Qed.

Lemma shr_iter_bits (m : Z) (p : positive) :
  0 <= m ->
  bits_agree m (Zpos p) (SpecFloat.iter_pos shr_1 p (Build_shr_record m false false)).
Proof.
  intros Hm.
  assert (H0 : bits_agree m 0 (Build_shr_record m false false)).
  { split; simpl.
    - rewrite Z.div_1_r. reflexivity.
    - apply Z.mod_1_r. }
  pose proof (iter_pos_ind _ shr_1 (bits_agree m)
                (fun j a Hj => bits_agree_step m j a Hm Hj) p 0
                (Build_shr_record m false false) ltac:(lia) H0) as Hfin.
  exact Hfin.
Qed.

(** Rounding to nearest: the rounded mantissa is at most half a unit away. *)
Lemma round_bits (mx N : Z) (a : shr_record) :
  0 <= mx -> 0 <= N -> bits_agree mx N a ->
  let M2 := round_nearest_even (shr_m a) (loc_of_shr_record a) in
  mx / 2 ^ N <= M2 <= mx / 2 ^ N + 1 /\
  2 * mx - 2 ^ N <= 2 * (M2 * 2 ^ N) <= 2 * mx + 2 ^ N.
Proof.
  intros Hmx HN [Hma Hrs] M2.
  assert (Hpos : 0 < 2 ^ N) by (apply Z.pow_pos_nonneg; lia).
  pose proof (Z.div_mod mx (2 ^ N) ltac:(lia)) as Hdm.
  pose proof (Z.mod_pos_bound mx (2 ^ N) Hpos) as Hb.
  subst M2. destruct a as [m r s]. cbn [shr_m shr_r shr_s] in Hma, Hrs |- *. subst m.
  set (m1 := mx / 2 ^ N) in *. set (rem := mx mod 2 ^ N) in *. set (P := 2 ^ N) in *.
  destruct r, s; cbv iota in Hrs; cbn [round_nearest_even loc_of_shr_record];
    try destruct (Z.even m1); nia.
Qed.

Lemma shr_fexp_nearest mx ex :
  0 < mx -> -1021 <= Zdigits2 mx + ex ->
  let N := Z.max 0 (Zdigits2 mx - 53) in
  exists mrs,
    shr_fexp 53 1024 mx ex loc_Exact = (mrs, ex + N) /\
    bits_agree mx N mrs.
Proof.
  intros Hmx Hk N. unfold shr_fexp. rewrite fexp_normal by assumption.
  replace (Zdigits2 mx + ex - 53 - ex) with (Zdigits2 mx - 53) by lia.
  subst N. destruct (Zdigits2 mx - 53) as [|p|p] eqn:Hn; simpl shr.
  - eexists. rewrite Z.add_0_r. split; [reflexivity|].
    split; simpl; [rewrite Z.div_1_r; reflexivity | apply Z.mod_1_r].
  - eexists. split; [reflexivity|]. apply shr_iter_bits. lia.
  - eexists. rewrite Z.add_0_r. split; [reflexivity|].
    split; simpl; [rewrite Z.div_1_r; reflexivity | apply Z.mod_1_r].
Qed.

(** [binary_round_aux] on an exact product or sum rounds to nearest. *)
Lemma bra_nearest sx mx ex :
  0 < mx -> -1020 <= ex -> Zdigits2 mx + ex <= 970 ->
  let N := Z.max 0 (Zdigits2 mx - 53) in
  exists m e,
    binary_round_aux 53 1024 sx mx ex loc_Exact = S754_finite sx m e /\
    ex + N <= e <= ex + N + 1 /\
    2 * mx - 2 ^ N <= 2 * (Zpos m * 2 ^ (e - (ex + N)) * 2 ^ N) <= 2 * mx + 2 ^ N.
Proof.
  intros Hmx Hex Hk N.
  pose proof (Zdigits2_pos mx Hmx) as Hdpos.
  pose proof (Zdigits2_bounds mx Hmx) as Hdb.
  destruct (shr_fexp_nearest mx ex Hmx) as (mrs & H1 & Hbits); [lia|].
  fold N in H1, Hbits.
  assert (HN : 0 <= N) by (subst N; lia).
  destruct (round_bits mx N mrs ltac:(lia) HN Hbits) as [Hr Hnear].
  set (m2 := round_nearest_even (shr_m mrs) (loc_of_shr_record mrs)) in *.
  set (m1 := mx / 2 ^ N) in *.
  assert (HpN : 0 < 2 ^ N) by (apply Z.pow_pos_nonneg; lia).
  assert (Hm1b : 0 < m1 < 2 ^ 53 /\ Zdigits2 m1 + N = Zdigits2 mx).
  { subst m1 N. destruct (Z.max_spec 0 (Zdigits2 mx - 53)) as [[Hc ->]|[Hc ->]].
    - assert (2 ^ 53 * 2 ^ (Zdigits2 mx - 53) = 2 ^ Zdigits2 mx)
        by (rewrite <- Z.pow_add_r by lia; f_equal; lia).
      assert (2 ^ 52 * 2 ^ (Zdigits2 mx - 53) = 2 ^ (Zdigits2 mx - 1))
        by (rewrite <- Z.pow_add_r by lia; f_equal; lia).
      assert (Hp : 0 < 2 ^ (Zdigits2 mx - 53)) by (apply Z.pow_pos_nonneg; lia).
      assert (Hlo : 2 ^ 52 <= mx / 2 ^ (Zdigits2 mx - 53))
        by (apply Z.div_le_lower_bound; lia).
      assert (Hhi : mx / 2 ^ (Zdigits2 mx - 53) < 2 ^ 53)
        by (apply Z.div_lt_upper_bound; lia).
      split; [lia|].
      rewrite (Zdigits2_unique _ 53); [lia| |lia]. simpl (53 - 1). lia.
    - rewrite Z.pow_0_r, Z.div_1_r. split; [|lia]. split; [lia|].
      apply Z.lt_le_trans with (2 ^ Zdigits2 mx); [lia|].
      apply Z.pow_le_mono_r; lia. }
  destruct Hm1b as [Hm1b Hd1].
  assert (Hd2 : Zdigits2 m1 <= Zdigits2 m2 <= Zdigits2 m1 + 1).
  { rewrite !Zdigits2_log2 by lia.
    assert (Z.log2 m1 <= Z.log2 m2) by (apply Z.log2_le_mono; lia).
    assert (Z.log2 m2 <= Z.log2 (m1 + 1)) by (apply Z.log2_le_mono; lia).
    assert (Z.log2 (m1 + 1) <= Z.log2 m1 + 1).
    { replace (m1 + 1) with (Z.succ m1) by lia.
      pose proof (Z.log2_succ_le m1). lia. }
    lia. }
  destruct (shr_fexp_second m2 (ex + N)) as (m' & e' & H2 & Hm' & He' & Hv & Hd');
    [lia|lia|].
  unfold binary_round_aux. rewrite H1. fold m2. rewrite H2. simpl shr_m.
  destruct m' as [|p|p]; try lia.
  assert (HNdef : N = Z.max 0 (Zdigits2 mx - 53)) by reflexivity.
  assert (He971 : (e' <=? 1024 - 53) = true) by (apply Z.leb_le; lia).
  rewrite He971.
  exists p, e'. split; [reflexivity|]. split; [lia|].
  rewrite Hv. exact Hnear.
Qed.

End Nearest.

Module Scaled.
Import PyFloat FloatFacts Script Rounding Nearest.

(** A quotient read off after scaling both sides by [P]. *)
Lemma div_by_scaling (M2 W P K T : Z) :
  0 < P -> 0 < W -> W * P = T ->
  ~ (M2 * P + P <= K * T) -> ~ ((K + 1) * T <= M2 * P) ->
  M2 / W = K.
Proof.
  intros HP HW HT Hlo Hhi. subst T.
  symmetry. apply (Z.div_unique_pos M2 W K (M2 - W * K)); [|lia].
  split.
  - destruct (Z.le_gt_cases (W * K) M2) as [|Hlt]; [lia|exfalso]. apply Hlo.
    assert (H : (M2 + 1) * P <= K * W * P)
      by (apply Z.mul_le_mono_nonneg_r; lia).
    lia.
  - destruct (Z.lt_ge_cases M2 (W * (K + 1))) as [|Hge]; [lia|exfalso]. apply Hhi.
    assert (H : (K + 1) * W * P <= M2 * P)
      by (apply Z.mul_le_mono_nonneg_r; lia).
    lia.
Qed.

(** An [int] below [2 ^ 31], as a float: an exact mantissa. *)
Lemma of_int_mantissa (size : Z) :
  0 < size < 2 ^ 31 ->
  exists ms es,
    of_int size = Ok (S754_finite false ms es) /\
    -52 <= es <= -21 /\ Zpos ms = size * 2 ^ (- es).
Proof.
  intros Hs.
  destruct (Arith.of_int_ok size 31) as (f & Hf & HF & Hv); [lia|lia|].
  assert (Hpos : (0 < IZR size)%R) by (apply IZR_lt; lia).
  destruct f as [s|s| |s ms es]; try contradiction.
  - simpl in Hv. lra.
  - unfold FIN in HF. destruct HF as [He Hd].
    assert (Hs' : s = false).
    { destruct s; [|reflexivity]. simpl B2R in Hv.
      pose proof (bpow_pos es).
      assert (0 < IZR (Zpos ms))%R by (apply IZR_lt; lia).
      assert (0 < IZR (Zpos ms) * bpow es)%R by (apply Rmult_lt_0_compat; assumption).
      lra. }
    subst s. exists ms, es. split; [exact Hf|]. split; [lia|].
    apply eq_IZR. rewrite mult_IZR, <- bpow_IZR by lia.
    simpl B2R in Hv. rewrite <- Hv.
    rewrite Rmult_1_l, Rmult_assoc, bpow_opp_r. ring.
Qed.

(** [int(size * x)] for a positive literal [x = ml * 2 ^ el] between
    1/16 and 1: the product is rounded to nearest, then cut. *)
Lemma scaled_nearest (size : Z) (ml : positive) (el : Z) :
  0 < size < 2 ^ 31 -> 2 ^ 52 <= Zpos ml < 2 ^ 53 -> -57 <= el <= -53 ->
  exists E P W M2,
    scaled size (S754_finite false ml el) = Ok (M2 / W) /\
    0 < E /\ 0 < P /\ 0 < W /\ W * P = E * 2 ^ (- el) /\
    P * 2 ^ 52 <= size * E * Zpos ml < P * 2 ^ 53 /\
    2 * (size * E * Zpos ml) - P <= 2 * (M2 * P) <= 2 * (size * E * Zpos ml) + P.
Proof.
  intros Hs Hml Hel.
  destruct (of_int_mantissa size Hs) as (ms & es & Hf & Hes & Hms).
  set (E := 2 ^ (- es)) in *.
  assert (HE : 0 < E) by (subst E; apply Z.pow_pos_nonneg; lia).
  set (mx := Zpos (ms * ml)).
  assert (Hmx : mx = size * E * Zpos ml).
  { subst mx. rewrite Pos2Z.inj_mul, Hms. reflexivity. }
  assert (Hmx52 : 2 ^ 52 <= mx).
  { rewrite Hmx. assert (1 <= size * E) by nia.
    apply Z.le_trans with (1 * Zpos ml); [lia|].
    apply Z.mul_le_mono_nonneg_r; lia. }
  assert (Hmx0 : 0 < mx) by lia.
  pose proof (Zdigits2_bounds mx Hmx0) as Hdb.
  assert (Hd53 : 53 <= Zdigits2 mx).
  { rewrite Zdigits2_log2 by lia.
    assert (52 <= Z.log2 mx) by (apply Z.log2_le_pow2; lia). lia. }
  assert (Hdms : Zdigits2 (Zpos ms) <= 31 - es).
  { apply Zdigits2_le; [lia|lia|]. rewrite Hms.
    replace (31 - es) with (31 + - es) by lia. rewrite Z.pow_add_r by lia.
    fold E. nia. }
  assert (Hdml : Zdigits2 (Zpos ml) <= 53) by (apply Zdigits2_le; lia).
  assert (Hdmx : Zdigits2 mx <= 84 - es).
  { subst mx. rewrite Pos2Z.inj_mul.
    pose proof (Zdigits2_mul (Zpos ms) (Zpos ml) ltac:(lia) ltac:(lia)). lia. }
  destruct (bra_nearest false mx (es + el) Hmx0 ltac:(lia) ltac:(lia))
    as (m & e & Hr & He & Hnear).
  set (N := Z.max 0 (Zdigits2 mx - 53)) in *.
  assert (HN : N = Zdigits2 mx - 53) by (subst N; lia).
  set (P := 2 ^ N) in *.
  assert (HP : 0 < P) by (subst P; apply Z.pow_pos_nonneg; lia).
  set (i := - (es + el + N)).
  assert (Hi : 0 <= i) by (subst i; lia).
  set (W := 2 ^ i).
  assert (HW : 0 < W) by (subst W; apply Z.pow_pos_nonneg; lia).
  set (j := e - (es + el + N)) in *.
  exists E, P, W, (Zpos m * 2 ^ j).
  split; [|split; [exact HE|split; [exact HP|split; [exact HW|split; [|split]]]]].
  - unfold scaled, int_mul, rbind, mul, prec, emax. rewrite Hf.
    cbn [SFmul xorb]. fold mx. rewrite Hr.
    unfold to_int. rewrite (proj2 (Z.leb_gt 0 e)) by lia.
    f_equal.
    assert (Hj : 0 <= j) by (subst j; lia).
    assert (HWj : W = 2 ^ (- e) * 2 ^ j).
    { subst W. rewrite <- Z.pow_add_r by lia. f_equal. subst i j. lia. }
    rewrite HWj. rewrite Z.div_mul_cancel_r; [reflexivity | | ].
    + apply Z.pow_nonzero; lia.
    + apply Z.pow_nonzero; lia.
  - subst W P E. rewrite <- !Z.pow_add_r by lia. f_equal. subst i. lia.
  - rewrite <- Hmx. subst P.
    replace (2 ^ N * 2 ^ 52) with (2 ^ (Zdigits2 mx - 1))
      by (rewrite <- Z.pow_add_r by lia; f_equal; lia).
    replace (2 ^ N * 2 ^ 53) with (2 ^ Zdigits2 mx)
      by (rewrite <- Z.pow_add_r by lia; f_equal; lia).
    exact Hdb.
  - rewrite <- Hmx. exact Hnear.
Qed.

(** What is multiplied by the power of two [E] in the argument below. *)
Lemma floor_parts (A D size E : Z) :
  0 < D -> 0 < E -> 0 < size < 2 ^ 31 -> 0 <= A ->
  A * (size * E) = D * (A * size / D * E) + (A * size) mod D * E /\
  0 <= (A * size) mod D * E <= (D - 1) * E /\
  ((A * size) mod D * E = 0 \/ E <= (A * size) mod D * E) /\
  0 < size * E < 2 ^ 31 * E.
Proof.
  intros HD HE Hs HA.
  pose proof (Z.div_mod (A * size) D ltac:(lia)) as Hdm.
  pose proof (Z.mod_pos_bound (A * size) D ltac:(lia)) as Hmb.
  set (K := A * size / D) in *. set (rho := (A * size) mod D) in *.
  split; [|split; [|split]].
  - replace (D * (K * E) + rho * E) with ((D * K + rho) * E) by ring.
    rewrite <- Hdm. ring.
  - split; [apply Z.mul_nonneg_nonneg; lia | apply Z.mul_le_mono_nonneg_r; lia].
  - destruct (Z.eq_dec rho 0) as [->|Hne]; [left; reflexivity|right].
    replace E with (1 * E) at 1 by ring. apply Z.mul_le_mono_nonneg_r; lia.
  - split; [apply Z.mul_pos_pos; lia | apply Z.mul_lt_mono_pos_r; lia].
Qed.

(** [int(size * x)] for the literal [x = ml * 2 ^ el] nearest to
    [A / D]: what is left is linear arithmetic. *)
Ltac scaled_literal A D ml el :=
  let E := fresh "E" in let P := fresh "P" in
  let W := fresh "W" in let M2 := fresh "M2" in
  let Hsc := fresh "Hsc" in let HE := fresh "HE" in
  let HP := fresh "HP" in let HW := fresh "HW" in
  let HWP := fresh "HWP" in let Hmx := fresh "Hmx" in
  let Hnear := fresh "Hnear" in
  let H1 := fresh "H1" in let H2 := fresh "H2" in let H3 := fresh "H3" in
  let H4 := fresh "H4" in let HK := fresh "HK" in let HK1 := fresh "HK1" in
  let L := eval vm_compute in (2 ^ (- el)) in
  let D1 := eval vm_compute in (D - 1) in
  lazymatch goal with
  | Hs : 0 <= ?size < 2 ^ 31, Hne : ?size <> 0 |- _ =>
      destruct (scaled_nearest size ml el)
        as (E & P & W & M2 & Hsc & HE & HP & HW & HWP & Hmx & Hnear);
      [lia|lia|lia|];
      rewrite Hsc; f_equal;
      destruct (floor_parts A D size E) as (H1 & H2 & H3 & H4); [lia|lia|lia|lia|];
      assert (HK : A * size / D * (E * L) = A * size / D * E * L) by ring;
      assert (HK1 : (A * size / D + 1) * (E * L)
                    = A * size / D * E * L + E * L) by ring;
      apply (div_by_scaling M2 W P (A * size / D) (E * L) HP HW HWP);
      rewrite ?HK, ?HK1;
      revert Hmx Hnear H1 H2 H3 H4 HE HP; clear;
      generalize (size * E) (A * size / D * E) ((A * size) mod D * E) (M2 * P);
      change (2 ^ 52) with 4503599627370496;
      change (2 ^ 53) with 9007199254740992;
      change (2 ^ 31) with 2147483648;
      change (D - 1) with D1;
      intros; lia
  end.

Lemma scaled_0_12 (size : Z) :
  0 <= size < 2 ^ 31 -> scaled size lit_0_12 = Ok (3 * size / 25).
Proof.
  intros Hs. destruct (Z.eq_dec size 0) as [->|Hne]; [reflexivity|].
  unfold lit_0_12. scaled_literal 3 25 8646911284551352%positive (-56).
Qed.

Lemma scaled_0_15 (size : Z) :
  0 <= size < 2 ^ 31 -> scaled size lit_0_15 = Ok (3 * size / 20).
Proof.
  intros Hs. destruct (Z.eq_dec size 0) as [->|Hne]; [reflexivity|].
  unfold lit_0_15. scaled_literal 3 20 5404319552844595%positive (-55).
Qed.

End Scaled.

Module GradientFacts.
Import Pillow PillowFacts Script Checks ScriptFacts Reference.

Lemma channel_agrees (c1 c2 y s : Z) :
  0 <= c1 <= 255 -> 0 <= c2 <= 255 -> 0 <= y < s -> s <= 2 ^ 31 ->
  exists q z,
    PyFloat.truediv y s = Ok q /\ channel c1 c2 q = Ok z /\
    agrees z c1 c2 y s /\ between c1 c2 z.
Proof.
  intros Hc1 Hc2 Hy Hs.
  destruct (Interp.channel_floor c1 c2 y s Hc1 Hc2 Hy Hs) as (q & z & Hq & Hz & Hb & He).
  exists q, z. split; [exact Hq|]. split; [exact Hz|]. split.
  - unfold agrees, interp, on_grid. split; [exact Hb | exact He].
  - destruct (Arith.ratio_unit y s Hy ltac:(lia)) as (q' & Hq' & HF & Hu & _).
    rewrite Hq in Hq'. injection Hq' as <-.
    destruct (Arith.channel_between c1 c2 q ltac:(lia) ltac:(lia) HF Hu) as (z' & Hz' & Hbt).
    rewrite Hz in Hz'. injection Hz' as <-. exact Hbt.
Qed.

(** Every row of the gradient, channel by channel. *)
Lemma row_fill_agrees (s r1 g1 b1 r2 g2 b2 y : Z) :
  is_color (r1, g1, b1) -> is_color (r2, g2, b2) -> 0 <= y < s -> s <= 2 ^ 31 ->
  exists r g b,
    row_fill s (r1, g1, b1) (r2, g2, b2) y = Ok (r, g, b, 255) /\
    agrees r r1 r2 y s /\ agrees g g1 g2 y s /\ agrees b b1 b2 y s /\
    between r1 r2 r /\ between g1 g2 g /\ between b1 b2 b.
Proof.
  intros (Hr1 & Hg1 & Hb1) (Hr2 & Hg2 & Hb2) Hy Hs.
  destruct (channel_agrees r1 r2 y s Hr1 Hr2 Hy Hs) as (q & r & Hq & Hr & Har & Hbr).
  destruct (channel_agrees g1 g2 y s Hg1 Hg2 Hy Hs) as (q' & g & Hq' & Hg & Hag & Hbg).
  rewrite Hq in Hq'. injection Hq' as <-.
  destruct (channel_agrees b1 b2 y s Hb1 Hb2 Hy Hs) as (q' & b & Hq' & Hb & Hab & Hbb).
  rewrite Hq in Hq'. injection Hq' as <-.
  exists r, g, b. unfold row_fill, rbind. rewrite Hq, Hr, Hg, Hb.
  split; [reflexivity|]. repeat (split; [assumption|]). assumption.
Qed.

(** Two rows: the exact values order the computed ones. *)
Lemma towards_of_agrees (c1 c2 y1 y2 s z1 z2 : Z) :
  0 < s -> 0 <= y1 < y2 -> c1 <> c2 ->
  agrees z1 c1 c2 y1 s -> agrees z2 c1 c2 y2 s -> towards c1 c2 z1 z2.
Proof.
  unfold agrees, interp, on_grid, towards.
  intros Hs Hy Hc [Hb1 He1] [Hb2 He2].
  set (d := c2 - c1) in *.
  pose proof (Z.div_mod (d * y1) s ltac:(lia)) as Hdm1.
  pose proof (Z.mod_pos_bound (d * y1) s ltac:(lia)) as Hmb1.
  pose proof (Z.div_mod (d * y2) s ltac:(lia)) as Hdm2.
  pose proof (Z.mod_pos_bound (d * y2) s ltac:(lia)) as Hmb2.
  set (F1 := d * y1 / s) in *. set (F2 := d * y2 / s) in *.
  set (m1 := (d * y1) mod s) in *. set (m2 := (d * y2) mod s) in *.
  split; intros Hle.
  - assert (Hd : 0 < d) by (subst d; lia).
    assert (Hlt : d * y1 < d * y2) by (apply Z.mul_lt_mono_pos_l; lia).
    assert (HF : F1 <= F2) by (apply Z.div_le_mono; lia).
    destruct (Z.eq_dec F1 F2) as [Heq|Hne]; [|lia].
    destruct (Z.eq_dec m2 0) as [Hm|Hm].
    + exfalso. rewrite Heq in Hdm1. lia.
    + specialize (He2 Hm). lia.
  - assert (Hd : d < 0) by (subst d; lia).
    assert (Hlt : d * y2 < d * y1) by (apply Z.mul_lt_mono_neg_l; lia).
    assert (HF : F2 <= F1) by (apply Z.div_le_mono; lia).
    destruct (Z.eq_dec F1 F2) as [Heq|Hne]; [|lia].
    destruct (Z.eq_dec m1 0) as [Hm|Hm].
    + exfalso. rewrite Heq in Hdm1. lia.
    + specialize (He1 Hm). lia.
Qed.

Lemma towards_refl (c1 c2 z : Z) : towards c1 c2 z z.
Proof. unfold towards. lia. Qed.

Lemma channel_towards (c1 c2 y1 y2 s : Z) (q1 q2 : PyFloat.float) (z1 z2 : Z) :
  0 <= c1 <= 255 -> 0 <= c2 <= 255 -> 0 <= y1 <= y2 -> y2 < s -> s <= 2 ^ 31 ->
  PyFloat.truediv y1 s = Ok q1 -> channel c1 c2 q1 = Ok z1 ->
  PyFloat.truediv y2 s = Ok q2 -> channel c1 c2 q2 = Ok z2 ->
  towards c1 c2 z1 z2.
Proof.
  intros Hc1 Hc2 Hy1 Hy2 Hs Hq1 Hz1 Hq2 Hz2.
  destruct (channel_agrees c1 c2 y1 s Hc1 Hc2 ltac:(lia) Hs)
    as (q & z & Hq & Hz & Ha1 & Hbt1).
  rewrite Hq1 in Hq. injection Hq as <-. rewrite Hz1 in Hz. injection Hz as <-.
  destruct (channel_agrees c1 c2 y2 s Hc1 Hc2 ltac:(lia) Hs)
    as (q & z & Hq & Hz & Ha2 & Hbt2).
  rewrite Hq2 in Hq. injection Hq as <-. rewrite Hz2 in Hz. injection Hz as <-.
  destruct (Z.eq_dec y1 y2) as [->|Hy].
  - rewrite Hq1 in Hq2. injection Hq2 as <-. rewrite Hz1 in Hz2. injection Hz2 as <-.
    apply towards_refl.
  - destruct (Z.eq_dec c1 c2) as [->|Hc].
    + unfold between in Hbt1, Hbt2. unfold towards. lia.
    + apply (towards_of_agrees c1 c2 y1 y2 s); try assumption; lia.
Qed.

End GradientFacts.

Module HexFacts.
Import PyStr Script Reference.

Lemma in_all_ascii (c : ascii) : In c all_ascii.
Proof.
  unfold all_ascii. apply in_map_iff. exists (nat_of_ascii c).
  split; [apply ascii_nat_embedding|]. apply in_seq.
  pose proof (nat_ascii_bounded c). lia.
Qed.

(** The hexadecimal reader on all strings of at most two characters, by
    evaluation. *)
Lemma small_channel_check :
  small_channel "" = true /\
  forallb (fun a => small_channel (String a "")) all_ascii = true /\
  forallb (fun a => forallb (fun b => small_channel (String a (String b ""))) all_ascii)
          all_ascii = true.
Proof. vm_compute. auto. Qed.

Lemma int16_two (s : string) (z : Z) :
  (String.length s <= 2)%nat -> int16 s = Ok z -> -15 <= z <= 255.
Proof.
  intros Hlen Hz.
  assert (Hok : small_channel s = true).
  { destruct small_channel_check as (H0 & H1 & H2).
    destruct s as [|a [|b [|c s]]].
    - exact H0.
    - apply (proj1 (forallb_forall _ _) H1 a (in_all_ascii a)).
    - pose proof (proj1 (forallb_forall _ _) H2 a (in_all_ascii a)) as Ha.
      apply (proj1 (forallb_forall _ _) Ha b (in_all_ascii b)).
    - simpl in Hlen. lia. }
  unfold small_channel in Hok. rewrite Hz in Hok.
  apply andb_true_iff in Hok. destruct Hok as [Hlo Hhi].
  apply Z.leb_le in Hlo, Hhi. lia.
Qed.

Lemma int16_hex2_check (upper : bool) :
  forallb (fun n => match int16 (hex2 upper n) with
                    | Ok z => z =? n
                    | Raise _ => false
                    end) (range 256) = true.
Proof. destruct upper; vm_compute; reflexivity. Qed.

Lemma int16_hex2 (upper : bool) (n : Z) :
  0 <= n <= 255 -> int16 (hex2 upper n) = Ok n.
Proof.
  intros Hn.
  assert (Hin : In n (range 256)) by (apply Arith.in_range; lia).
  pose proof (proj1 (forallb_forall _ _) (int16_hex2_check upper) n Hin) as H.
  cbv beta in H. destruct (int16 (hex2 upper n)) as [z|e]; [|discriminate].
  apply Z.eqb_eq in H. subst. reflexivity.
Qed.

Lemma hex_digit_not_hash (upper : bool) (n : Z) :
  0 <= n <= 255 -> Ascii.eqb (hex_digit upper (n / 16)) "#" = false.
Proof.
  intros Hn.
  assert (Hk : 0 <= n / 16 <= 15).
  { split; [apply Z.div_pos; lia|].
    assert (n / 16 < 16) by (apply Z.div_lt_upper_bound; lia). lia. }
  generalize dependent (n / 16). intros k Hk.
  assert (Hin : In k (range 16)) by (apply Arith.in_range; lia).
  assert (Hall : forallb (fun k => negb (Ascii.eqb (hex_digit upper k) "#")) (range 16)
                 = true) by (destruct upper; vm_compute; reflexivity).
  pose proof (proj1 (forallb_forall _ _) Hall k Hin) as H.
  cbv beta in H. apply negb_true_iff in H. exact H.
Qed.

Lemma int16_value_error (s : string) (e : Exc) : int16 s = Raise e -> e = ValueError.
Proof.
  unfold int16.
  destruct (strip_sign (skip_spaces s)) as [neg s2].
  destruct (scan_digits 16 false false 0 (strip_prefix16 s2))
    as [[v rest]|]; [|intros E; inversion E; reflexivity].
  destruct (skip_spaces rest); intros E; inversion E; reflexivity.
Qed.

Lemma substring_short (n m : nat) (s : string) :
  (String.length s <= n)%nat -> substring n m s = "".
Proof.
  revert n m. induction s as [|c s IH]; intros n m Hlen.
  - destruct n, m; reflexivity.
  - destruct n as [|n]; [simpl in Hlen; lia|].
    simpl. apply IH. simpl in Hlen. lia.
Qed.

Lemma substring_app (n m : nat) (s t : string) :
  (n + m <= String.length s)%nat -> substring n m (s ++ t) = substring n m s.
Proof.
  revert n m. induction s as [|c s IH]; intros n m Hlen.
  - simpl in Hlen. assert (n = 0%nat) by lia. assert (m = 0%nat) by lia. subst.
    destruct t; reflexivity.
  - destruct n as [|n].
    + destruct m as [|m]; [reflexivity|].
      simpl. f_equal. apply (IH 0%nat m). simpl in Hlen. lia.
    + simpl. apply IH. simpl in Hlen. lia.
Qed.

Lemma lstrip_app (c : ascii) (s t : string) :
  lstrip c s <> "" -> lstrip c (s ++ t) = lstrip c s ++ t.
Proof.
  induction s as [|a s IH]; intros Hne.
  - exfalso. apply Hne. reflexivity.
  - simpl in Hne |- *. destruct (Ascii.eqb a c).
    + apply IH. exact Hne.
    + reflexivity.
Qed.

End HexFacts.

Module RunFacts.
Import Pillow PillowFacts Script Checks ScriptFacts Reference.

Lemma hex_to_rgb_error (h : ColorStr) (e : Exc) :
  hex_to_rgb h = Raise e ->
  (h = None /\ e = AttributeError) \/ (h <> None /\ e = ValueError).
Proof.
  destruct h as [h|]; cbn [hex_to_rgb].
  - intros H. right. split; [discriminate|].
    unfold rbind in H.
    assert (Hint : forall s e', PyStr.int16 s = Raise e' -> e' = ValueError).
    { intros s e'. unfold PyStr.int16.
      destruct (PyStr.strip_sign (PyStr.skip_spaces s)) as [neg s2].
      destruct (PyStr.scan_digits 16 false false 0 (PyStr.strip_prefix16 s2))
        as [[v rest]|]; [|intros E; inversion E; reflexivity].
      destruct (PyStr.skip_spaces rest); intros E; inversion E; reflexivity. }
    destruct (PyStr.int16 (substring 0 2 (PyStr.lstrip "#" h))) eqn:H0;
      [|inversion H; subst; eapply Hint; eassumption].
    destruct (PyStr.int16 (substring 2 2 (PyStr.lstrip "#" h))) eqn:H2;
      [|inversion H; subst; eapply Hint; eassumption].
    destruct (PyStr.int16 (substring 4 2 (PyStr.lstrip "#" h))) eqn:H4;
      [discriminate|inversion H; subst; eapply Hint; eassumption].
  - intros H. inversion H. left. split; reflexivity.
Qed.

Section Rendering.
Context {R : Rasterizer}.

(** The first of the two colours that cannot be converted decides the
    exception. *)
Lemma render_bad_first size h1 rest e :
  0 <= size <= MAX_WIDTH -> hex_to_rgb h1 = Raise e ->
  render size (h1 :: rest) = Raise e.
Proof.
  intros Hs H1. unfold render. rewrite new_ok by exact Hs.
  cbn [rbind getitem nth_error]. rewrite H1. reflexivity.
Qed.

Lemma render_bad_second size h1 h2 rest c1 e :
  0 <= size <= MAX_WIDTH -> hex_to_rgb h1 = Ok c1 -> hex_to_rgb h2 = Raise e ->
  render size (h1 :: h2 :: rest) = Raise e.
Proof.
  intros Hs H1 H2. unfold render. rewrite new_ok by exact Hs.
  cbn [rbind getitem nth_error]. rewrite H1. cbn [rbind]. rewrite H2. reflexivity.
Qed.

Lemma render_one_color size h1 c1 :
  0 <= size <= MAX_WIDTH -> hex_to_rgb h1 = Ok c1 ->
  render size [h1] = Raise IndexError.
Proof.
  intros Hs H1. unfold render. rewrite new_ok by exact Hs.
  cbn [rbind getitem nth_error]. rewrite H1. reflexivity.
Qed.

Lemma render_no_color size :
  0 <= size <= MAX_WIDTH -> render size [] = Raise IndexError.
Proof.
  intros Hs. unfold render. rewrite new_ok by exact Hs. reflexivity.
Qed.

(** The stops after the second one are not looked at. *)
Lemma render_two size h1 h2 rest :
  render size (h1 :: h2 :: rest) = render size [h1; h2].
Proof. reflexivity. Qed.

(** The image in closed form. *)
Lemma render_closed size h1 h2 rest color1 color2 :
  0 <= size <= MAX_WIDTH ->
  hex_to_rgb h1 = Ok color1 -> hex_to_rgb h2 = Ok color2 ->
  render size (h1 :: h2 :: rest)
  = Ok (draw_all (overlay_ops size (3 * size / 25) (3 * size / 20))
                 (background size color1 color2)).
Proof.
  intros Hs H1 H2.
  destruct (render_ok size h1 h2 rest color1 color2 Hs H1 H2)
    as (dx & dy & Hdx & Hdy & _ & _ & Hr).
  assert (Hs31 : 0 <= size < 2 ^ 31) by size_lia.
  rewrite Scaled.scaled_0_12 in Hdx by exact Hs31.
  rewrite Scaled.scaled_0_15 in Hdy by exact Hs31.
  injection Hdx as <-. injection Hdy as <-. exact Hr.
Qed.

Context {H : Host}.

Lemma main_not_found w :
  path_exists "public/images/favicon.svg" = false ->
  main w = (Ok tt, {| files := files w;
                      stdout := stdout w ++ [ErrNotFound "public/images/favicon.svg"] |}).
Proof. intros Hex. unfold main. rewrite Hex. reflexivity. Qed.

Lemma main_few_colors w :
  path_exists "public/images/favicon.svg" = true ->
  (List.length (colors_at "public/images/favicon.svg") < 2)%nat ->
  main w = (Raise IndexError,
            {| files := files w;
               stdout := stdout w ++ warning_at "public/images/favicon.svg" |}).
Proof.
  intros Hex Hlen. unfold main. rewrite Hex. cbn [negb].
  unfold bind at 1. rewrite parse_svg_colors_spec.
  destruct (colors_at "public/images/favicon.svg") as [|h1 [|h2 rest]];
    [reflexivity | reflexivity | simpl in Hlen; lia].
Qed.

Lemma main_no_directory w h1 h2 rest e :
  path_exists "public/images/favicon.svg" = true ->
  colors_at "public/images/favicon.svg" = h1 :: h2 :: rest ->
  makedirs "public/icons" = Raise e ->
  main w = (Raise e,
            {| files := files w;
               stdout := (stdout w ++ warning_at "public/images/favicon.svg")
                         ++ [UsingColors h1 h2] |}).
Proof.
  intros Hex Hcol Hmk. unfold main. rewrite Hex. cbn [negb].
  unfold bind at 1. rewrite parse_svg_colors_spec, Hcol.
  unfold bind at 1. cbn [lift getitem nth_error].
  unfold bind at 1. cbn [lift getitem nth_error].
  unfold bind at 1. cbn [print files stdout].
  unfold bind at 1. rewrite Hmk. reflexivity.
Qed.

Lemma main_bad_color w h1 h2 rest e :
  path_exists "public/images/favicon.svg" = true ->
  colors_at "public/images/favicon.svg" = h1 :: h2 :: rest ->
  makedirs "public/icons" = Ok tt ->
  render 72 (h1 :: h2 :: rest) = Raise e ->
  main w = (Raise e,
            {| files := files w;
               stdout := ((stdout w ++ warning_at "public/images/favicon.svg")
                          ++ [UsingColors h1 h2]) ++ [Generating] |}).
Proof.
  intros Hex Hcol Hmk Hr. unfold main. rewrite Hex. cbn [negb].
  unfold bind at 1. rewrite parse_svg_colors_spec, Hcol.
  unfold bind at 1. cbn [lift getitem nth_error].
  unfold bind at 1. cbn [lift getitem nth_error].
  unfold bind at 1. cbn [print files stdout].
  unfold bind at 1. rewrite Hmk. cbn [lift].
  unfold bind at 1. cbn [print files stdout].
  unfold bind at 1. unfold PyDict.items. rewrite sizes_eq. cbn [for_each].
  unfold bind at 1. rewrite (create_icon_raises _ _ _ e) by exact Hr. reflexivity.
Qed.

End Rendering.

(** The images of a table of valid sizes, in closed form. *)
Lemma rendered_closed_map {R : Rasterizer} (h1 h2 : ColorStr) (rest : list ColorStr)
    (color1 color2 : Color) (table : list (Z * string)) :
  hex_to_rgb h1 = Ok color1 -> hex_to_rgb h2 = Ok color2 ->
  (forall size filename, In (size, filename) table -> 0 <= size <= MAX_WIDTH) ->
  map (fun '(size, filename) =>
         (icon_path filename, rendered size (h1 :: h2 :: rest))) table
  = map (fun '(size, filename) =>
           (icon_path filename,
            draw_all (overlay_ops size (3 * size / 25) (3 * size / 20))
                     (background size color1 color2))) table.
Proof.
  intros H1 H2 Hok. apply map_ext_in. intros [size filename] Hin. f_equal.
  unfold rendered.
  rewrite (render_closed size h1 h2 rest color1 color2 (Hok _ _ Hin) H1 H2).
  reflexivity.
Qed.

End RunFacts.

(** * The properties of the documentation *)

Module Properties.
Import Pillow PillowFacts Script Checks ScriptFacts Reference Samples.
Import GradientFacts RunFacts.

(** C7, as stated, fails: above the sizes the library accepts no canvas
    is allocated, and [render] raises before it has drawn anything. *)
Lemma render_canvas_size_counterexample :
  0 < 2147483648 /\ 0 < 536870911 /\
  hex_to_rgb (Some "#6366f1") = Ok (99, 102, 241) /\
  hex_to_rgb (Some "#8b5cf6") = Ok (139, 92, 246) /\
  render (R := box_rasterizer) 2147483648 [Some "#6366f1"; Some "#8b5cf6"]
  = Raise OverflowError /\
  render (R := box_rasterizer) 536870911 [Some "#6366f1"; Some "#8b5cf6"]
  = Raise MemoryError.
Proof. repeat split; reflexivity. Qed.

(** C7, amended: for every size [s > 0] whose canvas [Image.new]
    allocates and every gradient [g] of two colours, [render(s, g)]
    produces a canvas of exactly [s] by [s] pixels: [s] rows of [s]
    pixels each. *)
Theorem render_canvas_size {R : Rasterizer} (s : Z) (h1 h2 : ColorStr)
    (color1 color2 : Color) (canvas : Image) :
  0 < s -> Pillow.new s s (0, 0, 0, 0) = Ok canvas ->
  hex_to_rgb h1 = Ok color1 -> hex_to_rgb h2 = Ok color2 ->
  exists img, render s [h1; h2] = Ok img /\ has_size img s s.
Proof.
  intros Hs Hnew H1 H2. apply new_inv in Hnew.
  apply (render_has_size s h1 h2 [] color1 color2); [lia|assumption..].
Qed.

Lemma render_canvas_size_witness :
  exists img,
    render (R := box_rasterizer) 128 [Some "#6366f1"; Some "#8b5cf6"] = Ok img /\
    has_size img 128 128.
Proof.
  apply (render_canvas_size (R := box_rasterizer) 128 (Some "#6366f1") (Some "#8b5cf6")
           (99, 102, 241) (139, 92, 246)
           (repeat (repeat (0, 0, 0, 0) (Z.to_nat 128)) (Z.to_nat 128))).
  - lia.
  - reflexivity.
  - reflexivity.
  - reflexivity.
Defined.

(** C5, as stated, fails in two places.  The channel is computed in
    binary64: on the second of 49 rows from 0 to 49 the product
    [49 * (1 / 49)] falls short of 1 and is cut to 0, where the exact
    interpolation is 1.  And above the sizes the library accepts no row
    is filled at all. *)
Lemma gradient_rows_counterexample :
  row_fill 49 (0, 0, 0) (49, 49, 49) 1 = Ok (0, 0, 0, 255) /\
  interp 0 49 1 49 = 1 /\
  0 < INT_MAX /\
  render (R := box_rasterizer) INT_MAX [Some "#000000"; Some "#313131"]
  = Raise MemoryError.
Proof.
  split; [vm_compute; reflexivity|]. repeat split; reflexivity.
Qed.

(** C5, amended: for every size [s > 0] whose canvas [Image.new]
    allocates and every gradient of two Colors (8-bit channels), render
    fills the background row by row.  For each row [y] of [0 .. s - 1]
    the ratio is [t = y / s] and each channel is
    [int(c0 + (c1 - c0) * t)] in binary64 arithmetic; this is the exact
    interpolation [c0 + (c1 - c0) * y / s] rounded down, or one less
    where the exact value is an integer.  Every pixel of the row is
    painted that colour with alpha 255, whatever its horizontal position
    [x]; the overlay is then drawn on this canvas, and a pixel of the
    returned image has the colour of its row unless a node or a line has
    put its white on it. *)
Theorem gradient_rows {R : Rasterizer} (s : Z) (h1 h2 : ColorStr)
    (r1 g1 b1 r2 g2 b2 : Z) (canvas : Image) (x y : Z) :
  0 < s -> Pillow.new s s (0, 0, 0, 0) = Ok canvas ->
  hex_to_rgb h1 = Ok (r1, g1, b1) -> hex_to_rgb h2 = Ok (r2, g2, b2) ->
  is_color (r1, g1, b1) -> is_color (r2, g2, b2) ->
  0 <= x < s -> 0 <= y < s ->
  exists t r g b p,
    PyFloat.truediv y s = Ok t /\
    channel r1 r2 t = Ok r /\ channel g1 g2 t = Ok g /\ channel b1 b2 t = Ok b /\
    agrees r r1 r2 y s /\ agrees g g1 g2 y s /\ agrees b b1 b2 y s /\
    row_fill s (r1, g1, b1) (r2, g2, b2) y = Ok (r, g, b, 255) /\
    getpixel (background s (r1, g1, b1) (r2, g2, b2)) x y = Some (r, g, b, 255) /\
    render s [h1; h2]
    = Ok (draw_all (overlay_ops s (3 * s / 25) (3 * s / 20))
                   (background s (r1, g1, b1) (r2, g2, b2))) /\
    getpixel (draw_all (overlay_ops s (3 * s / 25) (3 * s / 20))
                       (background s (r1, g1, b1) (r2, g2, b2))) x y = Some p /\
    (p = (r, g, b, 255) \/ p = (255, 255, 255, 240) \/ p = (255, 255, 255, 180)).
Proof.
  intros Hs Hnew H1 H2 Hc1 Hc2 Hx Hy. apply new_inv in Hnew.
  assert (Hs31 : s <= 2 ^ 31) by size_lia.
  pose proof (StrFacts.hex_to_rgb_range h1 _ _ _ H1) as Hr1.
  pose proof (StrFacts.hex_to_rgb_range h2 _ _ _ H2) as Hr2.
  destruct (row_fill_ok s (r1, g1, b1) (r2, g2, b2) y Hy ltac:(lia) Hr1 Hr2)
    as (t & r & g & b & Ht & Hr & Hg & Hb & Hfill & Hbr & Hbg' & Hbb).
  cbn [fst snd] in Hr, Hg, Hb, Hbr, Hbg', Hbb. unfold between in Hbr, Hbg', Hbb.
  destruct (row_fill_agrees s r1 g1 b1 r2 g2 b2 y Hc1 Hc2 Hy Hs31)
    as (r' & g' & b' & Hfill' & Har & Hag & Hab & _).
  rewrite Hfill in Hfill'. inversion Hfill'; subst r' g' b'.
  unfold is_color in Hc1, Hc2.
  assert (Hbg : getpixel (background s (r1, g1, b1) (r2, g2, b2)) x y
                = Some (r, g, b, 255)).
  { unfold background. rewrite getpixel_background by assumption.
    unfold fill_or_blank. rewrite Hfill. rewrite getink_id by lia. reflexivity. }
  destruct (getpixel_draw_all (overlay_ops s (3 * s / 25) (3 * s / 20)) _ x y _ Hbg)
    as (p & Hp & Hcase).
  exists t, r, g, b, p.
  repeat (split; [assumption|]).
  split; [apply (render_closed s h1 h2 []); [lia|assumption..]|].
  split; [exact Hp|].
  destruct Hcase as [->|Hin]; [left; reflexivity|].
  right. cbn in Hin. intuition (subst; auto).
Qed.

Lemma gradient_rows_witness :
  exists t r g b p,
    PyFloat.truediv 64 128 = Ok t /\
    channel 99 139 t = Ok r /\ channel 102 92 t = Ok g /\ channel 241 246 t = Ok b /\
    agrees r 99 139 64 128 /\ agrees g 102 92 64 128 /\ agrees b 241 246 64 128 /\
    row_fill 128 (99, 102, 241) (139, 92, 246) 64 = Ok (r, g, b, 255) /\
    getpixel (background (R := box_rasterizer) 128 (99, 102, 241) (139, 92, 246)) 5 64
    = Some (r, g, b, 255) /\
    render (R := box_rasterizer) 128 [Some "#6366f1"; Some "#8b5cf6"]
    = Ok (draw_all (R := box_rasterizer)
            (overlay_ops 128 (3 * 128 / 25) (3 * 128 / 20))
            (background (R := box_rasterizer) 128 (99, 102, 241) (139, 92, 246))) /\
    getpixel (draw_all (R := box_rasterizer)
                (overlay_ops 128 (3 * 128 / 25) (3 * 128 / 20))
                (background (R := box_rasterizer) 128 (99, 102, 241) (139, 92, 246)))
             5 64 = Some p /\
    (p = (r, g, b, 255) \/ p = (255, 255, 255, 240) \/ p = (255, 255, 255, 180)).
Proof.
  apply (gradient_rows (R := box_rasterizer) 128 (Some "#6366f1") (Some "#8b5cf6")
           99 102 241 139 92 246
           (repeat (repeat (0, 0, 0, 0) (Z.to_nat 128)) (Z.to_nat 128)) 5 64).
  - lia.
  - reflexivity.
  - reflexivity.
  - reflexivity.
  - simpl; lia.
  - simpl; lia.
  - lia.
  - lia.
Defined.

(** C2, as stated, fails in two places.  With 72 rows from black to
    white, every pixel of the last row of the image [render] returns is
    filled with 251, four away from the end colour.  And above the sizes
    the library accepts [render] returns no image. *)
Lemma gradient_last_row_counterexample :
  hex_to_rgb (Some "#000000") = Ok (0, 0, 0) /\
  hex_to_rgb (Some "#ffffff") = Ok (255, 255, 255) /\
  row_fill 72 (0, 0, 0) (255, 255, 255) (72 - 1) = Ok (251, 251, 251, 255) /\
  (exists img,
     render (R := box_rasterizer) 72 [Some "#000000"; Some "#ffffff"] = Ok img /\
     forall x, 0 <= x < 72 -> getpixel img x (72 - 1) = Some (251, 251, 251, 255)) /\
  ~ (255 - 1 <= 251 <= 255 + 1) /\
  0 < 2147483648 /\
  render (R := box_rasterizer) 2147483648 [Some "#000000"; Some "#ffffff"]
  = Raise OverflowError.
Proof.
  split; [reflexivity|]. split; [reflexivity|].
  split; [vm_compute; reflexivity|]. split; [|split; [lia|split; reflexivity]].
  exists (rendered (R := box_rasterizer) 72 [Some "#000000"; Some "#ffffff"]).
  split.
  - apply (rendered_has_size 72 (Some "#000000") (Some "#ffffff") []
             (0, 0, 0) (255, 255, 255)); [size_lia | reflexivity | reflexivity].
  - intros x Hx.
    assert (Hrow : nth_error
                     (rendered (R := box_rasterizer) 72
                        [Some "#000000"; Some "#ffffff"]) (Z.to_nat (72 - 1))
                   = Some (repeat (251, 251, 251, 255) 72))
      by (vm_compute; reflexivity).
    unfold getpixel.
    rewrite (proj2 (Z.ltb_ge x 0)) by lia. cbn [orb Z.ltb Z.compare Z.sub Z.add Z.opp
      Z.pos_sub Pos.pred_double].
    change (72 - 1) with 71 in *. cbn [orb]. rewrite Hrow.
    rewrite nth_error_repeat by lia. reflexivity.
Qed.

(** C2, amended: for every size [s > 0] whose canvas [Image.new]
    allocates and every gradient of two Colors, in the image returned by
    [render(s, g)] the fill of row 0 is [gradient[0]] exactly, in all
    three channels; the fill of row [s - 1] lies between the two colours,
    and a channel of it is within 1 of [gradient[1]] as soon as the two
    colours are at most [s] apart in that channel (so always from 255
    rows on).  The fill of a row is the colour the gradient loop paints
    it with: every pixel of the row has it with alpha 255 in the
    returned image, unless the overlay has put its white on it. *)
Theorem gradient_ends {R : Rasterizer} (s : Z) (h1 h2 : ColorStr)
    (r1 g1 b1 r2 g2 b2 : Z) (canvas : Image) :
  0 < s -> Pillow.new s s (0, 0, 0, 0) = Ok canvas ->
  hex_to_rgb h1 = Ok (r1, g1, b1) -> hex_to_rgb h2 = Ok (r2, g2, b2) ->
  is_color (r1, g1, b1) -> is_color (r2, g2, b2) ->
  exists img r g b,
    render s [h1; h2] = Ok img /\
    img = draw_all (overlay_ops s (3 * s / 25) (3 * s / 20))
                   (background s (r1, g1, b1) (r2, g2, b2)) /\
    row_fill s (r1, g1, b1) (r2, g2, b2) 0 = Ok (r1, g1, b1, 255) /\
    row_fill s (r1, g1, b1) (r2, g2, b2) (s - 1) = Ok (r, g, b, 255) /\
    (forall x, 0 <= x < s ->
       getpixel (background s (r1, g1, b1) (r2, g2, b2)) x 0
       = Some (r1, g1, b1, 255) /\
       getpixel (background s (r1, g1, b1) (r2, g2, b2)) x (s - 1)
       = Some (r, g, b, 255) /\
       exists p0 p1,
         getpixel img x 0 = Some p0 /\ getpixel img x (s - 1) = Some p1 /\
         (p0 = (r1, g1, b1, 255) \/ p0 = (255, 255, 255, 240)
          \/ p0 = (255, 255, 255, 180)) /\
         (p1 = (r, g, b, 255) \/ p1 = (255, 255, 255, 240)
          \/ p1 = (255, 255, 255, 180))) /\
    between r1 r2 r /\ between g1 g2 g /\ between b1 b2 b /\
    (Z.abs (r2 - r1) <= s -> Z.abs (r - r2) <= 1) /\
    (Z.abs (g2 - g1) <= s -> Z.abs (g - g2) <= 1) /\
    (Z.abs (b2 - b1) <= s -> Z.abs (b - b2) <= 1).
Proof.
  intros Hs0 Hnew H1 H2 Hc1 Hc2. apply new_inv in Hnew.
  assert (Hs : 0 < s <= 2147483647) by size_lia.
  pose proof Hc1 as (Hr1 & Hg1 & Hb1). pose proof Hc2 as (Hr2 & Hg2 & Hb2).
  assert (H62 : s < 2 ^ 62) by lia.
  (* row 0 *)
  destruct (Arith.ratio_unit 0 s ltac:(lia) H62) as (q0 & Hq0 & HF0 & _ & Hz0).
  specialize (Hz0 eq_refl).
  assert (Hfill0 : row_fill s (r1, g1, b1) (r2, g2, b2) 0 = Ok (r1, g1, b1, 255)).
  { unfold row_fill, rbind. rewrite Hq0.
    rewrite !(Arith.channel_first _ _ q0) by (try assumption; lia). reflexivity. }
  (* row s - 1 *)
  destruct (row_fill_ok s (r1, g1, b1) (r2, g2, b2) (s - 1))
    as (t & r & g & b & Ht & Hr & Hg & Hb & Hfill & Hbr & Hbg & Hbb);
    [lia|assumption|simpl; lia|simpl; lia|].
  cbn [fst snd] in Hr, Hg, Hb, Hbr, Hbg, Hbb.
  assert (Hbg0 : forall x, 0 <= x < s ->
            getpixel (background s (r1, g1, b1) (r2, g2, b2)) x 0
            = Some (r1, g1, b1, 255)).
  { intros x Hx. unfold background. rewrite getpixel_background by lia.
    unfold fill_or_blank. rewrite Hfill0. rewrite getink_id by lia. reflexivity. }
  assert (Hbg1 : forall x, 0 <= x < s ->
            getpixel (background s (r1, g1, b1) (r2, g2, b2)) x (s - 1)
            = Some (r, g, b, 255)).
  { intros x Hx. unfold background. rewrite getpixel_background by lia.
    unfold fill_or_blank. rewrite Hfill. unfold between in Hbr, Hbg, Hbb.
    rewrite getink_id by lia. reflexivity. }
  assert (Hover : forall x y p,
            getpixel (background s (r1, g1, b1) (r2, g2, b2)) x y = Some p ->
            exists q,
              getpixel (draw_all (overlay_ops s (3 * s / 25) (3 * s / 20))
                          (background s (r1, g1, b1) (r2, g2, b2))) x y = Some q /\
              (q = p \/ q = (255, 255, 255, 240) \/ q = (255, 255, 255, 180))).
  { intros x y p Hp.
    destruct (getpixel_draw_all (overlay_ops s (3 * s / 25) (3 * s / 20)) _ x y _ Hp)
      as (q & Hq & Hcase).
    exists q. split; [exact Hq|].
    destruct Hcase as [->|Hin]; [left; reflexivity|].
    right. cbn in Hin. intuition (subst; auto). }
  exists (draw_all (overlay_ops s (3 * s / 25) (3 * s / 20))
            (background s (r1, g1, b1) (r2, g2, b2))), r, g, b.
  split; [apply (render_closed s h1 h2 []); [lia|assumption..]|].
  split; [reflexivity|]. split; [exact Hfill0|]. split; [exact Hfill|]. split.
  { intros x Hx. split; [apply Hbg0; exact Hx|]. split; [apply Hbg1; exact Hx|].
    destruct (Hover x 0 _ (Hbg0 x Hx)) as (p0 & Hp0 & Hcase0).
    destruct (Hover x (s - 1) _ (Hbg1 x Hx)) as (p1 & Hp1 & Hcase1).
    exists p0, p1. auto. }
  repeat (split; [assumption|]).
  assert (Hnear : forall c1 c2 z,
            0 <= c1 <= 255 -> 0 <= c2 <= 255 -> channel c1 c2 t = Ok z ->
            Z.abs (c2 - c1) <= s -> Z.abs (z - c2) <= 1).
  { intros c1 c2 z Hc1' Hc2' Hz Hd.
    destruct (Arith.channel_last c1 c2 s Hc1' Hc2' Hd ltac:(lia))
      as (q & z' & Hq & Hz' & Hb').
    rewrite Ht in Hq. inversion Hq; subst q.
    rewrite Hz in Hz'. inversion Hz'; subst z'. lia. }
  split; [intros Hd; apply (Hnear r1 r2 r); assumption|].
  split; [intros Hd; apply (Hnear g1 g2 g); assumption|].
  intros Hd; apply (Hnear b1 b2 b); assumption.
Qed.

Lemma gradient_ends_witness :
  exists img r g b,
    render (R := box_rasterizer) 128 [Some "#6366f1"; Some "#8b5cf6"] = Ok img /\
    img = draw_all (R := box_rasterizer)
            (overlay_ops 128 (3 * 128 / 25) (3 * 128 / 20))
            (background (R := box_rasterizer) 128 (99, 102, 241) (139, 92, 246)) /\
    row_fill 128 (99, 102, 241) (139, 92, 246) 0 = Ok (99, 102, 241, 255) /\
    row_fill 128 (99, 102, 241) (139, 92, 246) (128 - 1) = Ok (r, g, b, 255) /\
    (forall x, 0 <= x < 128 ->
       getpixel (background (R := box_rasterizer) 128 (99, 102, 241) (139, 92, 246)) x 0
       = Some (99, 102, 241, 255) /\
       getpixel (background (R := box_rasterizer) 128 (99, 102, 241) (139, 92, 246))
                x (128 - 1)
       = Some (r, g, b, 255) /\
       exists p0 p1,
         getpixel img x 0 = Some p0 /\ getpixel img x (128 - 1) = Some p1 /\
         (p0 = (99, 102, 241, 255) \/ p0 = (255, 255, 255, 240)
          \/ p0 = (255, 255, 255, 180)) /\
         (p1 = (r, g, b, 255) \/ p1 = (255, 255, 255, 240)
          \/ p1 = (255, 255, 255, 180))) /\
    between 99 139 r /\ between 102 92 g /\ between 241 246 b /\
    (Z.abs (139 - 99) <= 128 -> Z.abs (r - 139) <= 1) /\
    (Z.abs (92 - 102) <= 128 -> Z.abs (g - 92) <= 1) /\
    (Z.abs (246 - 241) <= 128 -> Z.abs (b - 246) <= 1).
Proof.
  apply (gradient_ends (R := box_rasterizer) 128 (Some "#6366f1") (Some "#8b5cf6")
           99 102 241 139 92 246
           (repeat (repeat (0, 0, 0, 0) (Z.to_nat 128)) (Z.to_nat 128))).
  - lia.
  - reflexivity.
  - reflexivity.
  - reflexivity.
  - simpl; lia.
  - simpl; lia.
Defined.

(** C9, as stated, fails: at a size above what the library accepts the
    three centres are computed, but no canvas is allocated and nothing
    is drawn. *)
Lemma overlay_geometry_counterexample :
  0 < 536870911 /\
  nodes 536870911 = Ok [ (268435455 - 64424509, 268435455);
                         (268435455, 268435455 - 80530636);
                         (268435455 + 64424509, 268435455) ] /\
  forall h1 h2 : ColorStr,
    render (R := box_rasterizer) 536870911 [h1; h2] = Raise MemoryError.
Proof.
  split; [lia|]. split; [vm_compute; reflexivity|]. intros h1 h2. reflexivity.
Qed.

(** C9, amended: for every size [s > 0] whose canvas [Image.new]
    allocates, render computes three node centres in a triangle:
    [int(s * 0.12)], which is [3 * s // 25], to the left and to the right
    of the centre [(s // 2, s // 2)], and [int(s * 0.15)], which is
    [3 * s // 20], above it; it draws each node as a filled circle (an
    ellipse in the square of half-side [max(4, s // 15)] around the
    centre) in white with alpha 240, and then exactly two lines in white
    with alpha 180 and width [max(2, s // 60)]: from the top node to the
    left one and from the top node to the right one. *)
Theorem overlay_geometry {R : Rasterizer} (s : Z) (h1 h2 : ColorStr)
    (color1 color2 : Color) (canvas : Image) :
  0 < s -> Pillow.new s s (0, 0, 0, 0) = Ok canvas ->
  hex_to_rgb h1 = Ok color1 -> hex_to_rgb h2 = Ok color2 ->
  let dx := 12 * s / 100 in
  let dy := 15 * s / 100 in
  let cx := s / 2 in
  let cy := s / 2 in
  let left := (cx - dx, cy) in
  let top := (cx, cy - dy) in
  let right := (cx + dx, cy) in
  let r := Z.max 4 (s / 15) in
  let w := Z.max 2 (s / 60) in
  scaled s PyFloat.lit_0_12 = Ok dx /\ scaled s PyFloat.lit_0_15 = Ok dy /\
  nodes s = Ok [left; top; right] /\
  node_radius s = r /\ line_width s = w /\
  render s [h1; h2]
  = Ok (draw_all
          [ Ellipse (cx - dx - r, cy - r) (cx - dx + r, cy + r) (255, 255, 255, 240);
            Ellipse (cx - r, cy - dy - r) (cx + r, cy - dy + r) (255, 255, 255, 240);
            Ellipse (cx + dx - r, cy - r) (cx + dx + r, cy + r) (255, 255, 255, 240);
            Line top left (255, 255, 255, 180) w;
            Line top right (255, 255, 255, 180) w ]
          (background s color1 color2)).
Proof.
  intros Hs Hnew H1 H2. apply new_inv in Hnew. cbv zeta.
  assert (Hs31 : 0 <= s < 2 ^ 31) by size_lia.
  assert (Hdx : 12 * s / 100 = 3 * s / 25)
    by (Z.to_euclidean_division_equations; lia).
  assert (Hdy : 15 * s / 100 = 3 * s / 20)
    by (Z.to_euclidean_division_equations; lia).
  rewrite Hdx, Hdy.
  pose proof (Scaled.scaled_0_12 s Hs31) as H12.
  pose proof (Scaled.scaled_0_15 s Hs31) as H15.
  split; [exact H12|]. split; [exact H15|]. split.
  { unfold nodes, rbind. rewrite H12, H15. reflexivity. }
  split; [reflexivity|]. split; [reflexivity|].
  apply (render_closed s h1 h2 []); [lia|assumption..].
Qed.

Lemma overlay_geometry_witness :
  let dx := 12 * 128 / 100 in
  let dy := 15 * 128 / 100 in
  let cx := 128 / 2 in
  let cy := 128 / 2 in
  let left := (cx - dx, cy) in
  let top := (cx, cy - dy) in
  let right := (cx + dx, cy) in
  let r := Z.max 4 (128 / 15) in
  let w := Z.max 2 (128 / 60) in
  scaled 128 PyFloat.lit_0_12 = Ok dx /\ scaled 128 PyFloat.lit_0_15 = Ok dy /\
  nodes 128 = Ok [left; top; right] /\
  node_radius 128 = r /\ line_width 128 = w /\
  render (R := box_rasterizer) 128 [Some "#6366f1"; Some "#8b5cf6"]
  = Ok (draw_all (R := box_rasterizer)
          [ Ellipse (cx - dx - r, cy - r) (cx - dx + r, cy + r) (255, 255, 255, 240);
            Ellipse (cx - r, cy - dy - r) (cx + r, cy - dy + r) (255, 255, 255, 240);
            Ellipse (cx + dx - r, cy - r) (cx + dx + r, cy + r) (255, 255, 255, 240);
            Line top left (255, 255, 255, 180) w;
            Line top right (255, 255, 255, 180) w ]
          (background (R := box_rasterizer) 128 (99, 102, 241) (139, 92, 246))).
Proof.
  apply (overlay_geometry (R := box_rasterizer) 128 (Some "#6366f1") (Some "#8b5cf6")
           (99, 102, 241) (139, 92, 246)
           (repeat (repeat (0, 0, 0, 0) (Z.to_nat 128)) (Z.to_nat 128))).
  - lia.
  - reflexivity.
  - reflexivity.
  - reflexivity.
Defined.

(** C10: render is deterministic.  What [create_icon] saves is a function
    of the size and the colours alone: whatever the state of the world
    and the output path, two invocations with the same size and gradient
    save the same pixel grid (or raise the same exception). *)
Theorem render_deterministic {R : Rasterizer} (size : Z) (colors : list ColorStr) :
  exists outcome : result Image,
    forall (output_path : string) (w : World),
      create_icon size colors output_path w
      = match outcome with
        | Ok img => (Ok tt, {| files := files w ++ [(output_path, img)];
                               stdout := stdout w ++ [Created output_path size] |})
        | Raise e => (Raise e, w)
        end.
Proof.
  destruct (render size colors) as [img|e] eqn:Hr.
  - destruct (empty img) eqn:He.
    + exists (Raise ValueError). intros output_path w.
      apply (create_icon_empty size colors output_path img); assumption.
    + exists (Ok img). intros output_path w. apply create_icon_ok; assumption.
  - exists (Raise e). intros output_path w. apply create_icon_raises. exact Hr.
Qed.

Lemma world_eta (w : World) :
  {| files := files w; stdout := stdout w ++ [] |} = w.
Proof. rewrite app_nil_r. destruct w; reflexivity. Qed.

(** C4: for every input path, if the document cannot be read, contains no
    gradient element, or its gradient has no stop, the Gradient Extractor
    returns the default gradient, whose two colours are (99,102,241) and
    (139,92,246); it never raises: every error of the parser is caught,
    reported by a warning, and replaced by the default. *)
Theorem extractor_fallback {H : Host} (svg_path : string) (w : World) :
  (exists colors w', parse_svg_colors svg_path w = (Ok colors, w')) /\
  (forall e, ET_parse svg_path = Raise e ->
     parse_svg_colors svg_path w
     = (Ok default_colors,
        {| files := files w; stdout := stdout w ++ [WarnParse e] |})) /\
  (forall root,
     ET_parse svg_path = Ok root ->
     ET.find_descendant (svg_ns "linearGradient") root = None ->
     ET.find_descendant "linearGradient" root = None ->
     parse_svg_colors svg_path w = (Ok default_colors, w)) /\
  (forall root g,
     ET_parse svg_path = Ok root -> first_gradient root = Some g ->
     ET.findall g (svg_ns "stop") = [] -> ET.findall g "stop" = [] ->
     parse_svg_colors svg_path w = (Ok default_colors, w)) /\
  map hex_to_rgb default_colors = [Ok (99, 102, 241); Ok (139, 92, 246)].
Proof.
  split; [|split; [|split; [|split]]].
  - rewrite parse_svg_colors_spec. eauto.
  - intros e He. rewrite parse_svg_colors_spec. unfold colors_at, warning_at.
    rewrite He. reflexivity.
  - intros root Hroot Hns Hplain. rewrite parse_svg_colors_spec.
    unfold colors_at, warning_at. rewrite Hroot.
    unfold stops_of, first_gradient. rewrite Hns, Hplain. rewrite world_eta.
    reflexivity.
  - intros root g Hroot Hg Hns Hplain. rewrite parse_svg_colors_spec.
    unfold colors_at, warning_at. rewrite Hroot.
    unfold stops_of, stop_colors. rewrite Hg, Hns, Hplain. rewrite world_eta.
    reflexivity.
  - reflexivity.
Qed.

Lemma extractor_fallback_witness :
  parse_svg_colors (H := unreadable_host) "public/images/favicon.svg" empty_world
  = (Ok default_colors, {| files := []; stdout := [WarnParse ParseError] |}).
Proof.
  apply (proj1 (proj2 (extractor_fallback (H := unreadable_host)
                         "public/images/favicon.svg" empty_world)) ParseError).
  reflexivity.
Defined.

(** C8: on a document whose first gradient declares the stop colours
    "#112233" and "#445566", in that order, the Gradient Extractor with
    the conversion to Colors yields (0x11,0x22,0x33) and
    (0x44,0x55,0x66), in that order. *)
Theorem extractor_two_stops {H : Host} (svg_path : string) (w : World)
    (root g s1 s2 : ET.Element) :
  ET_parse svg_path = Ok root -> first_gradient root = Some g ->
  (ET.findall g (svg_ns "stop") = [s1; s2] \/
   (ET.findall g (svg_ns "stop") = [] /\ ET.findall g "stop" = [s1; s2])) ->
  ET.get s1 "stop-color" = Some "#112233" ->
  ET.get s2 "stop-color" = Some "#445566" ->
  parse_svg_colors svg_path w = (Ok [Some "#112233"; Some "#445566"], w) /\
  map hex_to_rgb [Some "#112233"; Some "#445566"]
  = [Ok (0x11, 0x22, 0x33); Ok (0x44, 0x55, 0x66)].
Proof.
  intros Hroot Hg Hstops H1 H2. split; [|reflexivity].
  rewrite parse_svg_colors_spec. unfold colors_at, warning_at. rewrite Hroot.
  unfold stops_of, stop_colors. rewrite Hg.
  destruct Hstops as [Hns|[Hns Hplain]].
  - rewrite Hns. cbn [map]. rewrite H1, H2, world_eta. reflexivity.
  - rewrite Hns, Hplain. cbn [map]. rewrite H1, H2, world_eta. reflexivity.
Qed.

Lemma extractor_two_stops_witness :
  parse_svg_colors (H := two_stop_host) "public/images/favicon.svg" empty_world
  = (Ok [Some "#112233"; Some "#445566"], empty_world) /\
  map hex_to_rgb [Some "#112233"; Some "#445566"]
  = [Ok (0x11, 0x22, 0x33); Ok (0x44, 0x55, 0x66)].
Proof.
  apply (extractor_two_stops (H := two_stop_host) "public/images/favicon.svg"
           empty_world two_stop_document two_stop_gradient
           (ET.Elem (svg_ns "stop") [("offset", "0%"); ("stop-color", "#112233")] [])
           (ET.Elem (svg_ns "stop") [("offset", "100%"); ("stop-color", "#445566")] [])).
  - reflexivity.
  - reflexivity.
  - left. reflexivity.
  - reflexivity.
  - reflexivity.
Defined.

(** C6, as stated, fails: when the single stop is not a hexadecimal
    colour the Icon Renderer does not reach [colors[1]]; it fails at the
    conversion of [colors[0]], with a [ValueError]. *)
Lemma single_stop_counterexample :
  parse_svg_colors (H := named_stop_host) "public/images/favicon.svg" empty_world
  = (Ok [Some "red"], empty_world) /\
  render (R := box_rasterizer) 72 [Some "red"] = Raise ValueError /\
  ValueError <> IndexError.
Proof.
  split; [reflexivity|]. split; [vm_compute; reflexivity | discriminate].
Qed.

(** C6, amended: if the gradient of the input document has exactly one
    stop, the Gradient Extractor returns a list of one element, not the
    default pair.  The Icon Renderer then fails on it for every size:
    once its canvas is allocated, with the index error of [colors[1]]
    when the stop is a colour [hex_to_rgb] accepts, and otherwise
    already at [colors[0]], with the exception of the conversion
    ([AttributeError] for a missing [stop-color], [ValueError] for a
    string that is not hexadecimal).  So the pipeline does fail after a
    successful extraction: [main] itself raises the index error, at its
    first use of [colors[1]]. *)
Theorem single_stop_breaks {R : Rasterizer} {H : Host} (w : World)
    (root g s1 : ET.Element) :
  path_exists "public/images/favicon.svg" = true ->
  ET_parse "public/images/favicon.svg" = Ok root ->
  first_gradient root = Some g ->
  (ET.findall g (svg_ns "stop") = [s1] \/
   (ET.findall g (svg_ns "stop") = [] /\ ET.findall g "stop" = [s1])) ->
  let colors := [ET.get s1 "stop-color"] in
  parse_svg_colors "public/images/favicon.svg" w = (Ok colors, w) /\
  colors <> default_colors /\
  (forall size, exists e, render size colors = Raise e) /\
  (forall size canvas,
     Pillow.new size size (0, 0, 0, 0) = Ok canvas ->
     match hex_to_rgb (ET.get s1 "stop-color") with
     | Ok _ => render size colors = Raise IndexError
     | Raise e =>
         render size colors = Raise e /\
         ((ET.get s1 "stop-color" = None /\ e = AttributeError) \/
          (ET.get s1 "stop-color" <> None /\ e = ValueError))
     end) /\
  main w = (Raise IndexError, w).
Proof.
  intros Hex Hroot Hg Hstops. cbv zeta.
  assert (Hparse : parse_svg_colors "public/images/favicon.svg" w
                   = (Ok [ET.get s1 "stop-color"], w)).
  { rewrite parse_svg_colors_spec. unfold colors_at, warning_at. rewrite Hroot.
    unfold stops_of, stop_colors. rewrite Hg.
    destruct Hstops as [Hns|[Hns Hplain]].
    - rewrite Hns. cbn [map]. rewrite world_eta. reflexivity.
    - rewrite Hns, Hplain. cbn [map]. rewrite world_eta. reflexivity. }
  split; [exact Hparse|]. split; [discriminate|]. split; [|split].
  - intros size. unfold render.
    destruct (Pillow.new size size (0, 0, 0, 0)) as [img|e];
      [|exists e; reflexivity].
    cbn [rbind getitem nth_error].
    destruct (hex_to_rgb (ET.get s1 "stop-color")) as [c|e];
      [exists IndexError | exists e]; reflexivity.
  - intros size canvas Hnew.
    destruct (hex_to_rgb (ET.get s1 "stop-color")) as [c|e] eqn:Hc.
    + unfold render. rewrite Hnew. cbn [rbind getitem nth_error]. rewrite Hc.
      reflexivity.
    + split; [|apply RunFacts.hex_to_rgb_error; exact Hc].
      unfold render. rewrite Hnew. cbn [rbind getitem nth_error]. rewrite Hc.
      reflexivity.
  - unfold main. rewrite Hex. cbn [negb]. unfold bind at 1. rewrite Hparse.
    reflexivity.
Qed.

Lemma single_stop_breaks_witness :
  parse_svg_colors (H := one_stop_host) "public/images/favicon.svg" empty_world
  = (Ok [Some "#6366f1"], empty_world) /\
  [Some "#6366f1"] <> default_colors /\
  (forall size, exists e, render (R := box_rasterizer) size [Some "#6366f1"] = Raise e) /\
  (forall size canvas,
     Pillow.new size size (0, 0, 0, 0) = Ok canvas ->
     match hex_to_rgb (Some "#6366f1") with
     | Ok _ => render (R := box_rasterizer) size [Some "#6366f1"] = Raise IndexError
     | Raise e =>
         render (R := box_rasterizer) size [Some "#6366f1"] = Raise e /\
         ((Some "#6366f1" = None /\ e = AttributeError) \/
          (Some "#6366f1" <> None /\ e = ValueError))
     end) /\
  main (R := box_rasterizer) (H := one_stop_host) empty_world
  = (Raise IndexError, empty_world).
Proof.
  apply (single_stop_breaks (R := box_rasterizer) (H := one_stop_host) empty_world
           one_stop_document one_stop_gradient
           (ET.Elem (svg_ns "stop") [("offset", "0%"); ("stop-color", "#6366f1")] [])).
  - reflexivity.
  - reflexivity.
  - reflexivity.
  - left. reflexivity.
Defined.

(** C3, as stated, fails: a run on the default gradient writes 13 files,
    not 14, and says so. *)
Lemma icon_count_counterexample :
  exists w',
    main (R := box_rasterizer) (H := unreadable_host) empty_world = (Ok tt, w') /\
    List.length (files w') = 13%nat /\ List.length (files w') <> 14%nat /\
    In (Generated 13) (stdout w').
Proof.
  eexists. split.
  - apply (main_run (R := box_rasterizer) (H := unreadable_host) empty_world
             (Some "#6366f1") (Some "#8b5cf6") [] (99, 102, 241) (139, 92, 246));
      reflexivity.
  - cbn [files stdout]. rewrite length_app, length_map, sizes_eq.
    split; [reflexivity|]. split; [discriminate|].
    do 4 (apply in_or_app; right). left. reflexivity.
Qed.

(** C3, amended: the table that drives the generation gives each pixel
    size exactly one file name.  The key 152 is written twice in it, so
    size 152 is generated once, as 'apple-touch-icon-152.png'; the file
    'icon-152x152.png' is never among the written outputs; and a run
    writes exactly 13 icon files (and reports 13). *)
Theorem icons_written {R : Rasterizer} {H : Host} (w : World)
    (h1 h2 : ColorStr) (rest : list ColorStr) (color1 color2 : Color) :
  path_exists "public/images/favicon.svg" = true ->
  makedirs "public/icons" = Ok tt ->
  colors_at "public/images/favicon.svg" = h1 :: h2 :: rest ->
  hex_to_rgb h1 = Ok color1 -> hex_to_rgb h2 = Ok color2 ->
  NoDup (map fst sizes) /\
  In (152, "icon-152x152.png") sizes_display /\
  In (152, "apple-touch-icon-152.png") sizes_display /\
  (forall filename, In (152, filename) sizes -> filename = "apple-touch-icon-152.png") /\
  exists w' written,
    main w = (Ok tt, w') /\ files w' = (files w ++ written)%list /\
    map fst written = icon_files /\
    NoDup icon_files /\ List.length written = 13%nat /\
    In (icon_path "apple-touch-icon-152.png", rendered 152 (h1 :: h2 :: rest)) written /\
    ~ In (icon_path "icon-152x152.png") (map fst written) /\
    In (Generated 13) (stdout w').
Proof.
  intros Hex Hmk Hcol H1 H2.
  split.
  { rewrite sizes_eq. cbn [map fst].
    repeat (constructor; [cbn [In]; intros Hin; repeat destruct Hin as [Hin|Hin]; lia|]).
    constructor. }
  split; [cbn; tauto|]. split; [cbn; tauto|]. split.
  { rewrite sizes_eq. cbn [In]. intros filename Hin.
    repeat (destruct Hin as [Hin|Hin]; [inversion Hin; subst; try reflexivity; lia|]).
    contradiction. }
  eexists. eexists. split; [apply (main_run w h1 h2 rest color1 color2); assumption|].
  cbn [files stdout]. split; [reflexivity|].
  assert (Hnames : map fst (map (fun '(size, filename) =>
                     (icon_path filename, rendered size (h1 :: h2 :: rest))) sizes)
                   = icon_files).
  { rewrite sizes_eq. reflexivity. }
  split; [exact Hnames|]. split.
  { unfold icon_files, icon_path. cbn [map append].
    repeat (constructor; [cbn [In]; intros Hin; repeat destruct Hin as [Hin|Hin];
                          try discriminate; contradiction|]).
    constructor. }
  split; [rewrite length_map, sizes_eq; reflexivity|]. split.
  { rewrite sizes_eq. cbn [map In]. do 4 right. left. reflexivity. }
  split.
  { rewrite Hnames. unfold icon_files, icon_path. cbn [map append In].
    intros Hin. repeat destruct Hin as [Hin|Hin]; try discriminate; contradiction. }
  do 4 (apply in_or_app; right). left. reflexivity.
Qed.

Lemma icons_written_witness :
  NoDup (map fst sizes) /\
  In (152, "icon-152x152.png") sizes_display /\
  In (152, "apple-touch-icon-152.png") sizes_display /\
  (forall filename, In (152, filename) sizes -> filename = "apple-touch-icon-152.png") /\
  exists w' written,
    main (R := box_rasterizer) (H := unreadable_host) empty_world = (Ok tt, w') /\
    files w' = (files empty_world ++ written)%list /\
    map fst written = icon_files /\
    NoDup icon_files /\ List.length written = 13%nat /\
    In (icon_path "apple-touch-icon-152.png",
        rendered (R := box_rasterizer) 152 [Some "#6366f1"; Some "#8b5cf6"]) written /\
    ~ In (icon_path "icon-152x152.png") (map fst written) /\
    In (Generated 13) (stdout w').
Proof.
  apply (icons_written (R := box_rasterizer) (H := unreadable_host) empty_world
           (Some "#6366f1") (Some "#8b5cf6") [] (99, 102, 241) (139, 92, 246));
    reflexivity.
Defined.

(** C1, evaluated on the code: a run of [main] writes 'splash-screen.png'
    once, and what it writes there is the icon rendered at size 640: a
    square canvas of 640 by 640 pixels, not one of 640 by 1136. *)
Theorem splash_is_square {R : Rasterizer} {H : Host} (w : World)
    (h1 h2 : ColorStr) (rest : list ColorStr) (color1 color2 : Color) :
  path_exists "public/images/favicon.svg" = true ->
  makedirs "public/icons" = Ok tt ->
  colors_at "public/images/favicon.svg" = h1 :: h2 :: rest ->
  hex_to_rgb h1 = Ok color1 -> hex_to_rgb h2 = Ok color2 ->
  exists w' written,
    main w = (Ok tt, w') /\ files w' = (files w ++ written)%list /\
    (forall img, In (icon_path "splash-screen.png", img) written <->
                 img = rendered 640 (h1 :: h2 :: rest)) /\
    render 640 (h1 :: h2 :: rest) = Ok (rendered 640 (h1 :: h2 :: rest)) /\
    has_size (rendered 640 (h1 :: h2 :: rest)) 640 640 /\
    ~ has_size (rendered 640 (h1 :: h2 :: rest)) 640 1136.
Proof.
  intros Hex Hmk Hcol H1 H2.
  eexists. eexists. split; [apply (main_run w h1 h2 rest color1 color2); assumption|].
  cbn [files stdout]. split; [reflexivity|].
  destruct (rendered_has_size 640 h1 h2 rest color1 color2) as [Hr Hsz];
    [size_lia|assumption|assumption|].
  split; [|split; [exact Hr|split; [exact Hsz|]]].
  - intros img. rewrite sizes_eq. unfold icon_path. cbn [map append In]. split.
    + intros Hin.
      repeat (destruct Hin as [Hin|Hin]; [inversion Hin; reflexivity|]).
      contradiction.
    + intros ->. do 12 right. left. reflexivity.
  - intros [Hh _]. destruct Hsz as [Hh' _]. lia.
Qed.

Lemma splash_is_square_witness :
  exists w' written,
    main (R := box_rasterizer) (H := unreadable_host) empty_world = (Ok tt, w') /\
    files w' = (files empty_world ++ written)%list /\
    (forall img,
       In (icon_path "splash-screen.png", img) written <->
       img = rendered (R := box_rasterizer) 640 [Some "#6366f1"; Some "#8b5cf6"]) /\
    render (R := box_rasterizer) 640 [Some "#6366f1"; Some "#8b5cf6"]
    = Ok (rendered (R := box_rasterizer) 640 [Some "#6366f1"; Some "#8b5cf6"]) /\
    has_size (rendered (R := box_rasterizer) 640 [Some "#6366f1"; Some "#8b5cf6"])
             640 640 /\
    ~ has_size (rendered (R := box_rasterizer) 640 [Some "#6366f1"; Some "#8b5cf6"])
               640 1136.
Proof.
  apply (splash_is_square (R := box_rasterizer) (H := unreadable_host) empty_world
           (Some "#6366f1") (Some "#8b5cf6") [] (99, 102, 241) (139, 92, 246));
    reflexivity.
Defined.

End Properties.

(** * Further properties of [generate_proper_icons.py] *)

Module Behaviour.
Import Pillow PillowFacts Script Checks ScriptFacts.
Import Reference Samples GradientFacts HexFacts RunFacts.

(** X1: every row of the gradient has, in each channel, the exact linear
    interpolation [c1 + (c2 - c1) * y / s] rounded down; only where the
    exact value is an integer the float arithmetic may give one less.
    The whole row of the background has that colour. *)
Theorem gradient_exact {R : Rasterizer} (s r1 g1 b1 r2 g2 b2 y : Z) :
  0 < s <= INT_MAX ->
  is_color (r1, g1, b1) -> is_color (r2, g2, b2) -> 0 <= y < s ->
  exists r g b,
    row_fill s (r1, g1, b1) (r2, g2, b2) y = Ok (r, g, b, 255) /\
    (forall x, 0 <= x < s ->
       getpixel (background s (r1, g1, b1) (r2, g2, b2)) x y = Some (r, g, b, 255)) /\
    agrees r r1 r2 y s /\ agrees g g1 g2 y s /\ agrees b b1 b2 y s.
Proof.
  intros Hs Hc1 Hc2 Hy. unfold INT_MAX in Hs.
  destruct (row_fill_agrees s r1 g1 b1 r2 g2 b2 y Hc1 Hc2 Hy ltac:(lia))
    as (r & g & b & Hfill & Har & Hag & Hab & Hbr & Hbg & Hbb).
  exists r, g, b. split; [exact Hfill|]. split; [|auto].
  intros x Hx. unfold background. rewrite getpixel_background by lia.
  unfold fill_or_blank. rewrite Hfill.
  unfold is_color in Hc1, Hc2. unfold between in Hbr, Hbg, Hbb.
  rewrite getink_id by lia. reflexivity.
Qed.

Lemma gradient_exact_witness :
  exists r g b,
    row_fill 49 (0, 102, 241) (49, 92, 246) 1 = Ok (r, g, b, 255) /\
    (forall x, 0 <= x < 49 ->
       getpixel (background (R := box_rasterizer) 49 (0, 102, 241) (49, 92, 246)) x 1
       = Some (r, g, b, 255)) /\
    agrees r 0 49 1 49 /\ agrees g 102 92 1 49 /\ agrees b 241 246 1 49.
Proof.
  apply (gradient_exact (R := box_rasterizer) 49 0 102 241 49 92 246 1).
  - unfold INT_MAX; lia.
  - simpl; lia.
  - simpl; lia.
  - lia.
Defined.

(** X2: the gradient is monotone from top to bottom: from one row to a
    lower one no channel moves back towards the start colour. *)
Theorem gradient_monotone (s r1 g1 b1 r2 g2 b2 y1 y2 : Z) :
  0 < s <= INT_MAX ->
  is_color (r1, g1, b1) -> is_color (r2, g2, b2) -> 0 <= y1 <= y2 -> y2 < s ->
  exists ra ga ba rb gb bb,
    row_fill s (r1, g1, b1) (r2, g2, b2) y1 = Ok (ra, ga, ba, 255) /\
    row_fill s (r1, g1, b1) (r2, g2, b2) y2 = Ok (rb, gb, bb, 255) /\
    towards r1 r2 ra rb /\ towards g1 g2 ga gb /\ towards b1 b2 ba bb.
Proof.
  intros Hs Hc1 Hc2 Hy1 Hy2. unfold INT_MAX in Hs.
  destruct Hc1 as (Hr1 & Hg1 & Hb1), Hc2 as (Hr2 & Hg2 & Hb2).
  destruct (Arith.ratio_spec y1 s ltac:(lia) ltac:(lia)) as (q1 & Hq1 & _).
  destruct (Arith.ratio_spec y2 s ltac:(lia) ltac:(lia)) as (q2 & Hq2 & _).
  assert (Hch : forall c1 c2 y q,
            0 <= c1 <= 255 -> 0 <= c2 <= 255 -> 0 <= y < s ->
            PyFloat.truediv y s = Ok q -> exists z, channel c1 c2 q = Ok z).
  { intros c1 c2 y q Hc1 Hc2 Hy Hq.
    destruct (channel_agrees c1 c2 y s Hc1 Hc2 Hy ltac:(lia)) as (q' & z & Hq' & Hz & _).
    rewrite Hq in Hq'. injection Hq' as <-. exists z. exact Hz. }
  destruct (Hch r1 r2 y1 q1) as (ra & Hra); try assumption; try lia.
  destruct (Hch g1 g2 y1 q1) as (ga & Hga); try assumption; try lia.
  destruct (Hch b1 b2 y1 q1) as (ba & Hba); try assumption; try lia.
  destruct (Hch r1 r2 y2 q2) as (rb & Hrb); try assumption; try lia.
  destruct (Hch g1 g2 y2 q2) as (gb & Hgb); try assumption; try lia.
  destruct (Hch b1 b2 y2 q2) as (bb & Hbb); try assumption; try lia.
  exists ra, ga, ba, rb, gb, bb.
  unfold row_fill, rbind. rewrite Hq1, Hq2, Hra, Hga, Hba, Hrb, Hgb, Hbb.
  split; [reflexivity|]. split; [reflexivity|].
  split; [|split].
  - apply (channel_towards r1 r2 y1 y2 s q1 q2); try assumption; lia.
  - apply (channel_towards g1 g2 y1 y2 s q1 q2); try assumption; lia.
  - apply (channel_towards b1 b2 y1 y2 s q1 q2); try assumption; lia.
Qed.

Lemma gradient_monotone_witness :
  exists ra ga ba rb gb bb,
    row_fill 72 (99, 102, 241) (139, 92, 246) 10 = Ok (ra, ga, ba, 255) /\
    row_fill 72 (99, 102, 241) (139, 92, 246) 11 = Ok (rb, gb, bb, 255) /\
    towards 99 139 ra rb /\ towards 102 92 ga gb /\ towards 241 246 ba bb.
Proof.
  apply (gradient_monotone 72 99 102 241 139 92 246 10 11).
  - unfold INT_MAX; lia.
  - simpl; lia.
  - simpl; lia.
  - lia.
  - lia.
Defined.

(** X3: the node offsets are exact: [int(size * 0.12)] is [3 * size // 25]
    and [int(size * 0.15)] is [3 * size // 20] for every size up to
    [INT_MAX], the float product never falls on the wrong side of an
    integer.  So the image has a closed form in integer arithmetic,
    whenever [Image.new] has allocated its canvas. *)
Theorem node_offsets_exact {R : Rasterizer} (s : Z) (h1 h2 : ColorStr)
    (color1 color2 : Color) :
  0 <= s <= INT_MAX ->
  hex_to_rgb h1 = Ok color1 -> hex_to_rgb h2 = Ok color2 ->
  scaled s PyFloat.lit_0_12 = Ok (3 * s / 25) /\
  scaled s PyFloat.lit_0_15 = Ok (3 * s / 20) /\
  nodes s = Ok [ (s / 2 - 3 * s / 25, s / 2);
                 (s / 2, s / 2 - 3 * s / 20);
                 (s / 2 + 3 * s / 25, s / 2) ] /\
  forall canvas,
    Pillow.new s s (0, 0, 0, 0) = Ok canvas ->
    render s [h1; h2]
    = Ok (draw_all (overlay_ops s (3 * s / 25) (3 * s / 20))
                   (background s color1 color2)).
Proof.
  intros Hs H1 H2.
  assert (Hs31 : 0 <= s < 2 ^ 31) by (unfold INT_MAX in Hs; lia).
  pose proof (Scaled.scaled_0_12 s Hs31) as Hdx.
  pose proof (Scaled.scaled_0_15 s Hs31) as Hdy.
  split; [exact Hdx|]. split; [exact Hdy|]. split.
  - unfold nodes, rbind. rewrite Hdx, Hdy. reflexivity.
  - intros canvas Hnew. apply new_inv in Hnew.
    apply render_closed; [lia|assumption..].
Qed.

Lemma node_offsets_exact_witness :
  scaled 25 PyFloat.lit_0_12 = Ok (3 * 25 / 25) /\
  scaled 25 PyFloat.lit_0_15 = Ok (3 * 25 / 20) /\
  nodes 25 = Ok [ (25 / 2 - 3 * 25 / 25, 25 / 2);
                  (25 / 2, 25 / 2 - 3 * 25 / 20);
                  (25 / 2 + 3 * 25 / 25, 25 / 2) ] /\
  forall canvas,
    Pillow.new 25 25 (0, 0, 0, 0) = Ok canvas ->
    render (R := box_rasterizer) 25 [Some "#6366f1"; Some "#8b5cf6"]
    = Ok (draw_all (R := box_rasterizer) (overlay_ops 25 (3 * 25 / 25) (3 * 25 / 20))
            (background (R := box_rasterizer) 25 (99, 102, 241) (139, 92, 246))).
Proof.
  apply (node_offsets_exact (R := box_rasterizer) 25 (Some "#6366f1") (Some "#8b5cf6")
           (99, 102, 241) (139, 92, 246)).
  - unfold INT_MAX; lia.
  - reflexivity.
  - reflexivity.
Defined.

(** X4: from size 11 on the squares around the three nodes lie on the
    canvas, and they are never inverted; below 11 the square of the right
    node does not fit. *)
Theorem nodes_on_canvas (s : Z) :
  0 < s <= INT_MAX ->
  exists left top right,
    nodes s = Ok [left; top; right] /\
    (11 <= s ->
     on_canvas s (node_box s left) /\ on_canvas s (node_box s top) /\
     on_canvas s (node_box s right)) /\
    (s < 11 -> ~ on_canvas s (node_box s right)).
Proof.
  intros Hs.
  assert (Hs31 : 0 <= s < 2 ^ 31) by (unfold INT_MAX in Hs; lia).
  eexists. eexists. eexists. split.
  - unfold nodes, rbind.
    rewrite (Scaled.scaled_0_12 s Hs31), (Scaled.scaled_0_15 s Hs31). reflexivity.
  - cbv beta iota delta [on_canvas node_box node_radius]. split.
    + intros H11. clear Hs31. unfold INT_MAX in Hs.
      repeat split; Z.to_euclidean_division_equations; lia.
    + intros H11 Hc. clear Hs31. unfold INT_MAX in Hs.
      Z.to_euclidean_division_equations. lia.
Qed.

Lemma nodes_on_canvas_witness :
  exists left top right,
    nodes 72 = Ok [left; top; right] /\
    (11 <= 72 ->
     on_canvas 72 (node_box 72 left) /\ on_canvas 72 (node_box 72 top) /\
     on_canvas 72 (node_box 72 right)) /\
    (72 < 11 -> ~ on_canvas 72 (node_box 72 right)).
Proof.
  apply (nodes_on_canvas 72). unfold INT_MAX; lia.
Defined.

(** X5: the conversion reads back the usual notation of every colour:
    ['#%02x%02x%02x'] of three 8-bit channels, in lower or upper case,
    gives these channels. *)
Theorem hex_round_trip (upper : bool) (r g b : Z) :
  is_color (r, g, b) ->
  hex_to_rgb (Some (hex_color upper (r, g, b))) = Ok (r, g, b).
Proof.
  intros (Hr & Hg & Hb).
  unfold hex_to_rgb, hex_color.
  change ("#" ++ hex2 upper r ++ hex2 upper g ++ hex2 upper b)
    with (String "#" (String (hex_digit upper (r / 16))
            (String (hex_digit upper (r mod 16))
               (hex2 upper g ++ hex2 upper b)))).
  cbn [PyStr.lstrip]. change (Ascii.eqb "#" "#") with true. cbv iota.
  rewrite (hex_digit_not_hash upper r Hr).
  change (substring 0 2 (String (hex_digit upper (r / 16))
            (String (hex_digit upper (r mod 16)) (hex2 upper g ++ hex2 upper b))))
    with (hex2 upper r).
  change (substring 2 2 (String (hex_digit upper (r / 16))
            (String (hex_digit upper (r mod 16)) (hex2 upper g ++ hex2 upper b))))
    with (hex2 upper g).
  change (substring 4 2 (String (hex_digit upper (r / 16))
            (String (hex_digit upper (r mod 16)) (hex2 upper g ++ hex2 upper b))))
    with (hex2 upper b).
  rewrite !int16_hex2 by assumption. reflexivity.
Qed.

Lemma hex_round_trip_witness :
  hex_to_rgb (Some (hex_color true (139, 92, 246))) = Ok (139, 92, 246).
Proof.
  apply (hex_round_trip true 139 92 246). simpl; lia.
Defined.

(** X6: the conversion does not check that its input is a colour: a
    channel may carry a sign or a blank.  Whatever it accepts, a channel
    it returns lies between -15 and 255. *)
Theorem hex_channel_range (h : ColorStr) (r g b : Z) :
  hex_to_rgb h = Ok (r, g, b) ->
  -15 <= r <= 255 /\ -15 <= g <= 255 /\ -15 <= b <= 255.
Proof.
  unfold hex_to_rgb. destruct h as [h|]; [|discriminate].
  unfold rbind.
  destruct (PyStr.int16 (substring 0 2 (PyStr.lstrip "#" h))) as [r'|] eqn:Hr; [|discriminate].
  destruct (PyStr.int16 (substring 2 2 (PyStr.lstrip "#" h))) as [g'|] eqn:Hg; [|discriminate].
  destruct (PyStr.int16 (substring 4 2 (PyStr.lstrip "#" h))) as [b'|] eqn:Hb; [|discriminate].
  intros H. inversion H; subst.
  split; [|split]; eapply int16_two; try eassumption; apply StrFacts.substring_length.
Qed.

Lemma hex_channel_range_witness :
  -15 <= -15 <= 255 /\ -15 <= 15 <= 255 /\ -15 <= 255 <= 255.
Proof.
  apply (hex_channel_range (Some "#-f fff") (-15) 15 255). reflexivity.
Defined.

(** X7: a colour with fewer than five characters after the leading ['#']
    is rejected with a [ValueError] (the short notation ['#fff'] is not
    read); a string is never rejected with another exception. *)
Theorem hex_short_rejected (h : string) :
  (forall e, hex_to_rgb (Some h) = Raise e -> e = ValueError) /\
  ((String.length (PyStr.lstrip "#" h) < 5)%nat ->
   hex_to_rgb (Some h) = Raise ValueError).
Proof.
  split.
  - intros e He. destruct (hex_to_rgb_error _ _ He) as [[Hn _]|[_ Hv]];
      [discriminate | exact Hv].
  - intros Hlen. unfold hex_to_rgb, rbind.
    rewrite (substring_short 4 2) by lia.
    destruct (PyStr.int16 (substring 0 2 (PyStr.lstrip "#" h))) as [r|e] eqn:Hr;
      [|rewrite (int16_value_error _ _ Hr); reflexivity].
    destruct (PyStr.int16 (substring 2 2 (PyStr.lstrip "#" h))) as [g|e] eqn:Hg;
      [|rewrite (int16_value_error _ _ Hg); reflexivity].
    reflexivity.
Qed.

Lemma hex_short_rejected_witness :
  hex_to_rgb (Some "#fff") = Raise ValueError.
Proof.
  apply (proj2 (hex_short_rejected "#fff")). simpl. lia.
Defined.

(** X8: what follows the first six characters of a colour is not read:
    the alpha of ['#rrggbbaa'], or any other text, is dropped silently. *)
Theorem hex_tail_ignored (h t : string) :
  (6 <= String.length (PyStr.lstrip "#" h))%nat ->
  hex_to_rgb (Some (h ++ t)) = hex_to_rgb (Some h).
Proof.
  intros Hlen. unfold hex_to_rgb.
  rewrite lstrip_app.
  - rewrite !substring_app by lia. reflexivity.
  - intros Heq. rewrite Heq in Hlen. simpl in Hlen. lia.
Qed.

Lemma hex_tail_ignored_witness :
  hex_to_rgb (Some ("#11223344" ++ " is a colour")) = hex_to_rgb (Some "#11223344").
Proof.
  apply (hex_tail_ignored "#11223344" " is a colour"). simpl. lia.
Defined.

(** X9: once [Image.new] has allocated the canvas, rendering fails only
    for its colours: with an [IndexError] when there are fewer than two,
    with an [AttributeError] when one of the first two is missing, with
    a [ValueError] when one is not hexadecimal; the first of them in the
    order [colors[0]], [colors[1]] decides.  The arithmetic never fails,
    and the other colours are not looked at. *)
Theorem render_outcome {R : Rasterizer} (size : Z) (colors : list ColorStr)
    (canvas : Image) :
  Pillow.new size size (0, 0, 0, 0) = Ok canvas ->
  match colors with
  | [] => render size colors = Raise IndexError
  | h1 :: rest =>
      match hex_to_rgb h1 with
      | Raise e =>
          render size colors = Raise e /\
          ((h1 = None /\ e = AttributeError) \/ (h1 <> None /\ e = ValueError))
      | Ok color1 =>
          match rest with
          | [] => render size colors = Raise IndexError
          | h2 :: _ =>
              match hex_to_rgb h2 with
              | Raise e =>
                  render size colors = Raise e /\
                  ((h2 = None /\ e = AttributeError) \/ (h2 <> None /\ e = ValueError))
              | Ok color2 =>
                  exists img, render size colors = Ok img /\ has_size img size size /\
                              render size [h1; h2] = Ok img
              end
          end
      end
  end.
Proof.
  intros Hnew. apply new_inv in Hnew.
  assert (Hs : 0 <= size <= MAX_WIDTH) by lia.
  destruct colors as [|h1 rest]; [apply render_no_color; exact Hs|].
  destruct (hex_to_rgb h1) as [color1|e1] eqn:H1.
  - destruct rest as [|h2 rest]; [apply (render_one_color size h1 color1); assumption|].
    destruct (hex_to_rgb h2) as [color2|e2] eqn:H2.
    + destruct (render_has_size size h1 h2 rest color1 color2 Hs H1 H2) as (img & Hr & Hsz).
      exists img. split; [exact Hr|]. split; [exact Hsz|].
      rewrite <- (render_two size h1 h2 rest). exact Hr.
    + split; [apply (render_bad_second size h1 h2 rest color1); assumption|].
      apply hex_to_rgb_error. exact H2.
  - split; [apply render_bad_first; assumption|].
    apply hex_to_rgb_error. exact H1.
Qed.

Lemma render_outcome_witness :
  render (R := box_rasterizer) 72 [Some "#6366f1"; None] = Raise AttributeError /\
  (((None : ColorStr) = None /\ AttributeError = AttributeError) \/
   ((None : ColorStr) <> None /\ AttributeError = ValueError)).
Proof.
  apply (render_outcome (R := box_rasterizer) 72 [Some "#6366f1"; None]
           (repeat (repeat (0, 0, 0, 0) (Z.to_nat 72)) (Z.to_nat 72))).
  reflexivity.
Defined.

End Behaviour.

Module Runs.
Import Pillow PillowFacts Script Checks ScriptFacts.
Import Reference Samples GradientFacts HexFacts RunFacts.

(** X10: a run writes all the icons or none.  Whatever the host, the
    script ends normally; either it has written nothing and its last
    line of output is an error message, or the SVG file exists, its
    first two colours are hexadecimal, the directory could be made, and
    the 13 files of the table have been written. *)
Theorem run_all_or_nothing {R : Rasterizer} {H : Host} (w : World) :
  exists out,
    stdout (run w) = (stdout w ++ out)%list /\
    ((files (run w) = files w /\
      exists out' o,
        out = (out' ++ [o])%list /\
        (o = ErrNotFound "public/images/favicon.svg" \/ exists e, o = ErrMessage e)) \/
     (exists h1 h2 rest color1 color2,
        path_exists "public/images/favicon.svg" = true /\
        makedirs "public/icons" = Ok tt /\
        colors_at "public/images/favicon.svg" = h1 :: h2 :: rest /\
        hex_to_rgb h1 = Ok color1 /\ hex_to_rgb h2 = Ok color2 /\
        files (run w)
        = (files w ++
           map (fun '(size, filename) =>
                  (icon_path filename, rendered size (h1 :: h2 :: rest))) sizes)%list /\
        exists out', out = (out' ++ [Generated 13; TestHint])%list)).
Proof.
  assert (Hfail : forall e out0,
            main w = (Raise e, {| files := files w; stdout := stdout w ++ out0 |}) ->
            run w = {| files := files w;
                       stdout := stdout w ++ (out0 ++ [ErrMessage e]) |}).
  { intros e out0 Hm. unfold run. rewrite Hm. cbn [print snd files stdout].
    rewrite <- app_assoc. reflexivity. }
  assert (Hnone : forall e out0,
            main w = (Raise e, {| files := files w; stdout := stdout w ++ out0 |}) ->
            exists out,
              stdout (run w) = (stdout w ++ out)%list /\
              ((files (run w) = files w /\
                exists out' o,
                  out = (out' ++ [o])%list /\
                  (o = ErrNotFound "public/images/favicon.svg" \/
                   exists e, o = ErrMessage e)) \/
               (exists h1 h2 rest color1 color2,
                  path_exists "public/images/favicon.svg" = true /\
                  makedirs "public/icons" = Ok tt /\
                  colors_at "public/images/favicon.svg" = h1 :: h2 :: rest /\
                  hex_to_rgb h1 = Ok color1 /\ hex_to_rgb h2 = Ok color2 /\
                  files (run w)
                  = (files w ++
                     map (fun '(size, filename) =>
                            (icon_path filename, rendered size (h1 :: h2 :: rest)))
                         sizes)%list /\
                  exists out', out = (out' ++ [Generated 13; TestHint])%list))).
  { intros e out0 Hm. rewrite (Hfail e out0 Hm). cbn [files stdout].
    eexists. split; [reflexivity|]. left. split; [reflexivity|].
    exists out0, (ErrMessage e). split; [reflexivity|]. right. exists e. reflexivity. }
  destruct (path_exists "public/images/favicon.svg") eqn:Hex.
  2:{ unfold run. rewrite (main_not_found w Hex). cbn [files stdout].
      eexists. split; [reflexivity|]. left. split; [reflexivity|].
      exists [], (ErrNotFound "public/images/favicon.svg").
      split; [reflexivity | left; reflexivity]. }
  destruct (colors_at "public/images/favicon.svg") as [|h1 [|h2 rest]] eqn:Hcol.
  - apply (Hnone IndexError (warning_at "public/images/favicon.svg")).
    apply (main_few_colors w Hex). rewrite Hcol. simpl. lia.
  - apply (Hnone IndexError (warning_at "public/images/favicon.svg")).
    apply (main_few_colors w Hex). rewrite Hcol. simpl. lia.
  - destruct (makedirs "public/icons") as [[]|e] eqn:Hmk.
    2:{ apply (Hnone e (warning_at "public/images/favicon.svg" ++ [UsingColors h1 h2])%list).
        rewrite (main_no_directory w h1 h2 rest e Hex Hcol Hmk), <- app_assoc.
        reflexivity. }
    assert (Hbad : forall e,
              render 72 (h1 :: h2 :: rest) = Raise e ->
              main w = (Raise e,
                        {| files := files w;
                           stdout := stdout w
                                     ++ (warning_at "public/images/favicon.svg"
                                         ++ [UsingColors h1 h2; Generating]) |})).
    { intros e Hr. rewrite (main_bad_color w h1 h2 rest e Hex Hcol Hmk Hr).
      rewrite <- !app_assoc. reflexivity. }
    destruct (hex_to_rgb h1) as [color1|e1] eqn:H1.
    2:{ apply (Hnone e1 _ (Hbad e1 (render_bad_first 72 h1 _ e1
                                      ltac:(size_lia) H1))). }
    destruct (hex_to_rgb h2) as [color2|e2] eqn:H2.
    2:{ apply (Hnone e2 _ (Hbad e2 (render_bad_second 72 h1 h2 rest color1 e2
                                      ltac:(size_lia) H1 H2))). }
    unfold run. rewrite (main_run w h1 h2 rest color1 color2 Hex Hmk Hcol H1 H2).
    cbn [files stdout].
    eexists. split; [reflexivity|]. right.
    exists h1, h2, rest, color1, color2.
    repeat (split; [first [reflexivity | assumption]|]).
    exists (warning_at "public/images/favicon.svg" ++ [UsingColors h1 h2; Generating]
            ++ map (fun '(size, filename) => Created (icon_path filename) size) sizes)%list.
    rewrite <- !app_assoc. reflexivity.
Qed.

(** X11: a gradient of more than two stops is rendered as one of its
    first two stops: two hosts that differ only in the stops after the
    second produce the same files and the same output. *)
Theorem extra_stops_ignored {R : Rasterizer} (H1 H2 : Host) (w : World)
    (h1 h2 : ColorStr) (rest : list ColorStr) :
  @path_exists H1 "public/images/favicon.svg"
  = @path_exists H2 "public/images/favicon.svg" ->
  @makedirs H1 "public/icons" = @makedirs H2 "public/icons" ->
  @warning_at H1 "public/images/favicon.svg"
  = @warning_at H2 "public/images/favicon.svg" ->
  @colors_at H1 "public/images/favicon.svg" = h1 :: h2 :: rest ->
  @colors_at H2 "public/images/favicon.svg" = [h1; h2] ->
  run (H := H1) w = run (H := H2) w.
Proof.
  intros Hex Hmk Hwarn Hc1 Hc2.
  assert (Hmain : main (H := H1) w = main (H := H2) w).
  { destruct (@path_exists H2 "public/images/favicon.svg") eqn:Hex2.
    2:{ rewrite (main_not_found (H := H1) w Hex), (main_not_found (H := H2) w Hex2).
        reflexivity. }
    destruct (@makedirs H2 "public/icons") as [[]|e] eqn:Hmk2.
    2:{ rewrite (main_no_directory (H := H1) w h1 h2 rest e Hex Hc1 Hmk).
        rewrite (main_no_directory (H := H2) w h1 h2 [] e Hex2 Hc2 Hmk2).
        rewrite Hwarn. reflexivity. }
    assert (Hbad : forall e, render 72 [h1; h2] = Raise e ->
                             main (H := H1) w = main (H := H2) w).
    { intros e Hr.
      rewrite (main_bad_color (H := H1) w h1 h2 rest e Hex Hc1 Hmk Hr).
      rewrite (main_bad_color (H := H2) w h1 h2 [] e Hex2 Hc2 Hmk2 Hr).
      rewrite Hwarn. reflexivity. }
    destruct (hex_to_rgb h1) as [color1|e1] eqn:E1.
    2:{ apply (Hbad e1). apply render_bad_first; [size_lia | exact E1]. }
    destruct (hex_to_rgb h2) as [color2|e2] eqn:E2.
    2:{ apply (Hbad e2).
        apply (render_bad_second 72 h1 h2 [] color1); [size_lia | | ];
          assumption. }
    rewrite (main_run (H := H1) w h1 h2 rest color1 color2 Hex Hmk Hc1 E1 E2).
    rewrite (main_run (H := H2) w h1 h2 [] color1 color2 Hex2 Hmk2 Hc2 E1 E2).
    rewrite Hwarn. reflexivity. }
  unfold run. rewrite Hmain. reflexivity.
Qed.

Lemma extra_stops_ignored_witness :
  run (R := box_rasterizer) (H := three_stop_host) empty_world
  = run (R := box_rasterizer) (H := two_stop_host) empty_world.
Proof.
  apply (extra_stops_ignored (R := box_rasterizer) three_stop_host two_stop_host
           empty_world (Some "#112233") (Some "#445566") [Some "#778899"]);
    reflexivity.
Defined.

(** X12: when the SVG file exists but cannot be parsed, the run still
    writes the 13 icons, all from the default gradient: a warning, then
    every icon of the table with the gradient from (99,102,241) to
    (139,92,246) and the overlay at the exact offsets. *)
Theorem fallback_run {R : Rasterizer} {H : Host} (w : World) (e : Exc) :
  path_exists "public/images/favicon.svg" = true ->
  ET_parse "public/images/favicon.svg" = Raise e ->
  makedirs "public/icons" = Ok tt ->
  run w
  = {| files := files w ++
                map (fun '(size, filename) =>
                       (icon_path filename,
                        draw_all (overlay_ops size (3 * size / 25) (3 * size / 20))
                                 (background size (99, 102, 241) (139, 92, 246))))
                    sizes;
       stdout := stdout w ++
                 [WarnParse e; UsingColors (Some "#6366f1") (Some "#8b5cf6"); Generating]
                 ++ map (fun '(size, filename) => Created (icon_path filename) size) sizes
                 ++ [Generated 13; TestHint] |}.
Proof.
  intros Hex Hparse Hmk. unfold run.
  assert (Hcol : colors_at "public/images/favicon.svg"
                 = [Some "#6366f1"; Some "#8b5cf6"]).
  { unfold colors_at. rewrite Hparse. reflexivity. }
  assert (Hwarn : warning_at "public/images/favicon.svg" = [WarnParse e]).
  { unfold warning_at. rewrite Hparse. reflexivity. }
  rewrite (main_run w (Some "#6366f1") (Some "#8b5cf6") [] (99, 102, 241) (139, 92, 246)
             Hex Hmk Hcol eq_refl eq_refl).
  rewrite Hwarn.
  rewrite (rendered_closed_map (Some "#6366f1") (Some "#8b5cf6") []
             (99, 102, 241) (139, 92, 246) sizes eq_refl eq_refl).
  - reflexivity.
  - intros size filename Hin. apply sizes_in_range in Hin. lia.
Qed.

Lemma fallback_run_witness :
  run (R := box_rasterizer) (H := unreadable_host) empty_world
  = {| files := files empty_world ++
                map (fun '(size, filename) =>
                       (icon_path filename,
                        draw_all (R := box_rasterizer)
                          (overlay_ops size (3 * size / 25) (3 * size / 20))
                          (background (R := box_rasterizer) size
                             (99, 102, 241) (139, 92, 246))))
                    sizes;
       stdout := stdout empty_world ++
                 [WarnParse ParseError;
                  UsingColors (Some "#6366f1") (Some "#8b5cf6"); Generating]
                 ++ map (fun '(size, filename) => Created (icon_path filename) size) sizes
                 ++ [Generated 13; TestHint] |}.
Proof.
  apply (fallback_run (R := box_rasterizer) (H := unreadable_host) empty_world ParseError);
    reflexivity.
Defined.

(** X13: a stop without a [stop-color] attribute is not replaced by a
    default: the extractor returns [None] for it, without a warning, and
    when it is one of the first two the run stops at the first icon with
    an [AttributeError]; the directory has been made, no file is
    written. *)
Theorem missing_stop_color {R : Rasterizer} {H : Host} (w : World)
    (root g s1 s2 : ET.Element) (more : list ET.Element) :
  path_exists "public/images/favicon.svg" = true ->
  ET_parse "public/images/favicon.svg" = Ok root ->
  first_gradient root = Some g ->
  (ET.findall g (svg_ns "stop") = s1 :: s2 :: more \/
   (ET.findall g (svg_ns "stop") = [] /\ ET.findall g "stop" = s1 :: s2 :: more)) ->
  ET.get s1 "stop-color" = None ->
  makedirs "public/icons" = Ok tt ->
  let colors := None :: ET.get s2 "stop-color"
                :: map (fun stop => ET.get stop "stop-color") more in
  parse_svg_colors "public/images/favicon.svg" w = (Ok colors, w) /\
  main w = (Raise AttributeError,
            {| files := files w;
               stdout := stdout w
                         ++ [UsingColors None (ET.get s2 "stop-color"); Generating] |}) /\
  run w = {| files := files w;
             stdout := stdout w
                       ++ [UsingColors None (ET.get s2 "stop-color"); Generating;
                           ErrMessage AttributeError] |}.
Proof.
  intros Hex Hroot Hg Hstops Hnone Hmk. cbv zeta.
  assert (Hcol : colors_at "public/images/favicon.svg"
                 = None :: ET.get s2 "stop-color"
                   :: map (fun stop => ET.get stop "stop-color") more).
  { unfold colors_at. rewrite Hroot. unfold stops_of, stop_colors. rewrite Hg.
    destruct Hstops as [Hns|[Hns Hplain]].
    - rewrite Hns. cbn [map]. rewrite Hnone. reflexivity.
    - rewrite Hns, Hplain. cbn [map]. rewrite Hnone. reflexivity. }
  assert (Hwarn : warning_at "public/images/favicon.svg" = []).
  { unfold warning_at. rewrite Hroot. reflexivity. }
  assert (Hmain : main w
                  = (Raise AttributeError,
                     {| files := files w;
                        stdout := stdout w
                                  ++ [UsingColors None (ET.get s2 "stop-color");
                                      Generating] |})).
  { rewrite (main_bad_color w None (ET.get s2 "stop-color")
               (map (fun stop => ET.get stop "stop-color") more) AttributeError
               Hex Hcol Hmk).
    - rewrite Hwarn, app_nil_r, <- app_assoc. reflexivity.
    - apply render_bad_first; [size_lia | reflexivity]. }
  split; [|split].
  - rewrite parse_svg_colors_spec, Hcol, Hwarn, app_nil_r. destruct w; reflexivity.
  - exact Hmain.
  - unfold run. rewrite Hmain. cbn [print snd files stdout].
    rewrite <- app_assoc. reflexivity.
Qed.

Lemma missing_stop_color_witness :
  parse_svg_colors (H := bare_stop_host) "public/images/favicon.svg" empty_world
  = (Ok [None; Some "#445566"], empty_world) /\
  main (R := box_rasterizer) (H := bare_stop_host) empty_world
  = (Raise AttributeError,
     {| files := [];
        stdout := [] ++ [UsingColors None (Some "#445566"); Generating] |}) /\
  run (R := box_rasterizer) (H := bare_stop_host) empty_world
  = {| files := [];
       stdout := [] ++ [UsingColors None (Some "#445566"); Generating;
                        ErrMessage AttributeError] |}.
Proof.
  apply (missing_stop_color (R := box_rasterizer) (H := bare_stop_host) empty_world
           bare_stop_document bare_stop_gradient
           (ET.Elem (svg_ns "stop") [("offset", "0%")] [])
           (ET.Elem (svg_ns "stop") [("offset", "100%"); ("stop-color", "#445566")] [])
           []).
  - reflexivity.
  - reflexivity.
  - reflexivity.
  - left. reflexivity.
  - reflexivity.
  - reflexivity.
Defined.

End Runs.

(** * Facts about [generate_icons.py] *)

Module PlaceholderFacts.
Import Pillow PillowFacts Script Checks ScriptFacts Reference.
Import Placeholder PlaceholderChecks.

Lemma append_nil_r (s : string) : s ++ "" = s.
Proof. induction s as [|c s IH]; simpl; [reflexivity | rewrite IH; reflexivity]. Qed.

Lemma append_assoc (s t u : string) : (s ++ t) ++ u = s ++ (t ++ u).
Proof. induction s as [|c s IH]; simpl; [reflexivity | rewrite IH; reflexivity]. Qed.

Lemma mapM_ext {A B : Type} (f g : A -> result B) (xs : list A) :
  (forall x, f x = g x) -> mapM f xs = mapM g xs.
Proof.
  intros Hfg. induction xs as [|x xs IH]; simpl; [reflexivity|].
  rewrite Hfg, IH. reflexivity.
Qed.

(** Some data gives some text. *)
Lemma b64encode_not_empty (data : list Byte.byte) :
  data <> [] -> exists c s, b64encode data = String c s.
Proof.
  destruct data as [|a [|b [|c rest]]]; intros Hne.
  - contradiction.
  - eexists. eexists. reflexivity.
  - eexists. eexists. reflexivity.
  - eexists. eexists. reflexivity.
Qed.

Lemma scaled_0_45 (size : Z) :
  0 <= size < 2 ^ 31 -> scaled size lit_0_45 = Ok (9 * size / 20).
Proof.
  intros Hs. destruct (Z.eq_dec size 0) as [->|Hne]; [reflexivity|].
  unfold lit_0_45. Scaled.scaled_literal 9 20 8106479329266893%positive (-54).
Qed.

Lemma scaled_0_1 (size : Z) :
  0 <= size < 2 ^ 31 -> scaled size lit_0_1 = Ok (1 * size / 10).
Proof.
  intros Hs. destruct (Z.eq_dec size 0) as [->|Hne]; [reflexivity|].
  unfold lit_0_1. Scaled.scaled_literal 1 10 7205759403792794%positive (-56).
Qed.

Lemma scaled_0_08 (size : Z) :
  0 <= size < 2 ^ 31 -> scaled size lit_0_08 = Ok (2 * size / 25).
Proof.
  intros Hs. destruct (Z.eq_dec size 0) as [->|Hne]; [reflexivity|].
  unfold lit_0_08. Scaled.scaled_literal 2 25 5764607523034235%positive (-56).
Qed.

(** A row of this script is a row of the other one, for its default
    gradient. *)
Lemma gradient_row_eq (size y : Z) :
  gradient_row size y = row_line size (99, 102, 241) (139, 92, 246) y.
Proof.
  unfold gradient_row, row_line, row_fill, rbind.
  destruct (PyFloat.truediv y size) as [t|e]; [|reflexivity].
  destruct (channel 99 139 t); [|reflexivity].
  destruct (channel 102 92 t); [|reflexivity].
  destruct (channel 241 246 t); reflexivity.
Qed.

Section Drawing.
Context {R : Rasterizer}.

Lemma placeholder_image_closed (size : Z) :
  0 <= size <= MAX_WIDTH ->
  placeholder_image size
  = Ok (draw_all (placeholder_ops size) (background size (99, 102, 241) (139, 92, 246))).
Proof.
  intros Hs. assert (Hs31 : 0 <= size < 2 ^ 31) by size_lia.
  unfold placeholder_image. rewrite new_ok by exact Hs. cbn [rbind].
  rewrite (mapM_ext _ _ _ (gradient_row_eq size)).
  fold (gradient_ops size (99, 102, 241) (139, 92, 246)).
  rewrite gradient_ops_ok by (simpl; lia). cbn [rbind].
  rewrite (scaled_0_45 size Hs31), (scaled_0_1 size Hs31), (scaled_0_08 size Hs31).
  cbn [rbind]. rewrite !(Scaled.scaled_0_15 size Hs31). cbn [rbind].
  reflexivity.
Qed.

Lemma placeholder_image_negative (size : Z) :
  size < 0 -> placeholder_image size = Raise ValueError.
Proof.
  intros Hs. unfold placeholder_image, Pillow.new.
  rewrite (proj2 (Z.ltb_lt size 0)) by lia. reflexivity.
Qed.

Context {H : Host}.

Lemma add_icon_without_pil (svg_content html : string) (size : Z) (w : World) :
  pil_available = false ->
  add_icon svg_content html size w
  = (Ok (html ++ placeholder_block size),
     {| files := files w; modes := modes w;
        stdout := stdout w ++ [PilMissing; IconMissing size] |}).
Proof.
  intros Hpil. unfold add_icon, try_except, bind, svg_to_base64_png. rewrite Hpil.
  unfold bind, print, ret. cbn [files modes stdout]. rewrite <- app_assoc. reflexivity.
Qed.

Lemma add_icon_with_pil (svg_content html : string) (size : Z) (w : World)
    (img : Image) (data : list Byte.byte) :
  pil_available = true -> placeholder_image size = Ok img ->
  png_bytes img = Ok data -> data <> [] ->
  add_icon svg_content html size w
  = (Ok (html ++ img_block (b64encode data) size),
     {| files := files w; modes := modes w;
        stdout := stdout w ++ [IconGenerated size] |}).
Proof.
  intros Hpil Himg Hdata Hne.
  destruct (b64encode_not_empty data Hne) as (c & s & Hb).
  unfold add_icon, try_except, bind, svg_to_base64_png. rewrite Hpil.
  unfold bind, lift, ret. rewrite Himg, Hdata, Hb. reflexivity.
Qed.

Lemma add_icon_raises (svg_content html : string) (size : Z) (w : World) (e : Exc) :
  pil_available = true -> placeholder_image size = Raise e ->
  add_icon svg_content html size w
  = (Ok html,
     {| files := files w; modes := modes w;
        stdout := stdout w ++ [IconError size e] |}).
Proof.
  intros Hpil Himg.
  unfold add_icon, try_except, bind, svg_to_base64_png. rewrite Hpil.
  unfold bind, lift. rewrite Himg. reflexivity.
Qed.

(** The loop body never raises, writes no file and only adds to the
    page; what it adds depends on the size alone. *)
Lemma add_icon_total (svg_content : string) (size : Z) :
  exists block out, forall html w,
    add_icon svg_content html size w
    = (Ok (html ++ block),
       {| files := files w; modes := modes w; stdout := stdout w ++ out |}).
Proof.
  unfold add_icon, try_except, bind, svg_to_base64_png.
  destruct pil_available.
  - unfold bind, lift, ret.
    destruct (placeholder_image size) as [img|e].
    + destruct (png_bytes img) as [data|e].
      * destruct (b64encode data) as [|c s];
          unfold print; cbn [files modes stdout];
          eexists; eexists; intros html w; reflexivity.
      * exists "", [IconError size e]. intros html w.
        rewrite append_nil_r. reflexivity.
    + exists "", [IconError size e]. intros html w.
      rewrite append_nil_r. reflexivity.
  - unfold bind, print, ret. cbn [files modes stdout].
    eexists. eexists. intros html w. rewrite <- app_assoc. reflexivity.
Qed.

Lemma add_icons_total (svg_content : string) (sizes : list Z) :
  exists body out, forall html w,
    add_icons svg_content html sizes w
    = (Ok (html ++ body),
       {| files := files w; modes := modes w; stdout := stdout w ++ out |}).
Proof.
  induction sizes as [|size sizes IH].
  - exists "", []. intros html w. cbn [add_icons]. unfold ret.
    rewrite append_nil_r, app_nil_r. destruct w; reflexivity.
  - destruct (add_icon_total svg_content size) as (block & out & Hb).
    destruct IH as (body & out' & Hrest).
    exists (block ++ body), (out ++ out')%list. intros html w.
    cbn [add_icons]. unfold bind at 1. rewrite Hb, Hrest. cbn [files modes stdout].
    rewrite append_assoc, <- app_assoc. reflexivity.
Qed.

(** The loop when every size gives the same kind of block. *)
Lemma add_icons_map (svg_content : string) (block : Z -> string) (out : Z -> list Out)
    (sizes : list Z) :
  (forall size html w, In size sizes ->
     add_icon svg_content html size w
     = (Ok (html ++ block size),
        {| files := files w; modes := modes w; stdout := stdout w ++ out size |})) ->
  forall html w,
    add_icons svg_content html sizes w
    = (Ok (html ++ String.concat "" (map block sizes)),
       {| files := files w; modes := modes w;
          stdout := stdout w ++ flat_map out sizes |}).
Proof.
  induction sizes as [|size sizes IH]; intros Hall html w.
  - cbn. unfold ret. rewrite append_nil_r, app_nil_r. destruct w; reflexivity.
  - cbn [add_icons]. unfold bind at 1.
    rewrite (Hall size html w) by (left; reflexivity).
    rewrite IH by (intros s h w0 Hin; apply Hall; right; exact Hin).
    cbn [files modes stdout map flat_map].
    rewrite append_assoc, <- app_assoc. f_equal. f_equal.
    destruct sizes as [|s2 sizes']; [cbn; rewrite append_nil_r; reflexivity|].
    reflexivity.
Qed.

End Drawing.

End PlaceholderFacts.

Module PageFacts.
Import Pillow PillowFacts Script Checks ScriptFacts Reference.
Import Placeholder PlaceholderChecks PlaceholderFacts.

Section Writing.
Context {R : Rasterizer} {H : Host}.

Lemma write_outputs_html_fails (page : string) (w : World) (e : Exc) :
  write_text "ios-icons.html" page = Raise e ->
  write_outputs page w = (Raise e, w).
Proof.
  intros Hw. unfold write_outputs. unfold bind at 1. unfold write. rewrite Hw.
  reflexivity.
Qed.

Lemma write_outputs_script_fails (page : string) (w : World) (e : Exc) :
  write_text "ios-icons.html" page = Ok tt ->
  write_text "generate-icons.sh" shell_script = Raise e ->
  write_outputs page w
  = (Raise e, {| files := files w ++ [("ios-icons.html", page)];
                 modes := modes w;
                 stdout := stdout w ++ [HtmlWritten] |}).
Proof.
  intros Hw Hs. unfold write_outputs, bind, write, print. rewrite Hw.
  cbn [files modes stdout]. rewrite Hs. reflexivity.
Qed.

Lemma write_outputs_ok (page : string) (w : World) :
  write_text "ios-icons.html" page = Ok tt ->
  write_text "generate-icons.sh" shell_script = Ok tt ->
  write_outputs page w
  = (Ok tt,
     {| files := files w ++ [("ios-icons.html", page); ("generate-icons.sh", shell_script)];
        modes := modes w ++ match chmod "generate-icons.sh" 493 with
                            | Ok _ => [("generate-icons.sh", 493)]
                            | Raise _ => []
                            end;
        stdout := stdout w ++
                  [HtmlWritten;
                   match chmod "generate-icons.sh" 493 with
                   | Ok _ => ScriptWritten
                   | Raise e => ChmodFailed e
                   end;
                   AltHeader; AltIntro; AltUpload; AltSizes; AltSaveAs] |}).
Proof.
  intros Hw Hs. unfold write_outputs, bind, try_except, write, set_mode, print.
  rewrite Hw. cbn [files modes stdout]. rewrite Hs. cbn [files modes stdout].
  destruct (chmod "generate-icons.sh" 493) as [u|e]; cbn [files modes stdout];
    rewrite <- !app_assoc; cbn [app]; rewrite ?app_nil_r; reflexivity.
Qed.

Lemma generate_read_fails (sizes : list Z) (w : World) (e : Exc) :
  read_text "public/images/favicon.svg" = Raise e ->
  generate_html_placeholder sizes w = (Raise e, w).
Proof.
  intros Hr. unfold generate_html_placeholder. cbv zeta. unfold bind at 1.
  unfold lift. rewrite Hr. reflexivity.
Qed.

Lemma generate_spec (sizes : list Z) (w w1 : World) (svg page : string) :
  read_text "public/images/favicon.svg" = Ok svg ->
  add_icons svg html_head sizes
    {| files := files w; modes := modes w; stdout := stdout w ++ [GeneratingIcons] |}
  = (Ok page, w1) ->
  generate_html_placeholder sizes w = write_outputs (page ++ html_tail) w1.
Proof.
  intros Hr Hadd. unfold generate_html_placeholder. cbv zeta. unfold bind at 1.
  unfold lift. rewrite Hr. unfold bind at 1. unfold print at 1.
  unfold bind at 1. rewrite Hadd. reflexivity.
Qed.

(** The loop over a list that is cut in two. *)
Lemma add_icons_app (svg : string) (l1 l2 : list Z) :
  forall html w,
    add_icons svg html (l1 ++ l2) w
    = bind (add_icons svg html l1) (fun html' => add_icons svg html' l2) w.
Proof.
  induction l1 as [|size l1 IH]; intros html w.
  - reflexivity.
  - cbn [app add_icons]. unfold bind.
    destruct (add_icon svg html size w) as [[html'|e] w']; [|reflexivity].
    rewrite IH. unfold bind. reflexivity.
Qed.

End Writing.

End PageFacts.

Module Page.
Import Pillow PillowFacts Script Checks ScriptFacts Reference.
Import Placeholder PlaceholderChecks PlaceholderFacts PageFacts.

(** X14: the icon drawn by [svg_to_base64_png].  Once [Image.new] has
    allocated the canvas the drawing succeeds, the unused [radius] and
    [margin] included; the image has width and height [size]; it is the
    gradient background that [create_icon] paints for the default
    colours, under three ellipses of radius [2*size/25] at the offset
    [3*size/20] from the centre, whose boxes have their corners in
    order. *)
Theorem placeholder_drawing {R : Rasterizer} (size : Z) (blank : Image) :
  Pillow.new size size (0, 0, 0, 0) = Ok blank ->
  exists canvas,
    placeholder_image size = Ok (draw_all (placeholder_ops size) canvas) /\
    Script.render size default_colors
    = Ok (draw_all (overlay_ops size (3 * size / 25) (3 * size / 20)) canvas) /\
    has_size (draw_all (placeholder_ops size) canvas) size size /\
    Forall well_formed (placeholder_ops size).
Proof.
  intros Hnew. pose proof (new_inv _ _ _ _ Hnew) as (Hs & _ & _).
  exists (background size (99, 102, 241) (139, 92, 246)).
  split; [|split; [|split]].
  - apply placeholder_image_closed. exact Hs.
  - apply (RunFacts.render_closed size (Some "#6366f1") (Some "#8b5cf6") []);
      [exact Hs | reflexivity | reflexivity].
  - apply draw_all_has_size. unfold background. apply draw_all_has_size.
    apply (new_has_size size size (0, 0, 0, 0)). apply new_ok. exact Hs.
  - assert (Hr : 0 <= 2 * size / 25) by (apply Z.div_pos; lia).
    unfold placeholder_ops. cbv zeta.
    repeat (apply Forall_cons; [cbn [well_formed]; lia|]). apply Forall_nil.
Qed.

Lemma placeholder_drawing_witness :
  exists canvas,
    placeholder_image (R := box_rasterizer) 72
    = Ok (draw_all (R := box_rasterizer) (placeholder_ops 72) canvas) /\
    Script.render (R := box_rasterizer) 72 default_colors
    = Ok (draw_all (R := box_rasterizer)
            (overlay_ops 72 (3 * 72 / 25) (3 * 72 / 20)) canvas) /\
    has_size (draw_all (R := box_rasterizer) (placeholder_ops 72) canvas) 72 72 /\
    Forall well_formed (placeholder_ops 72).
Proof.
  apply (placeholder_drawing (R := box_rasterizer) 72
           (repeat (repeat (0, 0, 0, 0) (Z.to_nat 72)) (Z.to_nat 72))).
  reflexivity.
Defined.

(** X15: what [generate_html_placeholder] does, for any list of sizes
    and any host.  If the SVG file cannot be read the exception leaves
    the function and nothing is printed or written.  Otherwise the loop
    over the sizes never raises, and the page is the head, one block per
    size at most, and the tail.  The page is written first: if that
    fails the exception leaves the function with no file written; if
    the shell script cannot be written the exception leaves the function
    with the page alone; a failing [chmod] is only reported. *)
Theorem page_outcome {R : Rasterizer} {H : Host} (sizes : list Z) (w : World) :
  match read_text "public/images/favicon.svg" with
  | Raise e => generate_html_placeholder sizes w = (Raise e, w)
  | Ok svg_content =>
      exists body out,
        let page := html_head ++ body ++ html_tail in
        let seen := (stdout w ++ GeneratingIcons :: out)%list in
        match write_text "ios-icons.html" page,
              write_text "generate-icons.sh" shell_script with
        | Raise e, _ =>
            generate_html_placeholder sizes w
            = (Raise e, {| files := files w; modes := modes w; stdout := seen |})
        | Ok _, Raise e =>
            generate_html_placeholder sizes w
            = (Raise e, {| files := files w ++ [("ios-icons.html", page)];
                           modes := modes w;
                           stdout := seen ++ [HtmlWritten] |})
        | Ok _, Ok _ =>
            generate_html_placeholder sizes w
            = (Ok tt,
               {| files := files w ++ [("ios-icons.html", page);
                                       ("generate-icons.sh", shell_script)];
                  modes := modes w ++ match chmod "generate-icons.sh" 493 with
                                      | Ok _ => [("generate-icons.sh", 493)]
                                      | Raise _ => []
                                      end;
                  stdout := seen ++
                            [HtmlWritten;
                             match chmod "generate-icons.sh" 493 with
                             | Ok _ => ScriptWritten
                             | Raise e => ChmodFailed e
                             end;
                             AltHeader; AltIntro; AltUpload; AltSizes; AltSaveAs] |})
        end
  end.
Proof.
  destruct (read_text "public/images/favicon.svg") as [svg|e] eqn:Hr.
  2:{ apply generate_read_fails. exact Hr. }
  destruct (add_icons_total svg sizes) as (body & out & Hadd).
  exists body, out. cbv zeta.
  rewrite (generate_spec sizes w _ svg _ Hr (Hadd _ _)). cbn [files modes stdout].
  rewrite append_assoc, <- app_assoc. cbn [app].
  destruct (write_text "ios-icons.html" (html_head ++ body ++ html_tail)) as [[]|e] eqn:Hw.
  2:{ rewrite (write_outputs_html_fails _ _ e Hw). reflexivity. }
  destruct (write_text "generate-icons.sh" shell_script) as [[]|e] eqn:Hsh.
  2:{ rewrite (write_outputs_script_fails _ _ e Hw Hsh). reflexivity. }
  rewrite (write_outputs_ok _ _ Hw Hsh). reflexivity.
Qed.

(** X16: without Pillow every size gets a placeholder block, whatever
    the size is, and the messages say so twice per size.  On a host
    where the SVG file can be read and files can be written, the page is
    the head, the placeholder blocks in the order of the sizes, and the
    tail; the shell script is written after it. *)
Theorem page_without_pil {R : Rasterizer} {H : Host} (sizes : list Z) (w : World)
    (svg_content : string) :
  pil_available = false ->
  read_text "public/images/favicon.svg" = Ok svg_content ->
  (forall path text, write_text path text = Ok tt) ->
  exists w',
    generate_html_placeholder sizes w = (Ok tt, w') /\
    files w'
    = (files w ++
       [("ios-icons.html",
         (html_head ++ String.concat "" (map placeholder_block sizes) ++ html_tail)%string);
        ("generate-icons.sh", shell_script)])%list /\
    exists out,
      stdout w'
      = (stdout w ++ [GeneratingIcons]
         ++ flat_map (fun size => [PilMissing; IconMissing size]) sizes
         ++ HtmlWritten :: out)%list.
Proof.
  intros Hpil Hr Hw.
  pose proof (add_icons_map svg_content placeholder_block
                (fun size => [PilMissing; IconMissing size]) sizes
                (fun size html w0 _ => add_icon_without_pil svg_content html size w0 Hpil))
    as Hadd.
  rewrite (generate_spec sizes w _ svg_content _ Hr (Hadd _ _)).
  rewrite (write_outputs_ok _ _ (Hw _ _) (Hw _ _)). cbn [files modes stdout].
  eexists. split; [reflexivity|]. cbn [files modes stdout].
  split; [rewrite append_assoc; reflexivity|].
  eexists. rewrite <- !app_assoc. cbn [app]. reflexivity.
Qed.

Lemma page_without_pil_witness :
  exists w',
    generate_html_placeholder (R := box_rasterizer) (H := plain_host false)
      [72; -3] blank_world = (Ok tt, w') /\
    files w'
    = (files blank_world ++
       [("ios-icons.html",
         (html_head ++ String.concat "" (map placeholder_block [72; -3])
          ++ html_tail)%string);
        ("generate-icons.sh", shell_script)])%list /\
    exists out,
      stdout w'
      = (stdout blank_world ++ [GeneratingIcons]
         ++ flat_map (fun size => [PilMissing; IconMissing size]) [72; -3]
         ++ HtmlWritten :: out)%list.
Proof.
  apply (page_without_pil (R := box_rasterizer) (H := plain_host false)
           [72; -3] blank_world "<svg/>").
  - reflexivity.
  - reflexivity.
  - intros path text. reflexivity.
Defined.

(** X17: with Pillow, positive sizes whose canvas [Image.new]
    allocates and an encoder that returns some bytes for every image
    that has pixels, every size gets an [img] block whose data is the
    base64 text of the encoded drawing, in the order of the sizes; no
    placeholder block appears. *)
Theorem page_with_pil {R : Rasterizer} {H : Host} (sizes : list Z) (w : World)
    (svg_content : string) (png : Image -> list Byte.byte) :
  pil_available = true ->
  (forall img, Pillow.empty img = false ->
     png_bytes img = Ok (png img) /\ png img <> []) ->
  Forall (fun size =>
            0 < size /\ exists blank, Pillow.new size size (0, 0, 0, 0) = Ok blank)
         sizes ->
  read_text "public/images/favicon.svg" = Ok svg_content ->
  (forall path text, write_text path text = Ok tt) ->
  let icon := fun size =>
    draw_all (placeholder_ops size) (background size (99, 102, 241) (139, 92, 246)) in
  exists w',
    generate_html_placeholder sizes w = (Ok tt, w') /\
    files w'
    = (files w ++
       [("ios-icons.html",
         (html_head
          ++ String.concat ""
               (map (fun size => img_block (b64encode (png (icon size))) size) sizes)
          ++ html_tail)%string);
        ("generate-icons.sh", shell_script)])%list /\
    exists out,
      stdout w'
      = (stdout w ++ [GeneratingIcons] ++ map IconGenerated sizes
         ++ HtmlWritten :: out)%list.
Proof.
  intros Hpil Hpng Hsizes Hr Hw icon.
  assert (Hadd := add_icons_map svg_content
                    (fun size => img_block (b64encode (png (icon size))) size)
                    (fun size => [IconGenerated size]) sizes).
  assert (Hall : forall size html w0, In size sizes ->
            add_icon svg_content html size w0
            = (Ok (html ++ img_block (b64encode (png (icon size))) size),
               {| files := files w0; modes := modes w0;
                  stdout := stdout w0 ++ [IconGenerated size] |})).
  { intros size html w0 Hin.
    rewrite Forall_forall in Hsizes.
    destruct (Hsizes size Hin) as (Hpos & blank & Hnew).
    pose proof (new_inv _ _ _ _ Hnew) as (Hs & _ & _).
    assert (Hfull : Pillow.empty (icon size) = false).
    { apply (has_size_not_empty _ size size); [exact Hpos | exact Hpos |].
      apply draw_all_has_size. unfold background. apply draw_all_has_size.
      apply (new_has_size size size (0, 0, 0, 0)). apply new_ok. exact Hs. }
    apply (add_icon_with_pil svg_content html size w0 (icon size) (png (icon size)) Hpil).
    - apply placeholder_image_closed. exact Hs.
    - apply Hpng. exact Hfull.
    - apply Hpng. exact Hfull. }
  specialize (Hadd Hall).
  rewrite (generate_spec sizes w _ svg_content _ Hr (Hadd _ _)).
  rewrite (write_outputs_ok _ _ (Hw _ _) (Hw _ _)). cbn [files modes stdout].
  eexists. split; [reflexivity|]. cbn [files modes stdout].
  split; [rewrite append_assoc; reflexivity|].
  eexists. rewrite <- !app_assoc. cbn [app].
  replace (flat_map (fun size => [IconGenerated size]) sizes)
    with (map IconGenerated sizes).
  - reflexivity.
  - clear. induction sizes as [|s l IH]; [reflexivity|]. cbn. rewrite IH. reflexivity.
Qed.

Lemma page_with_pil_witness :
  let icon := fun size =>
    draw_all (R := box_rasterizer) (placeholder_ops size)
      (background (R := box_rasterizer) size (99, 102, 241) (139, 92, 246)) in
  exists w',
    generate_html_placeholder (R := box_rasterizer) (H := plain_host true)
      ios_sizes blank_world = (Ok tt, w') /\
    files w'
    = (files blank_world ++
       [("ios-icons.html",
         (html_head
          ++ String.concat ""
               (map (fun size =>
                       img_block (b64encode ((fun _ => png_signature) (icon size))) size)
                    ios_sizes)
          ++ html_tail)%string);
        ("generate-icons.sh", shell_script)])%list /\
    exists out,
      stdout w'
      = (stdout blank_world ++ [GeneratingIcons] ++ map IconGenerated ios_sizes
         ++ HtmlWritten :: out)%list.
Proof.
  apply (page_with_pil (R := box_rasterizer) (H := plain_host true)
           ios_sizes blank_world "<svg/>" (fun _ => png_signature)).
  - reflexivity.
  - intros img Hfull. cbn [png_bytes plain_host]. rewrite Hfull.
    split; [reflexivity | discriminate].
  - unfold ios_sizes.
    repeat (apply Forall_cons; [split; [lia | eexists; reflexivity]|]).
    apply Forall_nil.
  - reflexivity.
  - intros path text. reflexivity.
Defined.

(** X18: a size whose icon cannot be drawn or encoded is skipped.  With
    Pillow present, if drawing the icon of [size] raises (a negative
    size gives [ValueError]) or its encoding raises, the run gives the
    same result and writes the same files as a run without this size;
    the only trace is the error message. *)
Theorem failing_size_skipped {R : Rasterizer} {H : Host} (l1 l2 : list Z) (size : Z)
    (w : World) (svg_content : string) (e : Exc) :
  pil_available = true ->
  (placeholder_image size = Raise e \/
   exists img, placeholder_image size = Ok img /\ png_bytes img = Raise e) ->
  read_text "public/images/favicon.svg" = Ok svg_content ->
  let with_size := generate_html_placeholder (l1 ++ size :: l2) w in
  let without := generate_html_placeholder (l1 ++ l2) w in
  fst with_size = fst without /\
  files (snd with_size) = files (snd without) /\
  modes (snd with_size) = modes (snd without) /\
  In (IconError size e) (stdout (snd with_size)).
Proof.
  intros Hpil Hfail Hr. cbv zeta.
  assert (Hskip : forall html w0,
            add_icon svg_content html size w0
            = (Ok html, {| files := files w0; modes := modes w0;
                           stdout := stdout w0 ++ [IconError size e] |})).
  { intros html w0. destruct Hfail as [Hd|(img & Hd & Hp)].
    - apply add_icon_raises; assumption.
    - unfold add_icon, try_except, bind, svg_to_base64_png. rewrite Hpil.
      unfold bind, lift. rewrite Hd, Hp. reflexivity. }
  destruct (add_icons_total svg_content l1) as (b1 & o1 & H1).
  destruct (add_icons_total svg_content l2) as (b2 & o2 & H2).
  set (w0 := {| files := files w; modes := modes w;
                stdout := stdout w ++ [GeneratingIcons] |}).
  assert (HA : add_icons svg_content html_head (l1 ++ size :: l2) w0
               = (Ok ((html_head ++ b1) ++ b2),
                  {| files := files w; modes := modes w;
                     stdout := ((stdout w0 ++ o1) ++ [IconError size e]) ++ o2 |})).
  { rewrite add_icons_app. unfold bind at 1. rewrite H1.
    cbn [add_icons]. unfold bind at 1. rewrite Hskip, H2. reflexivity. }
  assert (HB : add_icons svg_content html_head (l1 ++ l2) w0
               = (Ok ((html_head ++ b1) ++ b2),
                  {| files := files w; modes := modes w;
                     stdout := (stdout w0 ++ o1) ++ o2 |})).
  { rewrite add_icons_app. unfold bind at 1. rewrite H1, H2. reflexivity. }
  rewrite (generate_spec _ w _ svg_content _ Hr HA).
  rewrite (generate_spec _ w _ svg_content _ Hr HB).
  set (page := ((html_head ++ b1) ++ b2) ++ html_tail).
  destruct (write_text "ios-icons.html" page) as [[]|e1] eqn:Hw.
  2:{ rewrite !(write_outputs_html_fails _ _ e1 Hw). cbn [fst snd files modes stdout].
      repeat split. apply in_or_app. left. apply in_or_app. right. left. reflexivity. }
  destruct (write_text "generate-icons.sh" shell_script) as [[]|e2] eqn:Hsh.
  2:{ rewrite !(write_outputs_script_fails _ _ e2 Hw Hsh).
      cbn [fst snd files modes stdout]. repeat split.
      apply in_or_app. left. apply in_or_app. left. apply in_or_app. right.
      left. reflexivity. }
  rewrite !(write_outputs_ok _ _ Hw Hsh). cbn [fst snd files modes stdout].
  repeat split.
  apply in_or_app. left. apply in_or_app. left. apply in_or_app. right.
  left. reflexivity.
Qed.

Lemma failing_size_skipped_witness :
  let with_size :=
    generate_html_placeholder (R := box_rasterizer) (H := plain_host true)
      ([72] ++ (-1) :: [76]) blank_world in
  let without :=
    generate_html_placeholder (R := box_rasterizer) (H := plain_host true)
      ([72] ++ [76]) blank_world in
  fst with_size = fst without /\
  files (snd with_size) = files (snd without) /\
  modes (snd with_size) = modes (snd without) /\
  In (IconError (-1) ValueError) (stdout (snd with_size)).
Proof.
  apply (failing_size_skipped (R := box_rasterizer) (H := plain_host true)
           [72] [76] (-1) blank_world "<svg/>" ValueError).
  - reflexivity.
  - left. reflexivity.
  - reflexivity.
Defined.

(** X19: the page does not depend on the favicon.  The text read
    from [public/images/favicon.svg] is passed to [svg_to_base64_png]
    and never looked at: two runs that differ only in the content of
    that file print and write the same. *)
Theorem svg_content_ignored {R : Rasterizer} (H : Host) (text1 text2 : string)
    (sizes : list Z) (w : World) :
  generate_html_placeholder (H := with_svg H text1) sizes w
  = generate_html_placeholder (H := with_svg H text2) sizes w.
Proof.
  assert (Hloop : forall html w0,
            add_icons (H := with_svg H text1) text1 html sizes w0
            = add_icons (H := with_svg H text2) text2 html sizes w0).
  { induction sizes as [|size sizes IH]; intros html w0; [reflexivity|].
    cbn [add_icons]. unfold bind.
    change (add_icon (H := with_svg H text2) text2 html size w0)
      with (add_icon (H := with_svg H text1) text1 html size w0).
    destruct (add_icon (H := with_svg H text1) text1 html size w0) as [[html'|e] w1];
      [apply IH | reflexivity]. }
  unfold generate_html_placeholder. cbv zeta. unfold bind, lift, print.
  cbn [read_text with_svg]. rewrite Hloop.
  destruct (add_icons (H := with_svg H text2) text2 html_head sizes _) as [[page|e] w1];
    reflexivity.
Qed.

End Page.
